(** * Zero-Gravity: the INFT viewer pipeline and the IPFS proxy

    A shallow embedding of [src/App.tsx] (challenge, sign, derive key, fetch,
    decrypt, save) and of [server.js] (the one-route IPFS proxy), with the
    browser and Node facilities they call (atob, TextEncoder, SubtleCrypto)
    modelled after their standards.  The proxy is in two parts: the calls
    the handler makes on the response, and what Express sends for them.

    JavaScript strings are [string]: a sequence of code units, here the code
    units 0..255.  Byte arrays ([Uint8Array], [ArrayBuffer], [Buffer]) are
    [list byte].  An [async] function is run to its end: what it awaits is
    given by the environment, and what it does to the outside is recorded as
    a trace of events.

    The gallery script (ERC-721 enumeration and metadata cards) is embedded
    with its wallet, contracts and gateway given by the environment.  What
    it makes of the untyped metadata, the property reads and the HTML of a
    card, is a function of the environment too. *)

From Stdlib Require Import NArith ZArith List String Ascii Bool Lia.
From Stdlib Require Import Strings.Byte DecimalString ZifyNat.
Import ListNotations.

Local Open Scope string_scope.
Local Open Scope list_scope.

Declare Scope js_scope.
Delimit Scope js_scope with js.

(* ================================================================= *)
(** ** JavaScript values used by both programs *)

Module Js.

(** What a [throw] carries: an [Error]-like object, with its [name] and
    [message]; [null] or [undefined], of which no property can be read; or
    any other value, known by what [String(v)] gives. *)
Inductive Thrown : Type :=
| JsError (name message : string)
| JsValue (repr : string)
| JsNull
| JsUndefined.

(** [new Error(msg)] *)
Definition Error (msg : string) : Thrown := JsError "Error" msg.

(** [err?.message ?? String(err)] *)
Definition message_of (err : Thrown) : string :=
  match err with
  | JsError _ m => m
  | JsValue r => r
  | JsNull => "null"
  | JsUndefined => "undefined"
  end.

(** The outcome of a call that may throw (of a promise, once awaited). *)
Inductive Result (A : Type) : Type :=
| Ok (a : A)
| Throw (e : Thrown).
Arguments Ok {A} a.
Arguments Throw {A} e.

(** Truthiness of a string: [!s] holds of the empty string only. *)
Definition truthy (s : string) : bool :=
  match s with
  | EmptyString => false
  | String _ _ => true
  end.

(** [a || b] on strings. *)
Definition or_else (a b : string) : string := if truthy a then a else b.

(** [a || b] where [a] may be [null] or [undefined]. *)
Definition opt_or_else (a : option string) (b : string) : string :=
  match a with
  | Some s => or_else s b
  | None => b
  end.

(** [s.startsWith(p)] *)
Definition startsWith (s p : string) : bool := String.prefix p s.

(** [s.slice(n)], for [n >= 0] *)
Fixpoint slice_from (n : nat) (s : string) : string :=
  match n, s with
  | O, _ => s
  | S _, EmptyString => EmptyString
  | S n', String _ s' => slice_from n' s'
  end.

(** [s.endsWith(c)] for a single code unit [c] *)
Fixpoint endsWith_char (s : string) (c : ascii) : bool :=
  match s with
  | EmptyString => false
  | String a EmptyString => Ascii.eqb a c
  | String _ s' => endsWith_char s' c
  end.

(** [String.prototype.toLowerCase] on the code units 0..255: A-Z, and the
    letters U+00C0..U+00DE except the multiplication sign U+00D7. *)
Definition lower_char (c : ascii) : ascii :=
  let n := N_of_ascii c in
  if ((65 <=? n) && (n <=? 90))%N
     || ((192 <=? n) && (n <=? 222) && negb (n =? 215))%N
  then ascii_of_N (n + 32) else c.

Fixpoint toLowerCase (s : string) : string :=
  match s with
  | EmptyString => EmptyString
  | String c s' => String (lower_char c) (toLowerCase s')
  end.

(** White space and line terminators among the code units 0..255, as
    [String.prototype.trim] removes them. *)
Definition is_trim_space (c : ascii) : bool :=
  let n := N_of_ascii c in
  ((9 <=? n) && (n <=? 13) || (n =? 32) || (n =? 160))%N.

Fixpoint trim_start (s : string) : string :=
  match s with
  | EmptyString => EmptyString
  | String c s' => if is_trim_space c then trim_start s' else s
  end.

Fixpoint trim_end (s : string) : string :=
  match s with
  | EmptyString => EmptyString
  | String c s' =>
      match trim_end s' with
      | EmptyString => if is_trim_space c then EmptyString else String c EmptyString
      | t => String c t
      end
  end.

(** [s.trim()] *)
Definition trim (s : string) : string := trim_end (trim_start s).

(** A number in a template literal or in [String(n)]: decimal digits. *)
Definition decimal (n : N) : string := NilEmpty.string_of_uint (N.to_uint n).

(** Code that may throw and that updates a state [S]: what an [async]
    function does between its [await]s, run to completion. *)
Definition M (S A : Type) : Type := S -> Result A * S.

Definition ret {S A} (a : A) : M S A := fun s => (Ok a, s).

Definition bind {S A B} (m : M S A) (k : A -> M S B) : M S B :=
  fun s => match m s with
           | (Ok a, s') => k a s'
           | (Throw e, s') => (Throw e, s')
           end.

(** [throw e] *)
Definition throw {S A} (e : Thrown) : M S A := fun s => (Throw e, s).

(** [try { m } catch (err) { h err }] *)
Definition try_catch {S A} (m : M S A) (h : Thrown -> M S A) : M S A :=
  fun s => match m s with
           | (Ok a, s') => (Ok a, s')
           | (Throw e, s') => h e s'
           end.

Definition gets {S A} (f : S -> A) : M S A := fun s => (Ok (f s), s).
Definition modify {S} (f : S -> S) : M S unit := fun s => (Ok tt, f s).

(** [await r]: the value of a settled promise, or its rejection thrown. *)
Definition await {S A} (r : Result A) : M S A := fun s => (r, s).

End Js.

Notation "x <- m ;; k" := (Js.bind m (fun x => k))
  (at level 61, m at next level, right associativity) : js_scope.
Notation "m ;; k" := (Js.bind m (fun _ => k))
  (at level 61, right associativity) : js_scope.

(* ================================================================= *)
(** ** Bytes *)

Module Bytes.

(** The byte holding [n mod 256]: what storing [n] in a [Uint8Array] keeps. *)
Definition trunc8 (n : N) : byte :=
  match Byte.of_N (n mod 256) with
  | Some b => b
  | None => x00
  end.

Definition xor (a b : byte) : byte :=
  trunc8 (N.lxor (Byte.to_N a) (Byte.to_N b)).

(** Bytewise xor of [data] with the key stream [ks], as long as [data]. *)
Fixpoint xor_stream (data ks : list byte) : list byte :=
  match data, ks with
  | d :: data', k :: ks' => xor d k :: xor_stream data' ks'
  | d :: data', [] => data
  | [], _ => []
  end.

(** Big-endian value of a byte string. *)
Definition to_N_be (bs : list byte) : N :=
  fold_left (fun acc b => acc * 256 + Byte.to_N b)%N bs 0%N.

(** The [len] low bytes of [n], big-endian. *)
Fixpoint of_N_be (len : nat) (n : N) : list byte :=
  match len with
  | O => []
  | S len' => of_N_be len' (n / 256) ++ [trunc8 n]
  end.

(** Bytes written in hexadecimal, two digits a byte. *)
Definition hex_digit (n : N) : ascii :=
  match String.get (N.to_nat n) "0123456789abcdef" with
  | Some c => c
  | None => "?"%char
  end.

Fixpoint hex (bs : list byte) : string :=
  match bs with
  | [] => EmptyString
  | b :: bs' =>
      String (hex_digit (Byte.to_N b / 16)) (String (hex_digit (Byte.to_N b mod 16)) (hex bs'))
  end.

Definition hex_value (c : ascii) : N :=
  match String.index 0 (String c EmptyString) "0123456789abcdef" with
  | Some n => N.of_nat n
  | None => 0
  end.

Fixpoint unhex (s : string) : list byte :=
  match s with
  | String a (String b s') => trunc8 (hex_value a * 16 + hex_value b) :: unhex s'
  | _ => []
  end.

End Bytes.

(* ================================================================= *)
(** ** [window.atob] and [window.btoa]: forgiving base64 (WHATWG Infra) *)

Module Base64.
Local Open Scope N_scope.

Definition alphabet : string :=
  "ABCDEFGHIJKLMNOPQRSTUVWXYZabcdefghijklmnopqrstuvwxyz0123456789+/".

Definition pad : ascii := "="%char.

Definition sextet_char (n : N) : ascii :=
  match String.get (N.to_nat n) alphabet with
  | Some c => c
  | None => pad
  end.

Definition char_sextet (c : ascii) : option N :=
  let n := N_of_ascii c in
  if (65 <=? n) && (n <=? 90) then Some (n - 65)
  else if (97 <=? n) && (n <=? 122) then Some (n - 71)
  else if (48 <=? n) && (n <=? 57) then Some (n + 4)
  else if n =? 43 then Some 62
  else if n =? 47 then Some 63
  else None.

(** Three bytes make four sextets; a last group of one byte makes two and
    one of two bytes makes three. *)
Fixpoint sextet_chars (bs : list N) : list ascii :=
  match bs with
  | a :: b :: c :: rest =>
      sextet_char (a / 4) :: sextet_char ((a mod 4) * 16 + b / 16)
      :: sextet_char ((b mod 16) * 4 + c / 64) :: sextet_char (c mod 64)
      :: sextet_chars rest
  | [a; b] =>
      [sextet_char (a / 4); sextet_char ((a mod 4) * 16 + b / 16);
       sextet_char ((b mod 16) * 4)]
  | [a] => [sextet_char (a / 4); sextet_char ((a mod 4) * 16)]
  | [] => []
  end.

(** As many [=] as bytes are missing from the last group of three. *)
Definition padding (n : nat) : list ascii :=
  repeat pad (Nat.modulo (3 - Nat.modulo n 3) 3).

Definition encode (bs : list N) : list ascii :=
  sextet_chars bs ++ padding (List.length bs).

(** Numbers that are bytes. *)
Definition byte_sized (bs : list N) : Prop := Forall (fun b => b < 256) bs.

(** [btoa(s)]: every code unit of [s] is below 256 here, so it never throws. *)
Definition btoa (s : string) : string :=
  string_of_list_ascii (encode (map N_of_ascii (list_ascii_of_string s))).

(** TAB, LF, FF, CR and SPACE. *)
Definition is_ascii_whitespace (c : ascii) : bool :=
  let n := N_of_ascii c in
  (n =? 9) || (n =? 10) || (n =? 12) || (n =? 13) || (n =? 32).

(** When the length is a multiple of four, one or two final [=] go. *)
Definition strip_padding (l : list ascii) : list ascii :=
  if Nat.eqb (Nat.modulo (List.length l) 4) 0 then
    match rev l with
    | c1 :: r1 =>
        if Ascii.eqb c1 pad then
          match r1 with
          | c2 :: r2 => if Ascii.eqb c2 pad then rev r2 else rev r1
          | [] => rev r1
          end
        else l
    | [] => l
    end
  else l.

Fixpoint sextets (l : list ascii) : option (list N) :=
  match l with
  | [] => Some []
  | c :: l' =>
      match char_sextet c, sextets l' with
      | Some n, Some ns => Some (n :: ns)
      | _, _ => None
      end
  end.

(** Four sextets give three bytes; two left over give one byte and three
    give two, the spare low bits being dropped. *)
Fixpoint decode_sextets (l : list N) : list N :=
  match l with
  | s0 :: s1 :: s2 :: s3 :: rest =>
      (s0 * 4 + s1 / 16) :: ((s1 mod 16) * 16 + s2 / 4)
      :: ((s2 mod 4) * 64 + s3) :: decode_sextets rest
  | [s0; s1; s2] => [s0 * 4 + s1 / 16; (s1 mod 16) * 16 + s2 / 4]
  | [s0; s1] => [s0 * 4 + s1 / 16]
  | _ => []
  end.

(** Forgiving-base64 decode, once white space is gone. *)
Definition decode (l : list ascii) : option (list N) :=
  let d := strip_padding l in
  if Nat.eqb (Nat.modulo (List.length d) 4) 1 then None
  else option_map decode_sextets (sextets d).

(** [atob(data)]: [None] is the [InvalidCharacterError] exception. *)
Definition atob (data : string) : option string :=
  option_map (fun bs => string_of_list_ascii (map ascii_of_N bs))
             (decode (filter (fun c => negb (is_ascii_whitespace c))
                             (list_ascii_of_string data))).

End Base64.

(* ================================================================= *)
(** ** [TextEncoder.encode]: UTF-8 of the code units 0..255 *)

Module TextEncoder.
Local Open Scope N_scope.

Definition encode_unit (c : ascii) : list byte :=
  let n := N_of_ascii c in
  if n <? 128 then [Bytes.trunc8 n]
  else [Bytes.trunc8 (N.lor 192 (N.shiftr n 6));
        Bytes.trunc8 (N.lor 128 (N.land n 63))].

Fixpoint encode (s : string) : list byte :=
  match s with
  | EmptyString => []
  | String c s' => encode_unit c ++ encode s'
  end.

End TextEncoder.

(* ================================================================= *)
(** ** SHA-256 (FIPS 180-4), as [crypto.subtle.digest("SHA-256", data)] *)

Module SHA256.
Local Open Scope N_scope.

Definition add32 (x y : N) : N := (x + y) mod 2 ^ 32.
Definition rotr (n x : N) : N :=
  N.lor (N.shiftr x n) ((N.shiftl x (32 - n)) mod 2 ^ 32).
Definition not32 (x : N) : N := N.lxor x (2 ^ 32 - 1).

Definition Ch (x y z : N) : N := N.lxor (N.land x y) (N.land (not32 x) z).
Definition Maj (x y z : N) : N :=
  N.lxor (N.lxor (N.land x y) (N.land x z)) (N.land y z).
Definition Sigma0 (x : N) : N := N.lxor (N.lxor (rotr 2 x) (rotr 13 x)) (rotr 22 x).
Definition Sigma1 (x : N) : N := N.lxor (N.lxor (rotr 6 x) (rotr 11 x)) (rotr 25 x).
Definition sigma0 (x : N) : N := N.lxor (N.lxor (rotr 7 x) (rotr 18 x)) (N.shiftr x 3).
Definition sigma1 (x : N) : N := N.lxor (N.lxor (rotr 17 x) (rotr 19 x)) (N.shiftr x 10).

(** The constants are the first 32 fractional bits of the square roots of
    the first eight primes and of the cube roots of the first sixty-four. *)
Definition is_prime (n : nat) : bool :=
  forallb (fun d => negb (Nat.eqb (Nat.modulo n d) 0)) (seq 2 (n - 2)).

Definition primes : list N :=
  map N.of_nat (firstn 64 (filter is_prime (seq 2 310))).

Fixpoint cube_root_bits (k : nat) (n r : N) : N :=
  match k with
  | O => r
  | S k' =>
      let r' := r + 2 ^ N.of_nat k' in
      if r' * r' * r' <=? n then cube_root_bits k' n r' else cube_root_bits k' n r
  end.

Definition K : list N :=
  Eval vm_compute in
    map (fun p => cube_root_bits 36 (p * 2 ^ 96) 0 mod 2 ^ 32) primes.

Definition H0 : list N :=
  Eval vm_compute in
    map (fun p => N.sqrt (p * 2 ^ 64) mod 2 ^ 32) (firstn 8 primes).

(** The message, a one bit, zero bits up to 56 mod 64 bytes, and the length
    of the message in bits on eight bytes. *)
Definition padding (len : nat) : list byte :=
  x80 :: repeat x00 (Nat.modulo (64 - Nat.modulo (len + 9) 64) 64)
      ++ Bytes.of_N_be 8 (8 * N.of_nat len).

Fixpoint words (n : nat) (bs : list byte) : list N :=
  match n with
  | O => []
  | S n' => Bytes.to_N_be (firstn 4 bs) :: words n' (skipn 4 bs)
  end.

(** [schedule n win] gives W_t, W_t+1, ... for [n] rounds, [win] holding
    the sixteen words from W_t on. *)
Fixpoint schedule (n : nat) (win : list N) : list N :=
  match n with
  | O => []
  | S n' =>
      match win with
      | [] => []
      | w0 :: rest =>
          let next := add32 (add32 (add32 (sigma1 (nth 14 win 0)) (nth 9 win 0))
                                   (sigma0 (nth 1 win 0))) w0 in
          w0 :: schedule n' (rest ++ [next])
      end
  end.

Record state : Type := mkState { a : N; b : N; c : N; d : N; e : N; f : N; g : N; h : N }.

Definition round (s : state) (kw : N * N) : state :=
  let T1 := add32 (add32 (add32 (add32 (h s) (Sigma1 (e s))) (Ch (e s) (f s) (g s)))
                         (fst kw)) (snd kw) in
  let T2 := add32 (Sigma0 (a s)) (Maj (a s) (b s) (c s)) in
  mkState (add32 T1 T2) (a s) (b s) (c s) (add32 (d s) T1) (e s) (f s) (g s).

Definition compress (s : state) (block : list byte) : state :=
  let t := fold_left round (combine K (schedule 64 (words 16 block))) s in
  mkState (add32 (a s) (a t)) (add32 (b s) (b t)) (add32 (c s) (c t))
          (add32 (d s) (d t)) (add32 (e s) (e t)) (add32 (f s) (f t))
          (add32 (g s) (g t)) (add32 (h s) (h t)).

Fixpoint blocks (n : nat) (s : state) (bs : list byte) : state :=
  match n, bs with
  | S n', _ :: _ => blocks n' (compress s (firstn 64 bs)) (skipn 64 bs)
  | _, _ => s
  end.

Definition initial : state :=
  mkState (nth 0 H0 0) (nth 1 H0 0) (nth 2 H0 0) (nth 3 H0 0)
          (nth 4 H0 0) (nth 5 H0 0) (nth 6 H0 0) (nth 7 H0 0).

Definition output (s : state) : list byte :=
  Bytes.of_N_be 4 (a s) ++ Bytes.of_N_be 4 (b s) ++ Bytes.of_N_be 4 (c s)
  ++ Bytes.of_N_be 4 (d s) ++ Bytes.of_N_be 4 (e s) ++ Bytes.of_N_be 4 (f s)
  ++ Bytes.of_N_be 4 (g s) ++ Bytes.of_N_be 4 (h s).

Definition digest (msg : list byte) : list byte :=
  let padded := msg ++ padding (List.length msg) in
  output (blocks (List.length padded) initial padded).

End SHA256.

(* ================================================================= *)
(** ** AES (FIPS 197): the block cipher under AES-GCM *)

Module AES.
Local Open Scope N_scope.

(** Multiplication in GF(2^8) modulo x^8 + x^4 + x^3 + x + 1. *)
Definition xtime (a : N) : N :=
  let s := (N.shiftl a 1) mod 256 in
  if N.testbit a 7 then N.lxor s 27 else s.

Fixpoint gf_mul_bits (n : nat) (a b : N) : N :=
  match n with
  | O => 0
  | S n' =>
      N.lxor (if N.testbit b 0 then a else 0)
             (gf_mul_bits n' (xtime a) (N.shiftr b 1))
  end.

Definition gf_mul (a b : N) : N := gf_mul_bits 8 a b.

(** The inverse is the 254th power (and 0 for 0). *)
Definition gf_inv (a : N) : N :=
  let a2 := gf_mul a a in
  let a4 := gf_mul a2 a2 in
  let a8 := gf_mul a4 a4 in
  let a16 := gf_mul a8 a8 in
  let a32 := gf_mul a16 a16 in
  let a64 := gf_mul a32 a32 in
  let a128 := gf_mul a64 a64 in
  gf_mul a2 (gf_mul a4 (gf_mul a8 (gf_mul a16 (gf_mul a32 (gf_mul a64 a128))))).

Definition rotl8 (x k : N) : N :=
  (N.lor (N.shiftl x k) (N.shiftr x (8 - k))) mod 256.

Definition sbox_of (a : N) : N :=
  let i := gf_inv a in
  N.lxor (N.lxor (N.lxor (N.lxor (N.lxor i (rotl8 i 1)) (rotl8 i 2)) (rotl8 i 3))
                 (rotl8 i 4)) 99.

Definition sbox_table : list N :=
  Eval vm_compute in map (fun i => sbox_of (N.of_nat i)) (seq 0 256).

Definition sbox (a : N) : N := nth (N.to_nat a) sbox_table 0.

(** A word is four bytes. *)
Definition word : Type := list N.

Fixpoint xor_bytes (u v : list N) : list N :=
  match u, v with
  | x :: u', y :: v' => N.lxor x y :: xor_bytes u' v'
  | _, _ => []
  end.

Definition RotWord (w : word) : word :=
  match w with
  | x :: rest => rest ++ [x]
  | [] => []
  end.

Definition SubWord (w : word) : word := map sbox w.

Fixpoint xpower (n : nat) : N :=
  match n with
  | O => 1
  | S n' => xtime (xpower n')
  end.

Definition Rcon (i : nat) : word := [xpower (i - 1); 0; 0; 0].

Fixpoint chunks4 (n : nat) (l : list N) : list (list N) :=
  match n with
  | O => []
  | S n' => firstn 4 l :: chunks4 n' (skipn 4 l)
  end.

(** [expand fuel Nk i ws]: [ws] holds w[0..i-1]; adds [fuel] more words. *)
Fixpoint expand (fuel Nk i : nat) (ws : list word) : list word :=
  match fuel with
  | O => ws
  | S fuel' =>
      let prev := nth (i - 1) ws [] in
      let temp :=
        if Nat.eqb (Nat.modulo i Nk) 0
        then xor_bytes (SubWord (RotWord prev)) (Rcon (Nat.div i Nk))
        else if Nat.ltb 6 Nk && Nat.eqb (Nat.modulo i Nk) 4
             then SubWord prev
             else prev in
      expand fuel' Nk (S i) (ws ++ [xor_bytes (nth (i - Nk) ws []) temp])
  end.

Definition rounds_of (key : list byte) : nat := Nat.div (List.length key) 4 + 6.

Definition key_schedule (key : list byte) : list word :=
  let Nk := Nat.div (List.length key) 4 in
  expand (4 * (rounds_of key + 1) - Nk) Nk Nk (chunks4 Nk (map Byte.to_N key)).

(** The state is sixteen bytes, column after column: byte [r + 4c] is row
    [r] of column [c]. *)
Definition AddRoundKey (ws : list word) (round : nat) (st : list N) : list N :=
  xor_bytes st (List.concat (firstn 4 (skipn (4 * round) ws))).

Definition SubBytes (st : list N) : list N := map sbox st.

Definition ShiftRows (st : list N) : list N :=
  map (fun i => let r := Nat.modulo i 4 in
                let c := Nat.div i 4 in
                nth (r + 4 * Nat.modulo (c + r) 4) st 0)
      (seq 0 16).

Definition mix_column (col : list N) : list N :=
  match col with
  | [s0; s1; s2; s3] =>
      [N.lxor (N.lxor (gf_mul 2 s0) (gf_mul 3 s1)) (N.lxor s2 s3);
       N.lxor (N.lxor s0 (gf_mul 2 s1)) (N.lxor (gf_mul 3 s2) s3);
       N.lxor (N.lxor s0 s1) (N.lxor (gf_mul 2 s2) (gf_mul 3 s3));
       N.lxor (N.lxor (gf_mul 3 s0) s1) (N.lxor s2 (gf_mul 2 s3))]
  | _ => col
  end.

Definition MixColumns (st : list N) : list N :=
  List.concat (map mix_column (chunks4 4 st)).

Fixpoint middle_rounds (n round : nat) (ws : list word) (st : list N) : list N :=
  match n with
  | O => st
  | S n' =>
      middle_rounds n' (S round) ws
        (AddRoundKey ws round (MixColumns (ShiftRows (SubBytes st))))
  end.

Definition cipher (key : list byte) (input : list N) : list N :=
  let ws := key_schedule key in
  let Nr := rounds_of key in
  let st := middle_rounds (Nr - 1) 1 ws (AddRoundKey ws 0 input) in
  AddRoundKey ws Nr (ShiftRows (SubBytes st)).

(** The cipher on a block given as a 128-bit number, big-endian. *)
Definition encrypt_block (key : list byte) (blk : N) : N :=
  Bytes.to_N_be
    (map Bytes.trunc8 (cipher key (map Byte.to_N (Bytes.of_N_be 16 blk)))).

End AES.

(* ================================================================= *)
(** ** AES-GCM (NIST SP 800-38D), with a 128-bit tag *)

Module GCM.
Local Open Scope N_scope.

Definition R : N := N.shiftl 225 120.

(** Multiplication of blocks: the bits of [x] are taken from the leftmost. *)
Fixpoint mul_bits (n : nat) (x v z : N) : N :=
  match n with
  | O => z
  | S n' =>
      let z' := if N.testbit x (N.of_nat n') then N.lxor z v else z in
      let v' := if N.testbit v 0 then N.lxor (N.shiftr v 1) R else N.shiftr v 1 in
      mul_bits n' x v' z'
  end.

Definition mul (x y : N) : N := mul_bits 128 x y 0.

Definition pad16 (bs : list byte) : list byte :=
  bs ++ repeat x00 (Nat.modulo (16 - Nat.modulo (List.length bs) 16) 16).

Fixpoint blocks_of (n : nat) (bs : list byte) : list N :=
  match n, bs with
  | S n', _ :: _ => Bytes.to_N_be (firstn 16 bs) :: blocks_of n' (skipn 16 bs)
  | _, _ => []
  end.

Definition GHASH (H : N) (bs : list byte) : N :=
  fold_left (fun y x => mul (N.lxor y x) H) (blocks_of (List.length bs) bs) 0.

Definition bit_length (bs : list byte) : list byte :=
  Bytes.of_N_be 8 (8 * N.of_nat (List.length bs)).

(** The pre-counter block. *)
Definition J0 (H : N) (iv : list byte) : N :=
  if Nat.eqb (List.length iv) 12
  then Bytes.to_N_be (iv ++ [x00; x00; x00; x01])
  else GHASH H (pad16 iv ++ Bytes.of_N_be 8 0 ++ bit_length iv).

Definition inc32 (x : N) : N := (x / 2 ^ 32) * 2 ^ 32 + (x + 1) mod 2 ^ 32.

Fixpoint keystream (E : N -> N) (n : nat) (cb : N) : list byte :=
  match n with
  | O => []
  | S n' => Bytes.of_N_be 16 (E cb) ++ keystream E n' (inc32 cb)
  end.

Definition GCTR (E : N -> N) (icb : N) (data : list byte) : list byte :=
  Bytes.xor_stream data (keystream E (Nat.div (List.length data + 15) 16) icb).

Definition tag (E : N -> N) (H j0 : N) (aad c : list byte) : list byte :=
  GCTR E j0
    (Bytes.of_N_be 16 (GHASH H (pad16 aad ++ pad16 c ++ bit_length aad ++ bit_length c))).

(** Authenticated encryption: the ciphertext followed by the tag. *)
Definition encrypt (key iv aad plaintext : list byte) : list byte :=
  let E := AES.encrypt_block key in
  let H := E 0 in
  let j0 := J0 H iv in
  let c := GCTR E (inc32 j0) plaintext in
  c ++ tag E H j0 aad c.

Definition bytes_eqb (u v : list byte) : bool :=
  if list_eq_dec Byte.byte_eq_dec u v then true else false.

(** Authenticated decryption: [None] when the tag does not match. *)
Definition decrypt (key iv aad data : list byte) : option (list byte) :=
  let E := AES.encrypt_block key in
  let H := E 0 in
  let j0 := J0 H iv in
  let n := Nat.sub (List.length data) 16 in
  let c := firstn n data in
  let t := skipn n data in
  if bytes_eqb t (tag E H j0 aad c) then Some (GCTR E (inc32 j0) c) else None.

End GCM.

(* ================================================================= *)
(** ** [crypto.subtle] (W3C Web Cryptography API), for SHA-256 and AES-GCM *)

Module WebCrypto.

Inductive KeyUsage : Type :=
| encrypt_usage | decrypt_usage | sign_usage | verify_usage
| deriveKey_usage | deriveBits_usage | wrapKey_usage | unwrapKey_usage.

Definition usage_eqb (u v : KeyUsage) : bool :=
  match u, v with
  | encrypt_usage, encrypt_usage | decrypt_usage, decrypt_usage
  | sign_usage, sign_usage | verify_usage, verify_usage
  | deriveKey_usage, deriveKey_usage | deriveBits_usage, deriveBits_usage
  | wrapKey_usage, wrapKey_usage | unwrapKey_usage, unwrapKey_usage => true
  | _, _ => false
  end.

Definition has_usage (u : KeyUsage) (us : list KeyUsage) : bool :=
  existsb (usage_eqb u) us.

(** A [CryptoKey]: the algorithm it is for, whether it can be exported,
    what it may be used for, and the key itself, which scripts cannot read. *)
Record CryptoKey : Type := mkKey {
  algorithm : string;
  extractable : bool;
  usages : list KeyUsage;
  material : list byte
}.

(** The exceptions, by the name of the [DOMException]. *)
Inductive DomError : Type :=
| SyntaxError | DataError | InvalidAccessError | OperationError
| InvalidCharacterError.

Definition error_name (e : DomError) : string :=
  match e with
  | SyntaxError => "SyntaxError"
  | DataError => "DataError"
  | InvalidAccessError => "InvalidAccessError"
  | OperationError => "OperationError"
  | InvalidCharacterError => "InvalidCharacterError"
  end.

(** [digest("SHA-256", data)] *)
Definition digest_SHA256 (data : list byte) : list byte := SHA256.digest data.

Definition aes_usage (u : KeyUsage) : bool :=
  match u with
  | encrypt_usage | decrypt_usage | wrapKey_usage | unwrapKey_usage => true
  | _ => false
  end.

(** [importKey("raw", keyData, { name: "AES-GCM" }, extractable, usages)] *)
Definition importKey_raw_AES_GCM (keyData : list byte) (ext : bool)
           (us : list KeyUsage) : DomError + CryptoKey :=
  if negb (forallb aes_usage us) then inl SyntaxError
  else
    let bits := 8 * List.length keyData in
    if negb (Nat.eqb bits 128 || Nat.eqb bits 192 || Nat.eqb bits 256) then inl DataError
    else match us with
         | [] => inl SyntaxError
         | _ => inr (mkKey "AES-GCM" ext us keyData)
         end.

(** [decrypt({ name: "AES-GCM", iv }, key, data)]: no additional data, and
    the tag of 128 bits that is the default. *)
Definition decrypt_AES_GCM (iv : list byte) (key : CryptoKey) (data : list byte)
  : DomError + list byte :=
  if negb (String.eqb (algorithm key) "AES-GCM") then inl InvalidAccessError
  else if negb (has_usage decrypt_usage (usages key)) then inl InvalidAccessError
  else if Nat.ltb (List.length data) 16 then inl OperationError
  else match GCM.decrypt (material key) iv [] data with
       | Some plaintext => inr plaintext
       | None => inl OperationError
       end.

(** [encrypt({ name: "AES-GCM", iv }, key, data)], with the same defaults;
    the plaintext may not exceed 2^39 - 256 bytes. *)
Definition encrypt_AES_GCM (iv : list byte) (key : CryptoKey) (data : list byte)
  : DomError + list byte :=
  if negb (String.eqb (algorithm key) "AES-GCM") then inl InvalidAccessError
  else if negb (has_usage encrypt_usage (usages key)) then inl InvalidAccessError
  else if (2 ^ 39 - 256 <? N.of_nat (List.length data))%N then inl OperationError
  else inr (GCM.encrypt (material key) iv [] data).

End WebCrypto.

(* ================================================================= *)
(** ** [src/App.tsx]: the viewer *)

Module App.
Import Js.
Local Open Scope js_scope.

Definition OWNER_ADDRESS : string :=
  toLowerCase "0x6F4D829488686afd8D9B68AE56986C312784C0e6".

Record Token : Type := mkToken {
  tokenId : string;
  name : string;
  storageCid : string;
  fileName : string
}.

Definition TOKENS : list Token :=
  [ mkToken "0x4884f459...01" "DARA Research Passport #1 (test)" "" "unknown.txt";
    mkToken "0x4884f459...02" "DARA Research Passport #2"
            "0xda25a5f5ea40e210db8a662801647b655dd2d1030ab89285441c74ced13e2945"
            "restoreCode.bat";
    mkToken "0x4884f459...03" "DARA Research Passport #3"
            "0xbf02c1cab5034303eccda34e461e0f65c3277c217023979ca1901f57ce6ba6b0"
            "0g research.txt";
    mkToken "0x4884f459...04" "DARA Research Passport #4"
            "0x175dce81758f5c91c49fb8a0c4af35653bdf92fc21a02daf53adcc3004c0b57c"
            "Renewable Energy.txt" ].

Definition DEFAULT_STORAGE_GATEWAY : string := "".

Definition normalizeCid (cid : string) : string :=
  if negb (truthy cid) then cid
  else if startsWith cid "0x" then slice_from 2 cid else cid.

(** *** What the component talks to *)

(** An ethers signer. *)
Record Signer : Type := mkSigner {
  getAddress : Result string;
  signMessage : string -> Result string
}.

(** A WalletConnect provider: [enable()], the signer of the Web3Provider
    around it, and [disconnect], when there is such a method, with what
    calling it gives. *)
Record Provider : Type := mkProvider {
  enable : Result unit;
  getSigner : Signer;
  disconnect_method : option (Result unit)
}.

(** [window.OGStorage], with its [download] when that is a function. *)
Record StorageClient : Type := mkClient {
  client_download : option (string -> Result string)
}.

(** What [import('@0glabs/0g-ts-sdk')] resolves to: its [download] when
    that is a function, and whether [StorageClient] is a function. *)
Record SdkModule : Type := mkSdk {
  sdk_download : option (string -> Result string);
  sdk_StorageClient : bool
}.

(** A [fetch] response: [text] is what [res.text()] resolves to. *)
Record Response : Type := mkResponse {
  status : N;
  text : Result string
}.

(** [res.ok]: the status is in 200..299. *)
Definition ok (res : Response) : bool :=
  ((200 <=? status res) && (status res <=? 299))%N.

(** The browser and the network.  The clock is read by its reading number:
    the n-th reading of the session gives [toLocaleTimeString n] or
    [Date_now n]. *)
Record Env : Type := mkEnv {
  toLocaleTimeString : nat -> string;
  Date_now : nat -> N;
  window_OGStorage : option StorageClient;
  import_sdk : Result SdkModule;
  fetch : string -> Result Response;
  WalletConnectProvider : Provider;
  dom_message : WebCrypto.DomError -> string
}.

(** What the component does to the outside, in the order it does it. *)
Inductive Event : Type :=
| EnableWallet
| GetAddress
| DisconnectProvider
| SignMessage (challenge : string)
| GlobalDownload (cid : string)
| ImportSdk
| SdkDownload (cid : string)
| HttpGet (url : string)
| Digest (data : list byte)
| ImportKey (keyData : list byte)
| Decrypt (iv : list byte) (key : WebCrypto.CryptoKey) (data : list byte)
| SaveFile (download : string) (content : list byte)
| ConsoleError (err : Thrown).

(** The state of the component (its [useState] cells), the number of clock
    readings so far, and the events so far, latest last. *)
Record State : Type := mkState {
  connectedAddress : option string;
  provider : option Provider;
  signer : option Signer;
  logs : list string;
  storageGateway : string;
  clock : nat;
  trace : list Event
}.

Definition initial : State :=
  mkState None None None [] DEFAULT_STORAGE_GATEWAY 0 [].

Definition record_event (ev : Event) (s : State) : State :=
  mkState (connectedAddress s) (provider s) (signer s) (logs s)
          (storageGateway s) (clock s) (trace s ++ [ev]).

Definition emit (ev : Event) : M State unit := modify (record_event ev).

(** An awaited call to the outside: the event, then its outcome. *)
Definition call {A} (ev : Event) (r : Result A) : M State A :=
  emit ev ;; await r.

Definition clock_read (s : State) : State :=
  mkState (connectedAddress s) (provider s) (signer s) (logs s)
          (storageGateway s) (S (clock s)) (trace s).

Definition tick : M State nat := fun s => (Ok (clock s), clock_read s).

Definition with_logs (f : list string -> list string) (s : State) : State :=
  mkState (connectedAddress s) (provider s) (signer s) (f (logs s))
          (storageGateway s) (clock s) (trace s).

Definition setLogs (f : list string -> list string) : M State unit :=
  modify (with_logs f).

Definition setProvider (p : option Provider) : M State unit :=
  modify (fun s => mkState (connectedAddress s) p (signer s) (logs s)
                           (storageGateway s) (clock s) (trace s)).

Definition setSigner (g : option Signer) : M State unit :=
  modify (fun s => mkState (connectedAddress s) (provider s) g (logs s)
                           (storageGateway s) (clock s) (trace s)).

Definition setConnectedAddress (a : option string) : M State unit :=
  modify (fun s => mkState a (provider s) (signer s) (logs s)
                           (storageGateway s) (clock s) (trace s)).

Definition setStorageGateway (g : string) : M State unit :=
  modify (fun s => mkState (connectedAddress s) (provider s) (signer s) (logs s)
                           g (clock s) (trace s)).

(** The updater [addLog] hands to [setLogs], for the time stamp [stamp]:
    [l => [stamp + " — " + msg, ...l].slice(0, 200)].  The dash stands
    here as the bytes of its UTF-8 form. *)
Definition log_update (stamp msg : string) (l : list string) : list string :=
  firstn 200 ((stamp ++ " — " ++ msg)%string :: l).

Section Component.
Variable env : Env.

Definition addLog (msg : string) : M State unit :=
  n <- tick ;;
  setLogs (log_update (toLocaleTimeString env n) msg).

(** The state once [addLog msg] has run. *)
Definition logged (msg : string) (s : State) : State :=
  with_logs (log_update (toLocaleTimeString env (clock s)) msg) (clock_read s).

Definition DOMException {A} (e : WebCrypto.DomError) : M State A :=
  throw (JsError (WebCrypto.error_name e) (dom_message env e)).

Definition connectWalletConnect : M State unit :=
  try_catch
    (addLog "Opening WalletConnect..." ;;
     let wcProvider := WalletConnectProvider env in
     call EnableWallet (enable wcProvider) ;;
     let signerLocal := getSigner wcProvider in
     a <- call GetAddress (getAddress signerLocal) ;;
     let addr := toLowerCase a in
     setProvider (Some wcProvider) ;;
     setSigner (Some signerLocal) ;;
     setConnectedAddress (Some addr) ;;
     addLog ("Connected: " ++ addr))
    (fun err =>
       emit (ConsoleError err) ;;
       addLog ("Connection failed: " ++ message_of err)).

Definition disconnect : M State unit :=
  p <- gets provider ;;
  match p with
  | Some pr =>
      match disconnect_method pr with
      | Some r => try_catch (call DisconnectProvider r) (fun _ => ret tt)
      | None => ret tt
      end
  | None => ret tt
  end ;;
  setProvider None ;;
  setSigner None ;;
  setConnectedAddress None ;;
  addLog "Disconnected".

(** [window.OGStorage && typeof window.OGStorage.download === "function"] *)
Definition global_download : option (string -> Result string) :=
  match window_OGStorage env with
  | Some client => client_download client
  | None => None
  end.

(** The [try] around the dynamic import: [Some b64] is the [return b64]
    in it, [None] is falling out of it, also through its [catch]. *)
Definition try_sdk (cid : string) : M State (option string) :=
  try_catch
    (mod_ <- call ImportSdk (import_sdk env) ;;
     match sdk_download mod_ with
     | Some download =>
         b64 <- call (SdkDownload cid) (download cid) ;;
         addLog "Fetched via @0glabs/0g-ts-sdk.download" ;;
         ret (Some b64)
     | None =>
         (if sdk_StorageClient mod_
          then addLog "0g SDK loaded but no known download method found. Falling back to gateway."
          else ret tt) ;;
         ret None
     end)
    (fun _ => ret None).

(** What the attempt on the SDK leaves [fetchCidBase64] with: the payload,
    or nothing when the import fails, when the module has no [download], or
    when that download throws. *)
Definition sdk_payload (cid : string) : option string :=
  match import_sdk env with
  | Ok m =>
      match sdk_download m with
      | Some download =>
          match download cid with
          | Ok b64 => Some b64
          | Throw _ => None
          end
      | None => None
      end
  | Throw _ => None
  end.

Definition gateway_url (gateway cid : string) : string :=
  let normalized := normalizeCid cid in
  if endsWith_char gateway "/"
  then (gateway ++ normalized)%string
  else (gateway ++ "/" ++ normalized)%string.

Definition fetchCidBase64 (cid : string) : M State string :=
  addLog ("Fetching CID: " ++ cid) ;;
  try_catch
    (match global_download with
     | Some download =>
         b64 <- call (GlobalDownload cid) (download cid) ;;
         addLog "Fetched via global OGStorage" ;;
         ret b64
     | None =>
         r <- try_sdk cid ;;
         match r with
         | Some b64 => ret b64
         | None =>
             gateway <- gets storageGateway ;;
             if negb (truthy gateway)
             then throw (Error "No storage gateway configured and 0g SDK not available.")
             else
               let url := gateway_url gateway cid in
               res <- call (HttpGet url) (fetch env url) ;;
               if negb (ok res)
               then throw (Error ("Gateway fetch failed: " ++ decimal (status res)))
               else
                 t <- await (text res) ;;
                 addLog "Fetched via HTTP gateway" ;;
                 ret (trim t)
         end
     end)
    (fun err =>
       addLog ("Fetch error: " ++ message_of err) ;;
       throw err).

(** [typeof window]: the component runs in a browser. *)
Definition typeof_window : string := "object".

Definition base64ToBytes (base64 : string) : M State (list byte) :=
  if String.eqb typeof_window "undefined" then throw (Error "Browser required")
  else match Base64.atob base64 with
       | None => DOMException WebCrypto.InvalidCharacterError
       | Some binaryString => ret (list_byte_of_string binaryString)
       end.

Definition subtle {A} (ev : Event) (r : WebCrypto.DomError + A) : M State A :=
  emit ev ;;
  match r with
  | inr a => ret a
  | inl e => DOMException e
  end.

Definition deriveKeyFromSignature (signature : string) : M State WebCrypto.CryptoKey :=
  let sigBytes := TextEncoder.encode signature in
  hash <- subtle (Digest sigBytes) (inr (WebCrypto.digest_SHA256 sigBytes)) ;;
  key <- subtle (ImportKey hash)
                (WebCrypto.importKey_raw_AES_GCM hash false [WebCrypto.decrypt_usage]) ;;
  ret key.

Definition decryptBase64Payload (base64 : string) (key : WebCrypto.CryptoKey)
  : M State (list byte) :=
  bytes <- base64ToBytes base64 ;;
  if Nat.leb (List.length bytes) 12 then throw (Error "Payload too short")
  else
    let iv := firstn 12 bytes in
    let ciphertext := skipn 12 bytes in
    plain <- subtle (Decrypt iv key ciphertext)
                    (WebCrypto.decrypt_AES_GCM iv key ciphertext) ;;
    ret plain.

Definition handleDownload (token : Token) : M State unit :=
  sg <- gets signer ;;
  ca <- gets connectedAddress ;;
  match sg, ca with
  | Some signer_, Some address =>
      if negb (truthy address) then addLog "Connect wallet first"
      else if negb (String.eqb (toLowerCase address) OWNER_ADDRESS)
      then addLog "Connected address does not match owner — download not allowed"
      else if negb (truthy (storageCid token))
      then addLog "No storage CID for this token. Fill it in code or metadata."
      else
        try_catch
          (n <- tick ;;
           let challenge :=
             ("0g-download:" ++ tokenId token ++ ":" ++ decimal (Date_now env n))%string in
           addLog "Signing challenge..." ;;
           signature <- call (SignMessage challenge) (signMessage signer_ challenge) ;;
           addLog "Signature obtained. Deriving key..." ;;
           key <- deriveKeyFromSignature signature ;;
           addLog "Fetching encrypted payload (base64)..." ;;
           b64 <- fetchCidBase64 (storageCid token) ;;
           addLog "Decrypting..." ;;
           plainBytes <- decryptBase64Payload b64 key ;;
           emit (SaveFile (or_else (fileName token) "download.bin") plainBytes) ;;
           addLog ("Download complete: " ++ fileName token))
          (fun err =>
             emit (ConsoleError err) ;;
             addLog ("Download/decrypt failed: " ++ message_of err))
  | _, _ => addLog "Connect wallet first"
  end.

(** What the user can do: the two buttons of the wallet, the gateway field
    and the download button of a token. *)
Inductive Action : Type :=
| Connect
| Disconnect
| TypeGateway (value : string)
| Download (token : Token).

Definition perform (a : Action) : M State unit :=
  match a with
  | Connect => connectWalletConnect
  | Disconnect => disconnect
  | TypeGateway value => setStorageGateway value
  | Download token => handleDownload token
  end.

(** A session: the actions one after the other, each run to its end. *)
Definition session (actions : list Action) (s : State) : State :=
  fold_left (fun st a => snd (perform a st)) actions s.

End Component.

(** The bound on the log. *)
Definition log_bounded (s : State) : Prop := List.length (logs s) <= 200.

(** [keeps m]: running [m] keeps the bound on the log, however it ends. *)
Definition keeps {A} (m : M State A) : Prop :=
  forall s, log_bounded s -> log_bounded (snd (m s)).

End App.

(* ================================================================= *)
(** ** [server.js]: the IPFS proxy *)

Module Proxy.
Import Js.
Local Open Scope js_scope.

(** [process.env.PORT || 3000], as text. *)
Definition PORT (env_PORT : option string) : string := opt_or_else env_PORT "3000".

(** [process.env.IPFS_GATEWAY || "https://ipfs.io/ipfs/"] *)
Definition GATEWAY (env_IPFS_GATEWAY : option string) : string :=
  opt_or_else env_IPFS_GATEWAY "https://ipfs.io/ipfs/".

(** A node-fetch response: its status, [headers.get('content-type')]
    ([None] is [null]) and what [buffer()] resolves to. *)
Record Upstream : Type := mkUpstream {
  up_status : N;
  up_content_type : option string;
  up_buffer : Result (list byte)
}.

Inductive Body : Type :=
| Text (s : string)
| Buffer (b : list byte).

(** The calls the handler has made on the Express response [res]: the
    status it set, 200 unless set, the headers it passed to [res.set], and
    what it passed to [res.send], if anything.  What Express sends for them
    is [Express.sends]. *)
Record Reply : Type := mkReply {
  statusCode : N;
  headers : list (string * string);
  sent : option Body
}.

Definition fresh : Reply := mkReply 200 [] None.

Fixpoint set_header (k v : string) (hs : list (string * string)) : list (string * string) :=
  match hs with
  | [] => [(k, v)]
  | (k', v') :: hs' => if String.eqb k k' then (k, v) :: hs' else (k', v') :: set_header k v hs'
  end.

Fixpoint get_header (k : string) (hs : list (string * string)) : option string :=
  match hs with
  | [] => None
  | (k', v) :: hs' => if String.eqb k k' then Some v else get_header k hs'
  end.

(** [res.set(field, value)], as the handler calls it: the value is
    recorded as it was passed.  What Express keeps of a content-type (it may
    add a charset) is in [Express.sends]. *)
Definition res_set (k v : string) : M Reply unit :=
  modify (fun r => mkReply (statusCode r) (set_header k v (headers r)) (sent r)).

(** [res.status(code)] *)
Definition res_status (code : N) : M Reply unit :=
  modify (fun r => mkReply code (headers r) (sent r)).

(** [res.send(body)], as the handler calls it: the body is recorded.  What
    [res.send] does before it writes (a content-type where none is set, the
    answer 304 to a request that is fresh) is in [Express.sends]. *)
Definition res_send (b : Body) : M Reply unit :=
  modify (fun r => mkReply (statusCode r) (headers r) (Some b)).

Section Route.
(** [fetch] of node-fetch, as it settles, and the gateway the server was
    started with.  A fetch, or a reading of the body, that never settles
    leaves the handler waiting and the request without a reply: that is not
    in this model. *)
Variable fetch : string -> Result Upstream.
Variable gateway : string.

(** The handler of [GET /ipfs/:cid], on [req.params.cid]. *)
Definition ipfs_route (cid : string) : M Reply unit :=
  try_catch
    (let url := (gateway ++ cid)%string in
     r <- await (fetch url) ;;
     body <- await (up_buffer r) ;;
     res_set "content-type" (opt_or_else (up_content_type r) "application/octet-stream") ;;
     res_send (Buffer body))
    (fun err => res_status 500 ;; res_send (Text "Proxy error")).

(** The reply to a request. *)
Definition respond (cid : string) : Reply := snd (ipfs_route cid fresh).

End Route.

End Proxy.

(* ================================================================= *)
(** ** What Express sends for the handler's calls

    After [lib/response.js] of Express: [res.set] adds a charset to a
    content-type, [res.send] gives a body without content-type one, answers
    a request that is fresh with 304, strips the content-type of a 204 and
    of a 304, and writes no body for HEAD. *)

Module Express.
Import Js Proxy.

(** The request, as far as [res.send] reads it. *)
Record Request : Type := mkRequest {
  (** [req.method === 'HEAD']: a [get] route is taken for HEAD too *)
  is_HEAD : bool;
  (** whether the validators of the request ([If-None-Match], with no
      [Cache-Control: no-cache]) match the ETag that [res.send] gives these
      bytes: [req.fresh], for a status that allows it *)
  validators_match : list byte -> bool
}.

(** The reply on the wire: the status, the [Content-Type] header and the
    body; [None] where there is none. *)
Record Wire : Type := mkWire {
  status : N;
  content_type : option string;
  body : option Body
}.

Definition body_bytes (b : Body) : list byte :=
  match b with
  | Text t => TextEncoder.encode t
  | Buffer bs => bs
  end.

(** The header names of Node are taken without their case. *)
Fixpoint header_named (k : string) (hs : list (string * string)) : option string :=
  match hs with
  | [] => None
  | (k', v) :: hs' =>
      if String.eqb (toLowerCase k') (toLowerCase k) then Some v else header_named k hs'
  end.

(** [req.fresh] looks at the validators for a 2xx and a 304 only. *)
Definition may_be_fresh (code : N) : bool :=
  ((200 <=? code) && (code <? 300) || (code =? 304))%N.

Section Version.
(** What [res.set("content-type", v)] keeps of [v].  It differs between the
    versions of Express (see [Express4.kept]); the empty string stands for
    a value that is not truthy. *)
Variable kept : string -> string.

(** The end of [res.send]: the status becomes 304 when the request is
    fresh; a 204 and a 304 go out without content-type and without body; a
    HEAD request gets no body. *)
Definition finish (req : Request) (code : N) (type : string) (b : Body) : Wire :=
  let code' := if may_be_fresh code && validators_match req (body_bytes b)
               then 304%N else code in
  if ((code' =? 204) || (code' =? 304))%N
  then mkWire code' None None
  else mkWire code' (Some type) (if is_HEAD req then None else Some b).

(** What goes out for the calls [r]: [None] when nothing was sent, and for
    a text sent after a content-type was set, which the handler never
    does.  A buffer without a content-type that is truthy gets
    [res.type('bin')], a text without one [res.type('html')] and the
    charset utf-8. *)
Definition sends (req : Request) (r : Reply) : option Wire :=
  match sent r with
  | None => None
  | Some (Buffer bs) =>
      let set := match header_named "content-type" (headers r) with
                 | Some v => kept v
                 | None => ""
                 end in
      let type := if truthy set then set else kept "application/octet-stream" in
      Some (finish req (statusCode r) type (Buffer bs))
  | Some (Text t) =>
      match header_named "content-type" (headers r) with
      | None => Some (finish req (statusCode r) "text/html; charset=utf-8" (Text t))
      | Some _ => None
      end
  end.

End Version.
End Express.

(** Express 4: [res.set] adds "; charset=utf-8" to a content-type that has
    no charset parameter and that [mime.charsets.lookup] knows as text. *)
Module Express4.
Import Js.

(** The test of [/;\s*charset\s*=/] *)
Fixpoint has_charset (v : string) : bool :=
  match v with
  | EmptyString => false
  | String c v' =>
      (Ascii.eqb c ";"
       && (let t := trim_start v' in
           String.prefix "charset" t
           && String.prefix "=" (trim_start (slice_from 7 t))))
      || has_charset v'
  end.

(** [v.split(';')[0]] *)
Fixpoint before_semicolon (v : string) : string :=
  match v with
  | EmptyString => EmptyString
  | String c v' => if Ascii.eqb c ";" then EmptyString else String c (before_semicolon v')
  end.

(** [mime.charsets.lookup]: the test of
    [/^text\/|^application\/(javascript|json)/] *)
Definition is_text (type : string) : bool :=
  String.prefix "text/" type
  || String.prefix "application/javascript" type
  || String.prefix "application/json" type.

Definition kept (v : string) : string :=
  if has_charset v then v
  else if is_text (before_semicolon v) then (v ++ "; charset=utf-8")%string
       else v.

End Express4.

(* ================================================================= *)
(** ** The fetch strategies, as the specification words them *)

Module Strategies.
Import Js App.

(** These follow the specification's words, not the source, and are there to
    be compared with [App.fetchCidBase64]: "a prioritized list of fetch
    strategies implementing a single fetchByIdentifier(id) -> base64 string
    capability, tried in order until one succeeds or all fail".  A strategy
    that is not there fails. *)
Definition unavailable : Thrown := Error "strategy not available".

Definition global_client (env : Env) (cid : string) : Result string :=
  match global_download env with
  | Some download => download cid
  | None => Throw unavailable
  end.

Definition sdk (env : Env) (cid : string) : Result string :=
  match import_sdk env with
  | Ok m =>
      match sdk_download m with
      | Some download => download cid
      | None => Throw unavailable
      end
  | Throw e => Throw e
  end.

Definition gateway (env : Env) (base : string) (cid : string) : Result string :=
  if negb (truthy base) then Throw unavailable
  else match fetch env (base ++ normalizeCid cid)%string with
       | Ok res => if ok res then text res
                   else Throw (Error ("Gateway fetch failed: " ++ decimal (status res)))
       | Throw e => Throw e
       end.

Fixpoint first_success (attempts : list (Result string)) : option string :=
  match attempts with
  | [] => None
  | Ok b64 :: _ => Some b64
  | Throw _ :: rest => first_success rest
  end.

(** [Some b64] when a strategy succeeds, the first in order; [None] when all fail. *)
Definition fetchByIdentifier (env : Env) (base cid : string) : option string :=
  first_success [global_client env cid; sdk env cid; gateway env base cid].

End Strategies.

(* ================================================================= *)
(** ** Sample sessions *)

Module Sample.
Import Js App.

Definition owner_signer : Signer :=
  mkSigner (Ok "0x6F4D829488686afd8D9B68AE56986C312784C0e6")
           (fun challenge => Ok ("0xsigned:" ++ challenge)%string).

Definition stranger_signer : Signer :=
  mkSigner (Ok "0x00000000000000000000000000000000DeaDBeef")
           (fun challenge => Ok ("0xsigned:" ++ challenge)%string).

Definition wallet (g : Signer) : Provider := mkProvider (Ok tt) g (Some (Ok tt)).

Definition not_installed : Thrown :=
  JsError "TypeError" "Failed to resolve module specifier '@0glabs/0g-ts-sdk'".

(** The payload served for token #2: base64 of fifteen bytes. *)
Definition short_b64 : string := "AAECAwQFBgcICQoLDA0O".

Definition gateway_fetch (url : string) : Result Response :=
  if String.eqb url
       "https://gw.example/cid/da25a5f5ea40e210db8a662801647b655dd2d1030ab89285441c74ced13e2945"
  then Ok (mkResponse 200 (Ok (" " ++ short_b64 ++ "
")%string))
  else Ok (mkResponse 404 (Ok "not found")).

(** A browser with neither the global client nor the SDK. *)
Definition browser (g : Signer) : Env :=
  mkEnv (fun n => ("10:15:0" ++ decimal (N.of_nat n))%string)
        (fun n => 1700000000000 + N.of_nat n)%N
        None (Throw not_installed) gateway_fetch (wallet g)
        (fun _ => "").

(** A browser whose global client is offline while the SDK works. *)
Definition browser_client_offline : Env :=
  mkEnv (fun n => ("10:15:0" ++ decimal (N.of_nat n))%string)
        (fun n => 1700000000000 + N.of_nat n)%N
        (Some (mkClient (Some (fun _ => Throw (Error "storage node offline")))))
        (Ok (mkSdk (Some (fun _ => Ok short_b64)) true))
        gateway_fetch (wallet owner_signer)
        (fun _ => "").

(** A browser with the SDK as a module without [download]. *)
Definition browser_sdk_without_download : Env :=
  mkEnv (fun n => ("10:15:0" ++ decimal (N.of_nat n))%string)
        (fun n => 1700000000000 + N.of_nat n)%N
        None (Ok (mkSdk None true)) gateway_fetch (wallet owner_signer)
        (fun _ => "").

(** A browser whose SDK downloads. *)
Definition browser_sdk : Env :=
  mkEnv (fun n => ("10:15:0" ++ decimal (N.of_nat n))%string)
        (fun n => 1700000000000 + N.of_nat n)%N
        None (Ok (mkSdk (Some (fun _ => Ok short_b64)) true))
        gateway_fetch (wallet owner_signer)
        (fun _ => "").

Definition connected (g : Signer) (address gateway : string) : State :=
  mkState (Some address) (Some (wallet g)) (Some g) [] gateway 0 [].

Definition token1 : Token := nth 0 TOKENS (mkToken "" "" "" "").
Definition token2 : Token := nth 1 TOKENS (mkToken "" "" "" "").

Definition owner_session : State :=
  connected owner_signer "0x6f4d829488686afd8d9b68ae56986c312784c0e6" "https://gw.example/cid/".

Definition stranger_session : State :=
  connected stranger_signer "0x00000000000000000000000000000000deadbeef"
            "https://gw.example/cid/".

(** The owner's address is there but the signer is gone. *)
Definition signerless_session : State :=
  mkState (Some "0x6f4d829488686afd8d9b68ae56986c312784c0e6") None None []
          "https://gw.example/cid/" 0 [].

(** The owner, with no gateway typed in. *)
Definition owner_no_gateway : State :=
  connected owner_signer "0x6f4d829488686afd8d9b68ae56986c312784c0e6" "".

(** The owner, with a gateway that does not end in a slash. *)
Definition owner_bare_gateway : State :=
  connected owner_signer "0x6f4d829488686afd8d9b68ae56986c312784c0e6" "https://gw.example/cid".

Definition nonce : list byte :=
  [x00; x01; x02; x03; x04; x05; x06; x07; x08; x09; x0a; x0b].

Definition plaintext : list byte := list_byte_of_string "restore code".

Definition signature : string := "0x5f2c9a41b7".

(** Upstream replies to the proxy. *)
Definition up_png : Proxy.Upstream :=
  Proxy.mkUpstream 200 (Some "image/png") (Ok [x89; x50; x4e; x47]).

Definition up_untyped : Proxy.Upstream :=
  Proxy.mkUpstream 200 None (Ok [x89; x50; x4e; x47]).

Definition up_empty_type : Proxy.Upstream :=
  Proxy.mkUpstream 200 (Some "") (Ok [x89; x50; x4e; x47]).

Definition up_text : Proxy.Upstream :=
  Proxy.mkUpstream 200 (Some "text/plain") (Ok [x68; x69]).

(** A GET without validators, and one whose validators match whatever is
    sent. *)
Definition plain_get : Express.Request := Express.mkRequest false (fun _ => false).

Definition revalidation : Express.Request := Express.mkRequest false (fun _ => true).

Definition up_broken_body : Proxy.Upstream :=
  Proxy.mkUpstream 200 (Some "image/png") (Throw (JsError "FetchError" "Premature close")).

(** The signature the owner's wallet gives for token #2 at the first reading
    of the clock, and a gateway that serves the file encrypted for it. *)
Definition signature2 : string :=
  "0xsigned:0g-download:0x4884f459...02:1700000000000".

Definition sealed2 : string :=
  Base64.btoa
    (string_of_list_byte
       (nonce ++ GCM.encrypt (SHA256.digest (TextEncoder.encode signature2)) nonce []
                             plaintext)).

Definition browser_serving : Env :=
  mkEnv (fun n => ("10:15:0" ++ decimal (N.of_nat n))%string)
        (fun n => 1700000000000 + N.of_nat n)%N
        None (Throw not_installed)
        (fun url => Ok (mkResponse 200 (Ok sealed2)))
        (wallet owner_signer)
        (fun _ => "").

Definition unreachable : Thrown :=
  JsError "FetchError" "request to https://ipfs.io/ipfs/QmX failed, reason: ECONNREFUSED".

End Sample.

(* ================================================================= *)
(** ** [src/App.tsx]: the token cards of the page *)

Module View.
Import Js App.

(** [connectedAddress && connectedAddress.toLowerCase() === OWNER_ADDRESS] *)
Definition allowed (s : State) : bool :=
  match connectedAddress s with
  | Some address => truthy address && String.eqb (toLowerCase address) OWNER_ADDRESS
  | None => false
  end.

(** [disabled={!allowed || !t.storageCid}] of a token's button. *)
Definition button_disabled (s : State) (t : Token) : bool :=
  negb (allowed s) || negb (truthy (storageCid t)).

Definition button_label (s : State) : string :=
  if allowed s then "Download & Decrypt" else "Connect owner wallet to download".

End View.

(* ================================================================= *)
(** ** Notions for speaking of runs of the viewer *)

Module Run.
Import Js App.

(** A state with nothing in it but the gateway. *)
Definition blank (gateway : string) : State := mkState None None None [] gateway 0 [].

(** What [fetchCidBase64] gives and the events it adds, read off its run
    from a blank state. *)
Definition fetch_outcome (env : Env) (gateway cid : string) : Result string :=
  fst (fetchCidBase64 env cid (blank gateway)).

Definition fetch_events (env : Env) (gateway cid : string) : list Event :=
  trace (snd (fetchCidBase64 env cid (blank gateway))).

(** The challenge [handleDownload] builds in state [s]. *)
Definition challenge_at (env : Env) (token : Token) (s : State) : string :=
  ("0g-download:" ++ tokenId token ++ ":" ++ decimal (Date_now env (clock s)))%string.

(** How [handleDownload] ends once something was thrown: the [catch]. *)
Definition download_failed (env : Env) (err : Thrown) (s : State) : Result unit * State :=
  (Ok tt, logged env ("Download/decrypt failed: " ++ message_of err)
                 (record_event (ConsoleError err) s)).

(** [s'] comes from [s] by log lines, clock readings and events in [P]. *)
Definition grows (P : Event -> bool) (s s' : State) : Prop :=
  connectedAddress s' = connectedAddress s /\ provider s' = provider s
  /\ signer s' = signer s /\ storageGateway s' = storageGateway s
  /\ exists evs, trace s' = trace s ++ evs /\ forallb P evs = true.

(** [m] only logs, reads the clock and adds events in [P]. *)
Definition only {A} (P : Event -> bool) (m : M State A) : Prop :=
  forall s, grows P s (snd (m s)).

(** How [fetchCidBase64] ends once something was thrown: its [catch]. *)
Definition fetch_failed (env : Env) (err : Thrown) (s : State) : Result string * State :=
  (Throw err, logged env ("Fetch error: " ++ message_of err) s).

(** The gateway part of [fetchCidBase64], from the state [s2] it is reached in. *)
Definition via_gateway (env : Env) (cid : string) (s2 : State) : Result string * State :=
  if negb (truthy (storageGateway s2))
  then fetch_failed env (Error "No storage gateway configured and 0g SDK not available.") s2
  else
    let url := gateway_url (storageGateway s2) cid in
    match fetch env url with
    | Throw e => fetch_failed env e (record_event (HttpGet url) s2)
    | Ok res =>
        if negb (ok res)
        then fetch_failed env (Error ("Gateway fetch failed: " ++ decimal (status res)))
                          (record_event (HttpGet url) s2)
        else match text res with
             | Throw e => fetch_failed env e (record_event (HttpGet url) s2)
             | Ok t => (Ok (trim t),
                        logged env "Fetched via HTTP gateway" (record_event (HttpGet url) s2))
             end
    end.

(** The state in which [handleDownload] starts to fetch. *)
Definition at_fetch (env : Env) (token : Token) (signature : string) (s : State) : State :=
  logged env "Fetching encrypted payload (base64)..."
    (record_event (ImportKey (SHA256.digest (TextEncoder.encode signature)))
       (record_event (Digest (TextEncoder.encode signature))
          (logged env "Signature obtained. Deriving key..."
             (record_event (SignMessage (challenge_at env token s))
                (logged env "Signing challenge..." (clock_read s)))))).

(** The guards of [handleDownload], all three. *)
Definition guards_pass (token : Token) (s : State) : bool :=
  match signer s, connectedAddress s with
  | Some _, Some address =>
      truthy address && String.eqb (toLowerCase address) OWNER_ADDRESS
      && truthy (storageCid token)
  | _, _ => false
  end.

(** How [connectWalletConnect] ends once something was thrown: its [catch]. *)
Definition connect_failed (env : Env) (err : Thrown) (s : State) : Result unit * State :=
  (Ok tt, logged env ("Connection failed: " ++ message_of err)
                 (record_event (ConsoleError err) s)).

(** The state with a wallet connected. *)
Definition with_wallet (address : string) (p : Provider) (g : Signer) (s : State) : State :=
  mkState (Some address) (Some p) (Some g) (logs s) (storageGateway s) (clock s) (trace s).

(** The state with nothing connected. *)
Definition without_wallet (s : State) : State :=
  mkState None None None (logs s) (storageGateway s) (clock s) (trace s).

(** Events that are decryptions. *)
Definition decrypt_event (ev : Event) : bool :=
  match ev with
  | Decrypt _ _ _ => true
  | _ => false
  end.

(** [m] does the same from any two states with the same gateway: the same
    outcome and the same events. *)
Definition uniform {A} (m : M State A) : Prop :=
  forall s1 s2, storageGateway s1 = storageGateway s2 ->
    exists evs,
      fst (m s1) = fst (m s2)
      /\ trace (snd (m s1)) = trace s1 ++ evs
      /\ trace (snd (m s2)) = trace s2 ++ evs
      /\ storageGateway (snd (m s1)) = storageGateway (snd (m s2)).

(** [m] never throws. *)
Definition total {A} (m : M State A) : Prop :=
  forall s, exists a, fst (m s) = Ok a.

(** The events of the wallet and of the console: nothing is signed, fetched,
    hashed, decrypted or saved by them. *)
Definition wallet_event (ev : Event) : bool :=
  match ev with
  | EnableWallet | GetAddress | DisconnectProvider | ConsoleError _ => true
  | _ => false
  end.

(** The events [fetchCidBase64] can add. *)
Definition fetch_event (ev : Event) : bool :=
  match ev with
  | GlobalDownload _ | ImportSdk | SdkDownload _ | HttpGet _ => true
  | _ => false
  end.

(** Nothing is connected, or the wallet of the environment is, under the
    lower-cased address of its signer. *)
Definition connection_ok (env : Env) (s : State) : Prop :=
  (connectedAddress s = None /\ signer s = None /\ provider s = None)
  \/ (exists a, getAddress (getSigner (WalletConnectProvider env)) = Ok a
                /\ connectedAddress s = Some (toLowerCase a)
                /\ signer s = Some (getSigner (WalletConnectProvider env))
                /\ provider s = Some (WalletConnectProvider env)).

(** The newest line of the log, without its time stamp: [Some msg] when the
    first line is a stamp of the environment followed by the dash and [msg]. *)
Definition newest_is (env : Env) (msg : string) (s : State) : Prop :=
  exists n, hd_error (logs s) = Some (toLocaleTimeString env n ++ " — " ++ msg)%string.

End Run.

(* ================================================================= *)
(** ** The gallery script: ERC-721 tokens of an owner, as cards *)

Module Gallery.
Import Js.
Local Open Scope js_scope.
#[local] Set Implicit Arguments.

(** [s.replace(pattern, replacement)] for a pattern that is a string and a
    replacement without "$": the first occurrence is replaced. *)
Fixpoint replace_first (pattern replacement s : string) {struct s} : string :=
  if String.prefix pattern s
  then (replacement ++ slice_from (String.length pattern) s)%string
  else match s with
       | EmptyString => EmptyString
       | String c s' => String c (replace_first pattern replacement s')
       end.

Definition ipfsGateway (url : string) : string :=
  if negb (truthy url) then url
  else if startsWith url "ipfs://"
       then replace_first "ipfs://" "https://ipfs.io/ipfs/" url
       else url.

(** [err.message], as it goes into a string: the message of an error
    object; [undefined] of any other value that has properties; and of
    [null] and [undefined] the read itself throws a [TypeError], whose
    message is the engine's (here V8's). *)
Definition message_prop (err : Thrown) : Result string :=
  match err with
  | JsError _ m => Ok m
  | JsValue _ => Ok "undefined"
  | JsNull => Throw (JsError "TypeError" "Cannot read properties of null (reading 'message')")
  | JsUndefined =>
      Throw (JsError "TypeError" "Cannot read properties of undefined (reading 'message')")
  end.

(** The double nearest to [x], ties to even: what [Number(x.toString())]
    makes of a [uint256]. *)
Definition to_double (x : N) : N :=
  if (x <? 2 ^ 53)%N then x
  else
    let sh := (N.log2 x - 52)%N in
    let q := N.shiftr x sh in
    let r := (x - N.shiftl q sh)%N in
    let half := N.shiftl 1 (sh - 1) in
    let q' := if (half <? r)%N || ((r =? half)%N && N.odd q) then (q + 1)%N else q in
    N.shiftl q' sh.

(** Among the decimals of [k] digits followed by zeros, the one nearest to
    [d] that still reads back as [d], if there is one. *)
Definition digits_for (d : N) (k : nat) : option N :=
  let nd := String.length (decimal d) in
  let p := (10 ^ N.of_nat (nd - k))%N in
  let lo := (d / p * p)%N in
  let hi := (lo + p)%N in
  let lo_ok := (to_double lo =? d)%N in
  let hi_ok := (to_double hi =? d)%N in
  if lo_ok && hi_ok
  then if (d - lo <? hi - d)%N then Some lo
       else if (hi - d <? d - lo)%N then Some hi
       else if N.even (d / p) then Some lo else Some hi
  else if lo_ok then Some lo
  else if hi_ok then Some hi
  else None.

Fixpoint shortest_from (d : N) (k fuel : nat) : N :=
  match fuel with
  | O => d
  | S fuel' =>
      match digits_for d k with
      | Some v => v
      | None => shortest_from d (S k) fuel'
      end
  end.

Fixpoint strip_zeros (s : string) : string :=
  match s with
  | EmptyString => EmptyString
  | String c s' =>
      match strip_zeros s' with
      | EmptyString => if Ascii.eqb c "0" then EmptyString else String c EmptyString
      | t => String c t
      end
  end.

(** A number in a template literal, [Number.prototype.toString]: for an
    integer, the fewest digits that read back as the same double, followed
    by zeros; from 10^21 on in exponent notation.  Below 2^53 these are the
    digits of the integer. *)
Definition Number_text (x : N) : string :=
  let d := to_double x in
  let v := shortest_from d 1 17 in
  let t := decimal v in
  if Nat.leb (String.length t) 21 then t
  else
    let exponent := decimal (N.of_nat (String.length t - 1)) in
    match strip_zeros t with
    | String c EmptyString => (String c EmptyString ++ "e+" ++ exponent)%string
    | String c rest => (String c EmptyString ++ "." ++ rest ++ "e+" ++ exponent)%string
    | EmptyString => t
    end.

(** An ethers signer. *)
Record Signer : Type := mkSigner {
  getAddress : Result string
}.

(** [window.ethereum]: what [request({ method: "eth_requestAccounts" })]
    gives, and what [getSigner()] of the BrowserProvider around it gives. *)
Record Ethereum : Type := mkEthereum {
  request_accounts : Result unit;
  getSigner : Result Signer
}.

Inductive Provider : Type :=
| BrowserProvider
| JsonRpcProvider (url : string).

(** An ethers contract with the ERC-721 fragments: what its calls give.
    Numbers come as [Number(x.toString())] makes them (see [to_double]),
    token identifiers as [toString()] does. *)
Record Contract : Type := mkContract {
  balanceOf : string -> Result N;
  tokenOfOwnerByIndex : string -> nat -> Result string;
  tokenURI : string -> Result string;
  totalSupply : Result N;
  tokenByIndex : nat -> Result string;
  has_tokenOfOwnerByIndex : bool
}.

(** What the script does to the outside, in the order it does it. *)
Inductive Event : Type :=
| RequestAccounts
| GetSigner
| GetAddress
| NewContract (p : Provider) (address : string)
| BalanceOf (owner : string)
| TokenOfOwnerByIndex (owner : string) (index : nat)
| TokenURI (tokenId : string)
| TotalSupply
| TokenByIndex (index : nat)
| Fetch (url : string)
| Alert (msg : string)
| ConsoleError (err : Thrown)
| ConsoleWarn (about : string) (err : Thrown).

Section Page.
(** A parsed JSON value, and a card of the page.  What is made of the
    metadata (lines 134 to 138 with [createCard]: property reads on untyped
    JSON and HTML put together from them) is a function of the environment,
    [make_card], which may throw. *)
Variables J Card : Type.

(** A [fetch] response: [json] is what [r.json()] resolves to, [None] being
    the JSON [null]. *)
Record Response : Type := mkResponse {
  status : N;
  json : Result (option J)
}.

Definition ok (r : Response) : bool := ((200 <=? status r) && (status r <=? 299))%N.

Record Env : Type := mkEnv {
  toLocaleTimeString : nat -> string;
  ethereum : option Ethereum;
  new_Contract : Provider -> string -> Result Contract;
  fetch : string -> Result Response;
  make_card : string -> option J -> Result Card
}.

(** The page: the two globals of the script ([provider], which is the
    provider the contract is made with, and [signer]), the three input
    fields, the cards shown, the text of the log, the number of clock
    readings, and the events so far. *)
Record State : Type := mkState {
  provider : option Provider;
  signer : option Signer;
  rpcUrl : string;
  contractAddress : string;
  ownerAddress : string;
  nfts : list Card;
  log_text : string;
  clock : nat;
  trace : list Event
}.

Definition record_event (ev : Event) (s : State) : State :=
  mkState (provider s) (signer s) (rpcUrl s) (contractAddress s) (ownerAddress s)
          (nfts s) (log_text s) (clock s) (trace s ++ [ev]).

Definition emit (ev : Event) : M State unit := modify (record_event ev).

Definition call {A} (ev : Event) (r : Result A) : M State A := emit ev ;; await r.

Definition set_provider (p : Provider) : M State unit :=
  modify (fun s => mkState (Some p) (signer s) (rpcUrl s) (contractAddress s)
                           (ownerAddress s) (nfts s) (log_text s) (clock s) (trace s)).

Definition set_signer (g : Signer) : M State unit :=
  modify (fun s => mkState (provider s) (Some g) (rpcUrl s) (contractAddress s)
                           (ownerAddress s) (nfts s) (log_text s) (clock s) (trace s)).

Definition set_ownerAddress (a : string) : M State unit :=
  modify (fun s => mkState (provider s) (signer s) (rpcUrl s) (contractAddress s)
                           a (nfts s) (log_text s) (clock s) (trace s)).

(** [$("nfts").innerHTML = ""] *)
Definition clear_cards : M State unit :=
  modify (fun s => mkState (provider s) (signer s) (rpcUrl s) (contractAddress s)
                           (ownerAddress s) [] (log_text s) (clock s) (trace s)).

(** [$("nfts").appendChild(card)] *)
Definition append_card (c : Card) : M State unit :=
  modify (fun s => mkState (provider s) (signer s) (rpcUrl s) (contractAddress s)
                           (ownerAddress s) (nfts s ++ [c]) (log_text s) (clock s)
                           (trace s)).

Definition newline : string := String (ascii_of_N 10) EmptyString.

Section Script.
Variable env : Env.

(** [log(msg)]: the line goes before the text there is.  The dash of the
    source stands here as the bytes of its UTF-8 form. *)
Definition log (msg : string) : M State unit :=
  modify (fun s =>
    mkState (provider s) (signer s) (rpcUrl s) (contractAddress s) (ownerAddress s)
            (nfts s)
            (toLocaleTimeString env (clock s) ++ " — " ++ msg ++ newline ++ log_text s)%string
            (S (clock s)) (trace s)).

Definition getProviderFromInputs : M State Provider :=
  rpcInput <- gets (fun s => trim (rpcUrl s)) ;;
  match ethereum env with
  | Some eth =>
      set_provider BrowserProvider ;;
      g <- call GetSigner (getSigner eth) ;;
      set_signer g ;;
      log "Using injected wallet provider (MetaMask or similar)." ;;
      ret BrowserProvider
  | None =>
      if truthy rpcInput
      then
        set_provider (JsonRpcProvider rpcInput) ;;
        log ("Using RPC provider: " ++ rpcInput) ;;
        ret (JsonRpcProvider rpcInput)
      else throw (Error "No provider: install a wallet or set an RPC URL.")
  end.

Definition connectWallet : M State unit :=
  match ethereum env with
  | None =>
      emit (Alert "No injected wallet found (MetaMask). Provide an RPC URL for read-only mode or install a wallet.")
  | Some eth =>
      try_catch
        (call RequestAccounts (request_accounts eth) ;;
         getProviderFromInputs ;;
         g <- gets signer ;;
         match g with
         | Some sg =>
             addr <- call GetAddress (getAddress sg) ;;
             set_ownerAddress addr ;;
             log ("Connected wallet: " ++ addr)
         | None =>
             (* [signer] is still [undefined]: reading [getAddress] of it throws *)
             throw (JsError "TypeError" "Cannot read properties of undefined (reading 'getAddress')")
         end)
        (fun err =>
           emit (ConsoleError err) ;;
           msg <- await (message_prop err) ;;
           emit (Alert ("Wallet connection failed: " ++ msg)))
  end.

Definition fetchMetadata (uri : string) : M State (option J) :=
  try_catch
    (let url := ipfsGateway uri in
     r <- call (Fetch url) (fetch env url) ;;
     if negb (ok r) then throw (Error ("Status " ++ decimal (status r)))
     else await (json r))
    (fun err =>
       emit (ConsoleWarn uri err) ;;
       ret None).

(** The rest of a turn of either loop, from the token identifier on. *)
Definition show_token (c : Contract) (tokenId : string) (on_uri_error : Thrown -> M State unit)
  : M State unit :=
  tokenURI_ <- try_catch (call (TokenURI tokenId) (tokenURI c tokenId))
                         (fun err => on_uri_error err ;; ret "") ;;
  meta <- fetchMetadata tokenURI_ ;;
  card <- await (make_card env tokenId meta) ;;
  append_card card.

(** The loop of [loadOwnerNFTs], from index [i], with [count] turns left.
    The counter of the source is a Number: it counts as this one does up to
    2^53, which no listing reaches. *)
Fixpoint owner_loop (c : Contract) (owner : string) (count i : nat) : M State unit :=
  match count with
  | O => ret tt
  | S count' =>
      t <- try_catch
             (x <- call (TokenOfOwnerByIndex owner i) (tokenOfOwnerByIndex c owner i) ;;
              ret (Some x))
             (fun err =>
                emit (ConsoleError err) ;;
                log "tokenOfOwnerByIndex failed; collection probably not enumerable. Stop." ;;
                ret None) ;;
      match t with
      | None => ret tt
      | Some tokenId =>
          log ("Found token id: " ++ tokenId) ;;
          show_token c tokenId (fun err => emit (ConsoleWarn tokenId err)) ;;
          owner_loop c owner count' (S i)
      end
  end.

Definition loadOwnerNFTs : M State unit :=
  try_catch
    (clear_cards ;;
     p <- getProviderFromInputs ;;
     contractAddress_ <- gets (fun s => trim (contractAddress s)) ;;
     owner <- gets (fun s => trim (ownerAddress s)) ;;
     if negb (truthy contractAddress_) || negb (truthy owner)
     then emit (Alert "Provide contract and owner addresses.")
     else
       c <- call (NewContract p contractAddress_) (new_Contract env p contractAddress_) ;;
       balance <- call (BalanceOf owner) (balanceOf c owner) ;;
       log ("Owner " ++ owner ++ " has " ++ Number_text balance
                     ++ " token(s) (reported by contract).") ;;
       (if has_tokenOfOwnerByIndex c then ret tt
        else log "Contract might not implement tokenOfOwnerByIndex; listing may fail for large collections.") ;;
       owner_loop c owner (N.to_nat balance) 0)
    (fun err =>
       emit (ConsoleError err) ;;
       msg <- await (message_prop err) ;;
       emit (Alert ("Error: " ++ msg))).

(** The loop of [listAllTokens]. *)
Fixpoint all_loop (c : Contract) (count i : nat) : M State unit :=
  match count with
  | O => ret tt
  | S count' =>
      tokenId <- call (TokenByIndex i) (tokenByIndex c i) ;;
      show_token c tokenId (fun _ => ret tt) ;;
      all_loop c count' (S i)
  end.

Definition listAllTokens : M State unit :=
  try_catch
    (clear_cards ;;
     p <- getProviderFromInputs ;;
     contractAddress_ <- gets (fun s => trim (contractAddress s)) ;;
     if negb (truthy contractAddress_)
     then emit (Alert "Provide contract address.")
     else
       c <- call (NewContract p contractAddress_) (new_Contract env p contractAddress_) ;;
       total <- call TotalSupply (totalSupply c) ;;
       log ("Total supply: " ++ Number_text total) ;;
       all_loop c (N.to_nat total) 0)
    (fun err =>
       emit (ConsoleError err) ;;
       msg <- await (message_prop err) ;;
       emit (Alert ("Error: " ++ msg))).

End Script.
End Page.

End Gallery.

(** ** What the gallery shows

    The vocabulary of the statements about the gallery script. *)

Module Listing.
Import Js Gallery.
#[local] Set Implicit Arguments.

Definition is_alert (ev : Event) : bool :=
  match ev with
  | Alert _ => true
  | _ => false
  end.

(** Events that reach the chain: a contract made or called. *)
Definition is_chain (ev : Event) : bool :=
  match ev with
  | NewContract _ _ | BalanceOf _ | TokenOfOwnerByIndex _ _ | TokenURI _
  | TotalSupply | TokenByIndex _ => true
  | _ => false
  end.

(** [null] and [undefined]: what [message_prop] cannot be read of. *)
Definition nullish (err : Thrown) : bool :=
  match err with
  | JsNull | JsUndefined => true
  | _ => false
  end.

(** No [alert] among the events. *)
Definition quiet (evs : list Event) : Prop := forallb (fun ev => negb (is_alert ev)) evs = true.

Section Shown.
Variables J Card : Type.
Variable env : Env J Card.

(** The URI a turn of either loop goes on with (lines 128 to 133 and 160 to
    161): the empty string when [tokenURI] fails. *)
Definition uri_of (c : Contract) (tokenId : string) : string :=
  match tokenURI c tokenId with
  | Ok u => u
  | Throw _ => ""
  end.

(** The metadata a turn goes on with: [null] unless the gateway URL of the
    URI is answered with a 2xx status and a body that parses. *)
Definition metadata (uri : string) : option J :=
  match fetch env (ipfsGateway uri) with
  | Ok r => if ok r then match json r with
                         | Ok m => m
                         | Throw _ => None
                         end
            else None
  | Throw _ => None
  end.

(** The card of a token, or what making it throws. *)
Definition card_of (c : Contract) (tokenId : string) : Result Card :=
  make_card env tokenId (metadata (uri_of c tokenId)).

(** From [s] to [s']: [cards] were added after the cards there were, [evs]
    happened, and the globals and the input fields are as they were. *)
Definition shows (s s' : State Card) (cards : list Card) (evs : list Event) : Prop :=
  provider s' = provider s
  /\ signer s' = signer s
  /\ rpcUrl s' = rpcUrl s
  /\ contractAddress s' = contractAddress s
  /\ ownerAddress s' = ownerAddress s
  /\ nfts s' = nfts s ++ cards
  /\ trace s' = trace s ++ evs.

(** The newest line of the log is [msg]: the text starts with the stamp of
    the last reading of the clock, the dash, [msg] and the end of the
    line. *)
Definition newest_line (s : State Card) (msg : string) : Prop :=
  exists (n : nat) (rest : string),
    clock s = S n
    /\ log_text s = (toLocaleTimeString env n ++ " — " ++ msg ++ newline ++ rest)%string.

(** The events since [s]. *)
Definition since (s s' : State Card) : list Event :=
  skipn (List.length (trace s)) (trace s').

(** How the [catch] of a handler ends for what was thrown: with the console
    error and the alert, or, when the message cannot be read, with the
    console error and the [TypeError] of the read, thrown on. *)
Definition caught (prefix : string) (err : Thrown) : Result unit * list Event :=
  match message_prop err with
  | Ok m => (Ok tt, [ConsoleError err; Alert (prefix ++ m)])
  | Throw t => (Throw t, [ConsoleError err])
  end.

(** A run of a handler from [s] lets an exception out in one way only:
    [null] or [undefined] was thrown in its [try], the [catch] wrote it to
    the console and failed to read its message, and the [TypeError] of that
    read is what gets out, with no alert shown. *)
Definition throws_only_on_nullish (s : State Card) (run : Result unit * State Card) : Prop :=
  fst run = Ok tt
  \/ exists (err t : Thrown) (evs : list Event),
       nullish err = true
       /\ message_prop err = Throw t
       /\ fst run = Throw t
       /\ trace (snd run) = trace s ++ evs ++ [ConsoleError err]
       /\ quiet evs.

End Shown.
End Listing.

(** A collection of three tokens behind an RPC endpoint, and one whose
    enumeration breaks at the second token. *)
Module Collection.
Import Js Gallery.

Definition token_at (k : nat) : Result string :=
  if Nat.ltb k 3 then Ok (decimal (N.of_nat (k + 1)))
  else Throw (Error "execution reverted").

Definition enumerable : Contract :=
  mkContract (fun _ => Ok 3%N) (fun _ k => token_at k)
             (fun tokenId => Ok ("ipfs://meta/" ++ tokenId)%string)
             (Ok 3%N) token_at true.

Definition breaks_at_1 : Contract :=
  mkContract (fun _ => Ok 3%N)
             (fun _ k => if Nat.eqb k 1 then Throw (Error "execution reverted") else token_at k)
             (fun tokenId => Throw (Error "execution reverted"))
             (Ok 3%N)
             (fun k => if Nat.eqb k 1 then Throw (Error "execution reverted") else token_at k)
             true.

(** Metadata is kept as the URL it came from, a card as the token
    identifier with its metadata. *)
Definition read_only (c : Contract) : Env string (string * option string) :=
  mkEnv (fun n => ("10:15:0" ++ decimal (N.of_nat n))%string)
        None
        (fun _ _ => Ok c)
        (fun url => Ok (mkResponse 200 (Ok (Some url))))
        (fun tokenId meta => Ok (tokenId, meta)).

Definition metamask : Ethereum :=
  mkEthereum (Ok tt) (Ok (mkSigner (Ok "0x6F4D829488686afd8D9B68AE56986C312784C0e6"))).

Definition with_wallet (c : Contract) : Env string (string * option string) :=
  mkEnv (fun n => ("10:15:0" ++ decimal (N.of_nat n))%string)
        (Some metamask)
        (fun _ _ => Ok c)
        (fun url => Ok (mkResponse 200 (Ok (Some url))))
        (fun tokenId meta => Ok (tokenId, meta)).

(** A wallet whose [getSigner] rejects with [null]. *)
Definition rejecting_null : Ethereum := mkEthereum (Ok tt) (Throw JsNull).

Definition with_rejecting_wallet (c : Contract) : Env string (string * option string) :=
  mkEnv (fun n => ("10:15:0" ++ decimal (N.of_nat n))%string)
        (Some rejecting_null)
        (fun _ _ => Ok c)
        (fun url => Ok (mkResponse 200 (Ok (Some url))))
        (fun tokenId meta => Ok (tokenId, meta)).

(** The page with its fields filled in and a card left from before. *)
Definition page : State (string * option string) :=
  mkState None None " https://rpc.example " "0xC0FFEE" " 0xA11CE " [("9", None)] "" 0 [].


End Collection.

(* ================================================================= *)
(** * Properties *)

(** ** The models run: standard test vectors and a whole download *)

Example atob_forgiving :
  Base64.atob " aGVs bG8= " = Some "hello" /\ Base64.atob "aGVsbG8" = Some "hello"
  /\ Base64.atob "aGVsb" = None /\ Base64.atob "aGV$bG8=" = None
  /\ Base64.btoa "hello" = "aGVsbG8=".
Proof. repeat split. Qed.

Example TextEncoder_two_bytes :
  TextEncoder.encode (String (ascii_of_N 233) "x") = [xc3; xa9; x78].
Proof. reflexivity. Qed.

Example SHA256_abc :
  Bytes.hex (SHA256.digest (TextEncoder.encode "abc"))
  = "ba7816bf8f01cfea414140de5dae2223b00361a396177a9cb410ff61f20015ad".
Proof. vm_compute. reflexivity. Qed.

Example SHA256_two_blocks :
  Bytes.hex (SHA256.digest (TextEncoder.encode
     "abcdbcdecdefdefgefghfghighijhijkijkljklmklmnlmnomnopnopq"))
  = "248d6a61d20638b8e5c026930c3e6039a33ce45964ff2167f6ecedd419db06c1".
Proof. vm_compute. reflexivity. Qed.

Example AES_FIPS197 :
  Bytes.hex (Bytes.of_N_be 16
     (AES.encrypt_block (Bytes.unhex "000102030405060708090a0b0c0d0e0f")
                        (Bytes.to_N_be (Bytes.unhex "00112233445566778899aabbccddeeff"))))
  = "69c4e0d86a7b0430d8cdb78070b4c55a"
  /\ Bytes.hex (Bytes.of_N_be 16
       (AES.encrypt_block
          (Bytes.unhex "000102030405060708090a0b0c0d0e0f101112131415161718191a1b1c1d1e1f")
          (Bytes.to_N_be (Bytes.unhex "00112233445566778899aabbccddeeff"))))
     = "8ea2b7ca516745bfeafc49904b496089".
Proof. vm_compute. split; reflexivity. Qed.

Example GCM_256_bit_key :
  Bytes.hex (GCM.encrypt (repeat x00 32) (repeat x00 12) [] (repeat x00 16))
  = "cea7403d4d606b6e074ec5d3baf39d18d0d1c8a799996bf0265b98b5d48ab919"
  /\ GCM.decrypt (repeat x00 32) (repeat x00 12) []
       (Bytes.unhex "cea7403d4d606b6e074ec5d3baf39d18d0d1c8a799996bf0265b98b5d48ab919")
     = Some (repeat x00 16)
  /\ GCM.decrypt (repeat x00 32) (repeat x00 12) []
       (Bytes.unhex "cea7403d4d606b6e074ec5d3baf39d18d0d1c8a799996bf0265b98b5d48ab918")
     = None.
Proof. vm_compute. repeat split. Qed.

Example GCM_other_lengths :
  Bytes.hex (GCM.encrypt
     (Bytes.unhex "feffe9928665731c6d6a8f9467308308feffe9928665731c6d6a8f9467308308")
     (Bytes.unhex "cafebabefacedbad") [] (list_byte_of_string "restore code"))
  = "68226ca05d8e1ef76871ac9b50a831557b18f68a40067cbb9c2260ff"
  /\ Bytes.hex (GCM.encrypt (Bytes.unhex "000102030405060708090a0b0c0d0e0f")
                            (Bytes.unhex "000102030405060708090a0b") []
                            (Bytes.unhex "000102030405060708090a0b0c0d0e0f10"))
     = "936da5cd621ef15343db6b813aae7e07a306ea0a99f117cbe2ced432b138c45de3".
Proof. vm_compute. split; reflexivity. Qed.

Example GCM_under_a_derived_key :
  Bytes.hex (GCM.encrypt (SHA256.digest (TextEncoder.encode Sample.signature))
                         Sample.nonce [] Sample.plaintext)
  = "a26e59d6106e5cf65530512acc671c718a26727ecc0361a7dbf3a793".
Proof. vm_compute. reflexivity. Qed.

Example OWNER_ADDRESS_lower :
  App.OWNER_ADDRESS = "0x6f4d829488686afd8d9b68ae56986c312784c0e6".
Proof. reflexivity. Qed.

(** The owner downloads token #2: one signature, the key, one request, one
    decryption, and the file saved under its name. *)
Example owner_downloads_token2 :
  App.trace (snd (App.handleDownload Sample.browser_serving Sample.token2
                                     Sample.owner_session))
  = [App.SignMessage "0g-download:0x4884f459...02:1700000000000";
     App.Digest (TextEncoder.encode Sample.signature2);
     App.ImportKey (SHA256.digest (TextEncoder.encode Sample.signature2));
     App.ImportSdk;
     App.HttpGet "https://gw.example/cid/da25a5f5ea40e210db8a662801647b655dd2d1030ab89285441c74ced13e2945";
     App.Decrypt Sample.nonce
       (WebCrypto.mkKey "AES-GCM" false [WebCrypto.decrypt_usage]
                        (SHA256.digest (TextEncoder.encode Sample.signature2)))
       (GCM.encrypt (SHA256.digest (TextEncoder.encode Sample.signature2)) Sample.nonce []
                    Sample.plaintext);
     App.SaveFile "restoreCode.bat" (list_byte_of_string "restore code")].
Proof. vm_compute. reflexivity. Qed.

(** Linear arithmetic with division and remainder by constants. *)
Ltac divlia := zify; Z.to_euclidean_division_equations; lia.

(** ** Base64: decoding undoes encoding *)

Section Base64_facts.
Import Base64.

Lemma get_in (s : string) :
  forall n c, String.get n s = Some c -> In c (list_ascii_of_string s).
Proof.
  induction s as [|a s IH]; intros [|n] c H; simpl in *; try discriminate.
  - left; congruence.
  - right; eauto.
Qed.

(** On the wire, with Express 4: a charset is added to text/plain, a fresh
    request gets a 304 without content-type, an image type goes out as it
    came, and the error reply is HTML. *)
Example wire_text_plain :
  Express.sends Express4.kept Sample.plain_get
    (Proxy.respond (fun _ => Js.Ok Sample.up_text) "https://ipfs.io/ipfs/" "QmX")
  = Some (Express.mkWire 200 (Some "text/plain; charset=utf-8")
                         (Some (Proxy.Buffer [x68; x69]))).
Proof. reflexivity. Qed.

Example wire_not_modified :
  Express.sends Express4.kept Sample.revalidation
    (Proxy.respond (fun _ => Js.Ok Sample.up_text) "https://ipfs.io/ipfs/" "QmX")
  = Some (Express.mkWire 304 None None).
Proof. reflexivity. Qed.

Example wire_image :
  Express.sends Express4.kept Sample.plain_get
    (Proxy.respond (fun _ => Js.Ok Sample.up_png) "https://ipfs.io/ipfs/" "QmX")
  = Some (Express.mkWire 200 (Some "image/png")
                         (Some (Proxy.Buffer [x89; x50; x4e; x47]))).
Proof. reflexivity. Qed.

Example wire_proxy_error :
  Express.sends Express4.kept Sample.revalidation
    (Proxy.respond (fun _ => Js.Throw Sample.unreachable) "https://ipfs.io/ipfs/" "QmX")
  = Some (Express.mkWire 500 (Some "text/html; charset=utf-8")
                         (Some (Proxy.Text "Proxy error"))).
Proof. reflexivity. Qed.

Example Express4_kept :
  map Express4.kept
      ["text/html; charset=ISO-8859-1"; "application/json"; "text/css;charset = x";
       "application/octet-stream"; "TEXT/plain"]
  = ["text/html; charset=ISO-8859-1"; "application/json; charset=utf-8";
     "text/css;charset = x"; "application/octet-stream"; "TEXT/plain"].
Proof. reflexivity. Qed.

Lemma sextet_char_cases (n : N) :
  In (sextet_char n) (pad :: list_ascii_of_string alphabet).
Proof.
  unfold sextet_char.
  destruct (String.get (N.to_nat n) alphabet) eqn:E.
  - right. eapply get_in; eauto.
  - left; reflexivity.
Qed.

(** The gallery: numbers as a template literal prints them, and a click
    whose [catch] cannot read the message of a thrown [null]. *)
Example Number_text_values :
  map Gallery.Number_text
      [0; 42; 9007199254740993; 1152921504606846976; 1000000000000000000000;
       1180591620717411303424]%N
  = ["0"; "42"; "9007199254740992"; "1152921504606847000"; "1e+21";
     "1.1805916207174113e+21"].
Proof. vm_compute. reflexivity. Qed.

Example click_with_null_thrown :
  Gallery.listAllTokens (Collection.with_rejecting_wallet Collection.enumerable)
                        Collection.page
  = (Js.Throw (Js.JsError "TypeError" "Cannot read properties of null (reading 'message')"),
     Gallery.mkState (Some Gallery.BrowserProvider) None " https://rpc.example " "0xC0FFEE"
                     " 0xA11CE " [] "" 0
                     [Gallery.GetSigner; Gallery.ConsoleError Js.JsNull]).
Proof. reflexivity. Qed.

Lemma sextet_char_not_space (n : N) : is_ascii_whitespace (sextet_char n) = false.
Proof.
  assert (H : forallb (fun c => negb (is_ascii_whitespace c))
                      (pad :: list_ascii_of_string alphabet) = true) by reflexivity.
  rewrite forallb_forall in H.
  apply negb_true_iff, H, sextet_char_cases.
Qed.

Lemma range_lt (n : N) (k : nat) :
  (n < N.of_nat k)%N -> In n (map N.of_nat (seq 0 k)).
Proof.
  intros H. apply in_map_iff. exists (N.to_nat n). split.
  - apply N2Nat.id.
  - apply in_seq. lia.
Qed.

Lemma char_sextet_char (n : N) : (n < 64)%N -> char_sextet (sextet_char n) = Some n.
Proof.
  intros H.
  assert (A : forallb (fun k => match char_sextet (sextet_char k) with
                                | Some m => N.eqb m k
                                | None => false
                                end) (map N.of_nat (seq 0 64)) = true) by reflexivity.
  rewrite forallb_forall in A.
  specialize (A n (range_lt n 64 H)).
  destruct (char_sextet (sextet_char n)); try discriminate.
  apply N.eqb_eq in A. congruence.
Qed.

Lemma list_ind3 {A} (P : list A -> Prop) :
  P [] -> (forall a, P [a]) -> (forall a b, P [a; b]) ->
  (forall a b c l, P l -> P (a :: b :: c :: l)) ->
  forall l, P l.
Proof.
  intros H0 H1 H2 H3 l.
  assert (G : P l /\ (forall a, P (a :: l)) /\ (forall a b, P (a :: b :: l))).
  { induction l as [|x l (IH0 & IH1 & IH2)]; repeat split; auto. }
  apply G.
Qed.

(** The characters of an encoding decode, sextet by sextet, to the bytes. *)
Lemma sextets_of_chars (bs : list N) :
  byte_sized bs ->
  exists ss, sextets (sextet_chars bs) = Some ss /\ decode_sextets ss = bs.
Proof.
  unfold byte_sized.
  induction bs as [|a|a b|a b c l IH] using list_ind3; intros Hb.
  - exists []. split; reflexivity.
  - inversion Hb as [|? ? Ha _]; subst.
    exists [a / 4; (a mod 4) * 16]%N. cbn [sextet_chars sextets].
    rewrite !char_sextet_char by divlia. split; [reflexivity|].
    cbn [decode_sextets]. f_equal. divlia.
  - inversion Hb as [|? ? Ha Hb']; subst. inversion Hb' as [|? ? Hb2 _]; subst.
    exists [a / 4; (a mod 4) * 16 + b / 16; (b mod 16) * 4]%N.
    cbn [sextet_chars sextets].
    rewrite !char_sextet_char by divlia. split; [reflexivity|].
    cbn [decode_sextets]. repeat f_equal; divlia.
  - inversion Hb as [|? ? Ha Hb']; subst. inversion Hb' as [|? ? Hb2 Hb'']; subst.
    inversion Hb'' as [|? ? Hc Hl]; subst.
    destruct (IH Hl) as (ss & Es & Ed).
    exists ((a / 4) :: ((a mod 4) * 16 + b / 16) :: ((b mod 16) * 4 + c / 64)
            :: (c mod 64) :: ss)%N.
    cbn [sextet_chars sextets].
    rewrite !char_sextet_char by divlia. rewrite Es. split; [reflexivity|].
    cbn [decode_sextets]. rewrite Ed. repeat f_equal; divlia.
Qed.

Lemma sextets_no_pad (l : list ascii) (ss : list N) :
  sextets l = Some ss -> Forall (fun c => Ascii.eqb c pad = false) l.
Proof.
  revert ss. induction l as [|c l IH]; intros ss H; constructor.
  - simpl in H. destruct (Ascii.eqb c pad) eqn:E; [|reflexivity].
    apply Ascii.eqb_eq in E. subst c. discriminate.
  - simpl in H. destruct (char_sextet c); [|discriminate].
    destruct (sextets l) eqn:E; [|discriminate]. eauto.
Qed.

(** Lengths: of the bytes modulo 3 against their characters modulo 4. *)
Lemma sextet_chars_length (bs : list N) :
  let n := List.length bs in
  let m := List.length (sextet_chars bs) in
  (Nat.modulo n 3 = 0 /\ Nat.modulo m 4 = 0)%nat
  \/ (Nat.modulo n 3 = 1 /\ Nat.modulo m 4 = 2)%nat
  \/ (Nat.modulo n 3 = 2 /\ Nat.modulo m 4 = 3)%nat.
Proof.
  induction bs as [|a|a b|a b c l IH] using list_ind3; cbn [sextet_chars List.length].
  - left; split; reflexivity.
  - right; left; split; reflexivity.
  - right; right; split; reflexivity.
  - cbv zeta in IH. divlia.
Qed.

Lemma rev_head_in {A} (l r : list A) (c : A) : rev l = c :: r -> In c l.
Proof. intros H. apply in_rev. rewrite H. left; reflexivity. Qed.

Lemma strip_padding_none (d : list ascii) :
  Forall (fun c => Ascii.eqb c pad = false) d -> strip_padding d = d.
Proof.
  intros Hd. unfold strip_padding.
  destruct (Nat.eqb _ 0); [|reflexivity].
  destruct (rev d) as [|c1 r1] eqn:E; [reflexivity|].
  rewrite Forall_forall in Hd. rewrite (Hd c1 (rev_head_in _ _ _ E)). reflexivity.
Qed.

Lemma strip_padding_one (d : list ascii) :
  Forall (fun c => Ascii.eqb c pad = false) d ->
  Nat.modulo (List.length d) 4 = 3%nat ->
  strip_padding (d ++ [pad]) = d.
Proof.
  intros Hd Hm. unfold strip_padding.
  replace (Nat.eqb (Nat.modulo (List.length (d ++ [pad])) 4) 0) with true.
  2:{ symmetry. apply Nat.eqb_eq. rewrite length_app. cbn [List.length]. divlia. }
  rewrite rev_app_distr. cbn [rev app]. rewrite Ascii.eqb_refl.
  destruct (rev d) as [|c2 r2] eqn:E.
  - rewrite <- (rev_involutive d), E. reflexivity.
  - rewrite Forall_forall in Hd. rewrite (Hd c2 (rev_head_in _ _ _ E)).
    rewrite <- E. apply rev_involutive.
Qed.

Lemma strip_padding_two (d : list ascii) :
  Nat.modulo (List.length d) 4 = 2%nat ->
  strip_padding (d ++ [pad; pad]) = d.
Proof.
  intros Hm. unfold strip_padding.
  replace (Nat.eqb (Nat.modulo (List.length (d ++ [pad; pad])) 4) 0) with true.
  2:{ symmetry. apply Nat.eqb_eq. rewrite length_app. cbn [List.length]. divlia. }
  rewrite rev_app_distr. cbn [rev app]. rewrite !Ascii.eqb_refl.
  apply rev_involutive.
Qed.

Lemma decode_encode (bs : list N) : byte_sized bs -> decode (encode bs) = Some bs.
Proof.
  intros Hb.
  destruct (sextets_of_chars bs Hb) as (ss & Es & Ed).
  pose proof (sextets_no_pad _ _ Es) as Hp.
  assert (S : strip_padding (encode bs) = sextet_chars bs).
  { unfold encode, padding.
    destruct (sextet_chars_length bs) as [(En & Em) | [(En & Em) | (En & Em)]];
      rewrite En; cbn [Nat.sub Nat.modulo Nat.divmod fst snd repeat].
    - rewrite app_nil_r. apply strip_padding_none, Hp.
    - apply strip_padding_two, Em.
    - apply strip_padding_one; assumption. }
  unfold decode. rewrite S.
  replace (Nat.eqb (Nat.modulo (List.length (sextet_chars bs)) 4) 1) with false.
  2:{ symmetry. apply Nat.eqb_neq.
      destruct (sextet_chars_length bs) as [(_ & Em) | [(_ & Em) | (_ & Em)]];
        rewrite Em; discriminate. }
  rewrite Es. simpl. congruence.
Qed.

Lemma encode_no_space (bs : list N) :
  Forall (fun c => negb (is_ascii_whitespace c) = true) (encode bs).
Proof.
  unfold encode. apply Forall_app. split.
  - induction bs as [|a|a b|a b c l IH] using list_ind3; cbn [sextet_chars];
      repeat constructor; try (rewrite sextet_char_not_space; reflexivity); assumption.
  - unfold padding. apply Forall_forall. intros c Hc.
    apply repeat_spec in Hc. subst c. reflexivity.
Qed.

Lemma filter_all {A} (f : A -> bool) (l : list A) :
  Forall (fun x => f x = true) l -> filter f l = l.
Proof.
  induction 1 as [|x l Hx _ IH]; simpl; [reflexivity|].
  rewrite Hx, IH. reflexivity.
Qed.

Lemma codes_byte_sized (l : list ascii) : byte_sized (map N_of_ascii l).
Proof.
  unfold byte_sized. apply Forall_forall. intros n Hn.
  apply in_map_iff in Hn. destruct Hn as (c & <- & _). apply N_ascii_bounded.
Qed.

Lemma map_ascii_of_codes (l : list ascii) : map ascii_of_N (map N_of_ascii l) = l.
Proof.
  rewrite map_map. rewrite <- (map_id l) at 2.
  apply map_ext. intros c. apply ascii_N_embedding.
Qed.

(** [atob(btoa(s)) === s] *)
Lemma atob_btoa (s : string) : atob (btoa s) = Some s.
Proof.
  unfold atob, btoa.
  rewrite list_ascii_of_string_of_list_ascii.
  rewrite (filter_all _ _ (encode_no_space _)).
  rewrite decode_encode by apply codes_byte_sized.
  simpl. rewrite map_ascii_of_codes, string_of_list_ascii_of_string. reflexivity.
Qed.

End Base64_facts.

(** ** Bytes and the key stream *)

Section Bytes_facts.
Import Bytes.

Lemma to_N_trunc8 (n : N) : Byte.to_N (trunc8 n) = (n mod 256)%N.
Proof.
  unfold trunc8.
  pose proof (Byte.to_of_N_option_map (n mod 256)) as H.
  assert (L : (n mod 256 <=? 255)%N = true) by (apply N.leb_le; divlia).
  rewrite L in H.
  destruct (Byte.of_N (n mod 256)); simpl in H; congruence.
Qed.

Lemma trunc8_to_N (b : byte) : trunc8 (Byte.to_N b) = b.
Proof.
  unfold trunc8. pose proof (Byte.to_N_bounded b).
  rewrite N.mod_small by lia. rewrite Byte.of_to_N. reflexivity.
Qed.

Lemma lxor_mod_256 (x y : N) :
  (x < 256)%N -> (y < 256)%N -> (N.lxor x y mod 256 = N.lxor x y)%N.
Proof.
  intros Hx Hy. change 256%N with (2 ^ 8)%N.
  apply N.bits_inj. intros m.
  destruct (N.ltb m 8) eqn:E.
  - apply N.ltb_lt in E. apply N.mod_pow2_bits_low, E.
  - apply N.ltb_ge in E. rewrite N.mod_pow2_bits_high by exact E.
    rewrite N.lxor_spec.
    rewrite <- (N.mod_small x (2 ^ 8)), <- (N.mod_small y (2 ^ 8)) by assumption.
    rewrite !N.mod_pow2_bits_high by exact E. reflexivity.
Qed.

Lemma xor_cancel (a b : byte) : xor (xor a b) b = a.
Proof.
  unfold xor. pose proof (Byte.to_N_bounded a). pose proof (Byte.to_N_bounded b).
  rewrite to_N_trunc8, lxor_mod_256 by lia.
  rewrite N.lxor_assoc, N.lxor_nilpotent, N.lxor_0_r. apply trunc8_to_N.
Qed.

Lemma xor_stream_cancel (data ks : list byte) :
  xor_stream (xor_stream data ks) ks = data.
Proof.
  revert ks. induction data as [|d data IH]; intros [|k ks]; simpl; try reflexivity.
  rewrite xor_cancel, IH. reflexivity.
Qed.

Lemma xor_stream_length (data ks : list byte) :
  List.length (xor_stream data ks) = List.length data.
Proof.
  revert ks. induction data as [|d data IH]; intros [|k ks]; simpl; auto.
Qed.

Lemma of_N_be_length (len : nat) (n : N) : List.length (of_N_be len n) = len.
Proof.
  revert n. induction len as [|len IH]; intros n; simpl; [reflexivity|].
  rewrite length_app, IH. simpl. lia.
Qed.

End Bytes_facts.

(** ** AES-GCM: decryption undoes encryption *)

Section GCM_facts.
Import GCM.

Lemma GCTR_length E icb data : List.length (GCTR E icb data) = List.length data.
Proof. apply xor_stream_length. Qed.

Lemma GCTR_cancel E icb data : GCTR E icb (GCTR E icb data) = data.
Proof.
  unfold GCTR at 1. rewrite GCTR_length. apply xor_stream_cancel.
Qed.

Lemma tag_length E H j0 aad c : List.length (tag E H j0 aad c) = 16.
Proof. unfold tag. rewrite GCTR_length. apply of_N_be_length. Qed.

Lemma encrypt_length key iv aad p :
  List.length (encrypt key iv aad p) = List.length p + 16.
Proof.
  unfold encrypt. cbv zeta. rewrite length_app, GCTR_length, tag_length. reflexivity.
Qed.

Lemma bytes_eqb_refl u : bytes_eqb u u = true.
Proof. unfold bytes_eqb. destruct (list_eq_dec Byte.byte_eq_dec u u); congruence. Qed.

Lemma decrypt_encrypt key iv aad p :
  decrypt key iv aad (encrypt key iv aad p) = Some p.
Proof.
  unfold decrypt. cbv zeta. rewrite encrypt_length.
  replace (List.length p + 16 - 16) with (List.length p) by lia.
  unfold encrypt. cbv zeta.
  set (E := AES.encrypt_block key). set (j0 := J0 (E 0%N) iv).
  pose proof (GCTR_length E (inc32 j0) p) as L.
  pose proof (GCTR_cancel E (inc32 j0) p) as C.
  set (c := GCTR E (inc32 j0) p) in *. rewrite <- L.
  rewrite firstn_app, Nat.sub_diag, firstn_all, firstn_O, app_nil_r.
  rewrite skipn_app, Nat.sub_diag, skipn_all, skipn_O. cbn [app].
  rewrite bytes_eqb_refl, C. reflexivity.
Qed.

(** What [crypto.subtle.decrypt] gives on what AES-GCM encryption under the
    same key and nonce produced. *)
Lemma subtle_decrypt_encrypt key iv p :
  WebCrypto.algorithm key = "AES-GCM" ->
  WebCrypto.has_usage WebCrypto.decrypt_usage (WebCrypto.usages key) = true ->
  WebCrypto.decrypt_AES_GCM iv key (encrypt (WebCrypto.material key) iv [] p) = inr p.
Proof.
  intros Ha Hu. unfold WebCrypto.decrypt_AES_GCM.
  rewrite Ha, Hu. cbn [String.eqb negb].
  rewrite encrypt_length.
  replace (Nat.ltb (List.length p + 16) 16) with false
    by (symmetry; apply Nat.ltb_ge; lia).
  rewrite decrypt_encrypt. reflexivity.
Qed.

End GCM_facts.

(** ** [TextEncoder]: a string of ASCII is its own bytes *)

Lemma TextEncoder_encode_ascii (s : string) :
  Forall (fun c => (N_of_ascii c < 128)%N) (list_ascii_of_string s) ->
  TextEncoder.encode s = list_byte_of_string s.
Proof.
  unfold list_byte_of_string.
  induction s as [|c s IH]; intros H; [reflexivity|].
  inversion H as [|? ? Hc Hs]; subst.
  cbn [TextEncoder.encode list_ascii_of_string map]. rewrite (IH Hs).
  unfold TextEncoder.encode_unit.
  apply N.ltb_lt in Hc. rewrite Hc. cbn [app]. f_equal.
  unfold Bytes.trunc8. apply N.ltb_lt in Hc.
  rewrite N.mod_small by lia.
  pose proof (byte_of_ascii_via_N c) as V.
  destruct (Byte.of_N (N_of_ascii c)); congruence.
Qed.

(** ** SHA-256 gives 32 bytes *)

Lemma SHA256_digest_length (msg : list byte) : List.length (SHA256.digest msg) = 32.
Proof.
  unfold SHA256.digest, SHA256.output. cbv zeta.
  rewrite !length_app, !of_N_be_length. reflexivity.
Qed.

(** ** The viewer *)

Section App_facts.
Import Js App.
Variable env : Env.

Lemma addLog_run (msg : string) (s : State) :
  addLog env msg s = (Ok tt, logged env msg s).
Proof. reflexivity. Qed.

Lemma logged_trace (msg : string) (s : State) : trace (logged env msg s) = trace s.
Proof. reflexivity. Qed.

Lemma logged_logs (msg : string) (s : State) :
  logs (logged env msg s) = log_update (toLocaleTimeString env (clock s)) msg (logs s).
Proof. reflexivity. Qed.

Lemma subtle_ok {A} (ev : Event) (a : A) (s : State) :
  subtle env ev (inr a) s = (Ok a, record_event ev s).
Proof. reflexivity. Qed.

Lemma list_byte_of_string_length (s : string) :
  List.length (list_byte_of_string s) = String.length s.
Proof.
  unfold list_byte_of_string. rewrite length_map.
  induction s as [|c s IH]; simpl; congruence.
Qed.

Lemma base64ToBytes_atob (base64 binaryString : string) (s : State) :
  Base64.atob base64 = Some binaryString ->
  base64ToBytes env base64 s = (Ok (list_byte_of_string binaryString), s).
Proof. intros H. unfold base64ToBytes. rewrite H. reflexivity. Qed.

Lemma base64ToBytes_btoa (bytes : list byte) (s : State) :
  base64ToBytes env (Base64.btoa (string_of_list_byte bytes)) s = (Ok bytes, s).
Proof.
  rewrite (base64ToBytes_atob _ _ _ (atob_btoa _)).
  rewrite list_byte_of_string_of_list_byte. reflexivity.
Qed.

Lemma startsWith_0x (cid : string) :
  startsWith cid "0x" = true <-> exists rest, cid = ("0x" ++ rest)%string.
Proof.
  unfold startsWith. split.
  - destruct cid as [|a [|b rest]]; cbn [String.prefix]; try discriminate.
    + destruct (ascii_dec "0" a); discriminate.
    + destruct (ascii_dec "0" a) as [Ea|]; [|discriminate].
      destruct (ascii_dec "x" b) as [Eb|]; [|discriminate].
      intros _. exists rest. rewrite <- Ea, <- Eb. reflexivity.
  - intros (rest & ->). simpl. destruct rest; reflexivity.
Qed.

End App_facts.

(** C6.  [normalizeCid] strips one leading "0x", and only one: whatever
    follows the prefix is returned as it is, also when it starts with "0x"
    again; a string that does not start with "0x" is returned unchanged. *)
Theorem normalizeCid_strips_one_prefix :
  (forall rest : string, App.normalizeCid ("0x" ++ rest) = rest)
  /\ (forall cid : string, Js.startsWith cid "0x" = false -> App.normalizeCid cid = cid).
Proof.
  split.
  - intros rest. unfold App.normalizeCid. simpl. destruct rest; reflexivity.
  - intros cid H. unfold App.normalizeCid. rewrite H.
    destruct (negb (Js.truthy cid)); reflexivity.
Qed.

Lemma normalizeCid_strips_one_prefix_witness :
  App.normalizeCid "0x0xda25" = "0xda25" /\ App.normalizeCid "da25" = "da25".
Proof.
  split.
  - exact (proj1 normalizeCid_strips_one_prefix "0xda25").
  - apply (proj2 normalizeCid_strips_one_prefix "da25"). reflexivity.
Defined.

(** C2.  A payload that decodes to at most 12 bytes makes
    [decryptBase64Payload] throw "Payload too short"; the state is left as it
    was, so nothing was asked of [crypto.subtle.decrypt]. *)
Theorem decryptBase64Payload_too_short :
  forall (env : App.Env) (base64 binaryString : string)
         (key : WebCrypto.CryptoKey) (s : App.State),
    Base64.atob base64 = Some binaryString ->
    String.length binaryString <= 12 ->
    App.decryptBase64Payload env base64 key s
    = (Js.Throw (Js.Error "Payload too short"), s).
Proof.
  intros env base64 bin key s Ha Hl.
  unfold App.decryptBase64Payload, Js.bind.
  rewrite (base64ToBytes_atob env _ _ _ Ha), list_byte_of_string_length.
  replace (Nat.leb (String.length bin) 12) with true
    by (symmetry; apply Nat.leb_le; exact Hl).
  reflexivity.
Qed.

Lemma firstn_prefix {A} (n : nat) (l r : list A) :
  List.length l = n -> firstn n (l ++ r) = l.
Proof.
  intros <-. rewrite firstn_app, Nat.sub_diag, firstn_all, firstn_O. apply app_nil_r.
Qed.

Lemma skipn_prefix {A} (n : nat) (l r : list A) :
  List.length l = n -> skipn n (l ++ r) = r.
Proof.
  intros <-. rewrite skipn_app, Nat.sub_diag, skipn_all, skipn_O. reflexivity.
Qed.

Lemma deriveKeyFromSignature_run (env : App.Env) (signature : string) (s : App.State) :
  App.deriveKeyFromSignature env signature s
  = (Js.Ok (WebCrypto.mkKey "AES-GCM" false [WebCrypto.decrypt_usage]
                            (SHA256.digest (TextEncoder.encode signature))),
     App.record_event (App.ImportKey (SHA256.digest (TextEncoder.encode signature)))
       (App.record_event (App.Digest (TextEncoder.encode signature)) s)).
Proof.
  unfold App.deriveKeyFromSignature, Js.bind, WebCrypto.digest_SHA256.
  rewrite subtle_ok.
  unfold WebCrypto.importKey_raw_AES_GCM.
  rewrite SHA256_digest_length. reflexivity.
Qed.

(** C4.  [deriveKeyFromSignature] hashes the UTF-8 bytes of the signature
    string with SHA-256 and imports the digest, which is 32 bytes long, as a
    raw AES-GCM key that is not extractable and whose usages are "decrypt"
    alone: [crypto.subtle.encrypt] refuses it. *)
Theorem deriveKeyFromSignature_sha256_decrypt_only :
  forall (env : App.Env) (signature : string) (s : App.State),
    let sigBytes := TextEncoder.encode signature in
    let hash := SHA256.digest sigBytes in
    let key := WebCrypto.mkKey "AES-GCM" false [WebCrypto.decrypt_usage] hash in
    App.deriveKeyFromSignature env signature s
    = (Js.Ok key,
       App.record_event (App.ImportKey hash) (App.record_event (App.Digest sigBytes) s))
    /\ List.length (WebCrypto.material key) = 32
    /\ WebCrypto.usages key = [WebCrypto.decrypt_usage]
    /\ (forall iv data : list byte,
          WebCrypto.encrypt_AES_GCM iv key data = inl WebCrypto.InvalidAccessError).
Proof.
  intros env signature s sigBytes hash key.
  split; [apply deriveKeyFromSignature_run|].
  split; [apply SHA256_digest_length|].
  split; [reflexivity|].
  intros iv data. reflexivity.
Qed.

(** C1.  Decryption undoes encryption: for a key made for AES-GCM decryption
    and a nonce of 12 bytes, [decryptBase64Payload] on the base64 text of the
    nonce followed by the AES-GCM ciphertext and tag of a plaintext, made
    under the same key and nonce, returns the plaintext, after one call of
    [crypto.subtle.decrypt].  So it is with the key that
    [deriveKeyFromSignature] gives for any signature. *)
Theorem decryptBase64Payload_roundtrip :
  forall (env : App.Env) (nonce plaintext : list byte),
    List.length nonce = 12 ->
    (forall (key : WebCrypto.CryptoKey) (s : App.State),
        WebCrypto.algorithm key = "AES-GCM" ->
        WebCrypto.has_usage WebCrypto.decrypt_usage (WebCrypto.usages key) = true ->
        let sealed := GCM.encrypt (WebCrypto.material key) nonce [] plaintext in
        App.decryptBase64Payload env
          (Base64.btoa (string_of_list_byte (nonce ++ sealed))) key s
        = (Js.Ok plaintext, App.record_event (App.Decrypt nonce key sealed) s))
    /\ (forall (signature : string) (s : App.State),
          let raw := SHA256.digest (TextEncoder.encode signature) in
          let b64 := Base64.btoa
                       (string_of_list_byte (nonce ++ GCM.encrypt raw nonce [] plaintext)) in
          fst (Js.bind (App.deriveKeyFromSignature env signature)
                       (fun key => App.decryptBase64Payload env b64 key) s)
          = Js.Ok plaintext).
Proof.
  intros env nonce plaintext Hn.
  assert (G : forall (key : WebCrypto.CryptoKey) (s : App.State),
             WebCrypto.algorithm key = "AES-GCM" ->
             WebCrypto.has_usage WebCrypto.decrypt_usage (WebCrypto.usages key) = true ->
             App.decryptBase64Payload env
               (Base64.btoa (string_of_list_byte
                  (nonce ++ GCM.encrypt (WebCrypto.material key) nonce [] plaintext))) key s
             = (Js.Ok plaintext,
                App.record_event
                  (App.Decrypt nonce key
                     (GCM.encrypt (WebCrypto.material key) nonce [] plaintext)) s)).
  { intros key s Ha Hu.
    unfold App.decryptBase64Payload, Js.bind.
    rewrite base64ToBytes_btoa.
    rewrite length_app, encrypt_length, Hn.
    replace (Nat.leb (12 + (List.length plaintext + 16)) 12) with false
      by (symmetry; apply Nat.leb_gt; lia).
    rewrite (firstn_prefix 12 nonce _ Hn), (skipn_prefix 12 nonce _ Hn).
    rewrite (subtle_decrypt_encrypt key nonce plaintext Ha Hu).
    reflexivity. }
  split.
  - intros key s Ha Hu sealed. apply G; assumption.
  - intros signature s raw b64. unfold Js.bind.
    rewrite deriveKeyFromSignature_run. fold raw.
    unfold b64.
    change raw with (WebCrypto.material
                       (WebCrypto.mkKey "AES-GCM" false [WebCrypto.decrypt_usage] raw)) at 1.
    rewrite G by reflexivity. reflexivity.
Qed.

(** C3.  The guards of [handleDownload].  With a connected address whose
    lower-case form is not the owner's, with no signer, or with a token whose
    storage CID is empty, the action writes one log line and returns: the
    trace of events is what it was, so nothing was signed and nothing was
    fetched. *)
Theorem handleDownload_guards :
  forall (env : App.Env) (token : App.Token) (s : App.State),
    (forall address : string,
        App.connectedAddress s = Some address ->
        Js.toLowerCase address <> App.OWNER_ADDRESS ->
        exists msg : string,
          App.handleDownload env token s = (Js.Ok tt, App.logged env msg s)
          /\ App.trace (App.logged env msg s) = App.trace s)
    /\ (App.signer s = None ->
        App.handleDownload env token s
        = (Js.Ok tt, App.logged env "Connect wallet first" s)
        /\ App.trace (App.logged env "Connect wallet first" s) = App.trace s)
    /\ (App.storageCid token = "" ->
        exists msg : string,
          App.handleDownload env token s = (Js.Ok tt, App.logged env msg s)
          /\ App.trace (App.logged env msg s) = App.trace s).
Proof.
  intros env token s. split; [|split].
  - intros address Ha Hne.
    unfold App.handleDownload, Js.bind, Js.gets. rewrite Ha.
    destruct (App.signer s) as [signer_|].
    + destruct (Js.truthy address).
      * destruct (String.eqb (Js.toLowerCase address) App.OWNER_ADDRESS) eqn:E.
        { apply String.eqb_eq in E. contradiction. }
        eexists. split; reflexivity.
      * eexists. split; reflexivity.
    + eexists. split; reflexivity.
  - intros Hs.
    unfold App.handleDownload, Js.bind, Js.gets. rewrite Hs.
    split; reflexivity.
  - intros Hc.
    unfold App.handleDownload, Js.bind, Js.gets. rewrite Hc.
    destruct (App.signer s) as [signer_|]; [|eexists; split; reflexivity].
    destruct (App.connectedAddress s) as [address|]; [|eexists; split; reflexivity].
    destruct (Js.truthy address); [|eexists; split; reflexivity].
    destruct (String.eqb (Js.toLowerCase address) App.OWNER_ADDRESS);
      eexists; split; reflexivity.
Qed.

(** C10.  With no [window.OGStorage], an SDK whose import fails or that has
    no [download] function, and an empty gateway, [fetchCidBase64] throws
    "No storage gateway configured and 0g SDK not available."; the only event
    is the attempt to import the SDK: no HTTP request is made. *)
Theorem fetchCidBase64_no_gateway :
  forall (env : App.Env) (cid : string) (s : App.State),
    App.window_OGStorage env = None ->
    (forall sdk : App.SdkModule,
        App.import_sdk env = Js.Ok sdk -> App.sdk_download sdk = None) ->
    App.storageGateway s = "" ->
    fst (App.fetchCidBase64 env cid s)
    = Js.Throw (Js.Error "No storage gateway configured and 0g SDK not available.")
    /\ App.trace (snd (App.fetchCidBase64 env cid s)) = App.trace s ++ [App.ImportSdk].
Proof.
  intros env cid s Hg Hsdk Hgw.
  unfold App.fetchCidBase64, App.global_download, App.try_sdk, App.call.
  unfold Js.bind, Js.try_catch, Js.gets, Js.await, Js.ret. rewrite Hg.
  cbn [App.addLog App.emit Js.modify Js.bind App.tick App.setLogs fst snd].
  destruct (App.import_sdk env) as [sdk|e] eqn:Ei.
  - rewrite (Hsdk sdk eq_refl).
    destruct (App.sdk_StorageClient sdk); cbn; rewrite Hgw; cbn; split; reflexivity.
  - cbn. rewrite Hgw. cbn. split; reflexivity.
Qed.

(** ** The order of the fetch strategies *)

Section Fetch_facts.
Import Js App.
Variable env : Env.

Lemma fetch_global (cid : string) (s : State) download :
  global_download env = Some download ->
  fst (fetchCidBase64 env cid s) = download cid
  /\ trace (snd (fetchCidBase64 env cid s)) = trace s ++ [GlobalDownload cid].
Proof.
  intros Hg. unfold fetchCidBase64. rewrite Hg.
  unfold call, Js.bind, Js.try_catch, Js.await, Js.ret.
  cbn [addLog emit Js.modify Js.bind tick setLogs fst snd].
  destruct (download cid) as [b64|e]; split; reflexivity.
Qed.

Lemma fetch_sdk (cid : string) (s : State) (b64 : string) :
  global_download env = None ->
  sdk_payload env cid = Some b64 ->
  fst (fetchCidBase64 env cid s) = Ok b64
  /\ trace (snd (fetchCidBase64 env cid s)) = trace s ++ [ImportSdk; SdkDownload cid].
Proof.
  intros Hg Hp. unfold fetchCidBase64, try_sdk. rewrite Hg.
  unfold sdk_payload in Hp.
  unfold call, Js.bind, Js.try_catch, Js.await, Js.ret.
  cbn [addLog emit Js.modify Js.bind tick setLogs fst snd].
  destruct (import_sdk env) as [m|e]; [|discriminate].
  destruct (sdk_download m) as [download|]; [|discriminate].
  destruct (download cid) as [b|e]; [|discriminate].
  injection Hp as ->. cbn. rewrite <- app_assoc. split; reflexivity.
Qed.

(** Past the SDK, the function is at its gateway part, in some state [s']
    that differs from [s] by log lines and events that are not requests. *)
Lemma fetch_gateway (cid : string) (s : State) :
  global_download env = None ->
  sdk_payload env cid = None ->
  let base := storageGateway s in
  let url := gateway_url base cid in
  fst (fetchCidBase64 env cid s)
  = if negb (truthy base)
    then Throw (Error "No storage gateway configured and 0g SDK not available.")
    else match fetch env url with
         | Ok res =>
             if negb (ok res)
             then Throw (Error ("Gateway fetch failed: " ++ decimal (status res)))
             else match text res with
                  | Ok t => Ok (trim t)
                  | Throw e => Throw e
                  end
         | Throw e => Throw e
         end.
Proof.
  intros Hg Hp base url. unfold fetchCidBase64, try_sdk. rewrite Hg.
  unfold sdk_payload in Hp.
  unfold call, Js.bind, Js.try_catch, Js.await, Js.ret, Js.gets, Js.throw.
  cbn [addLog emit Js.modify Js.bind tick setLogs fst snd].
  destruct (import_sdk env) as [m|e].
  - destruct (sdk_download m) as [download|].
    + destruct (download cid) as [b|e]; [discriminate|].
      cbn. fold base. destruct (truthy base); cbn; [|reflexivity].
      fold url. destruct (fetch env url) as [res|e']; [|reflexivity].
      destruct (ok res); cbn; [|reflexivity].
      destruct (text res); reflexivity.
    + destruct (sdk_StorageClient m); cbn; fold base;
        (destruct (truthy base); cbn; [|reflexivity]);
        fold url; (destruct (fetch env url) as [res|e']; [|reflexivity]);
        (destruct (ok res); cbn; [|reflexivity]);
        destruct (text res); reflexivity.
  - cbn. fold base. destruct (truthy base); cbn; [|reflexivity].
    fold url. destruct (fetch env url) as [res|e']; [|reflexivity].
    destruct (ok res); cbn; [|reflexivity].
    destruct (text res); reflexivity.
Qed.

End Fetch_facts.

(** ** The log stays within 200 lines *)

Section Log_facts.
Import Js App.
Variable env : Env.

Lemma log_update_length stamp msg l : List.length (log_update stamp msg l) <= 200.
Proof. unfold log_update. apply firstn_le_length. Qed.

Lemma keeps_ret {A} (a : A) : keeps (ret a).
Proof. intros s H. exact H. Qed.

Lemma keeps_throw {A} e : keeps (@throw State A e).
Proof. intros s H. exact H. Qed.

Lemma keeps_await {A} (r : Result A) : keeps (await r).
Proof. intros s H. exact H. Qed.

Lemma keeps_gets {A} (f : State -> A) : keeps (gets f).
Proof. intros s H. exact H. Qed.

Lemma keeps_bind {A B} (m : M State A) (k : A -> M State B) :
  keeps m -> (forall a, keeps (k a)) -> keeps (bind m k).
Proof.
  intros Hm Hk s H. unfold bind. specialize (Hm s H).
  destruct (m s) as [[a|e] s']; simpl in *; [apply Hk|]; assumption.
Qed.

Lemma keeps_try_catch {A} (m : M State A) (h : Thrown -> M State A) :
  keeps m -> (forall e, keeps (h e)) -> keeps (try_catch m h).
Proof.
  intros Hm Hh s H. unfold try_catch. specialize (Hm s H).
  destruct (m s) as [[a|e] s']; simpl in *; [|apply Hh]; assumption.
Qed.

Lemma keeps_emit ev : keeps (emit ev).
Proof. intros s H. exact H. Qed.

Lemma keeps_tick : keeps tick.
Proof. intros s H. exact H. Qed.

Lemma keeps_setProvider p : keeps (setProvider p).
Proof. intros s H. exact H. Qed.

Lemma keeps_setSigner g : keeps (setSigner g).
Proof. intros s H. exact H. Qed.

Lemma keeps_setConnectedAddress a : keeps (setConnectedAddress a).
Proof. intros s H. exact H. Qed.

Lemma keeps_setStorageGateway g : keeps (setStorageGateway g).
Proof. intros s H. exact H. Qed.

Lemma keeps_addLog msg : keeps (addLog env msg).
Proof. intros s _. apply log_update_length. Qed.

Lemma keeps_call {A} ev (r : Result A) : keeps (call ev r).
Proof. apply keeps_bind; [apply keeps_emit | intros; apply keeps_await]. Qed.

Lemma keeps_DOMException {A} e : keeps (@DOMException env A e).
Proof. apply keeps_throw. Qed.

Lemma keeps_subtle {A} ev (r : WebCrypto.DomError + A) : keeps (subtle env ev r).
Proof.
  apply keeps_bind; [apply keeps_emit|]. intros _.
  destruct r; [apply keeps_DOMException | apply keeps_ret].
Qed.

Create HintDb keeps.
Hint Resolve keeps_ret keeps_throw keeps_await keeps_gets keeps_emit keeps_tick
  keeps_setProvider keeps_setSigner keeps_setConnectedAddress keeps_setStorageGateway
  keeps_addLog keeps_call keeps_DOMException keeps_subtle : keeps.

(** One step through a computation: its binds and handlers, then its cases. *)
Ltac keeps_step :=
  match goal with
  | |- keeps (bind _ _) => apply keeps_bind; [|intro]
  | |- keeps (try_catch _ _) => apply keeps_try_catch; [|intro]
  | |- keeps (match ?x with _ => _ end) => destruct x
  | |- keeps _ => solve [auto with keeps]
  end.

Lemma keeps_connectWalletConnect : keeps (connectWalletConnect env).
Proof. unfold connectWalletConnect. repeat keeps_step. Qed.

Lemma keeps_disconnect : keeps (disconnect env).
Proof. unfold disconnect. repeat keeps_step. Qed.

Lemma keeps_try_sdk cid : keeps (try_sdk env cid).
Proof. unfold try_sdk. repeat keeps_step. Qed.

Lemma keeps_fetchCidBase64 cid : keeps (fetchCidBase64 env cid).
Proof.
  unfold fetchCidBase64. pose proof (keeps_try_sdk cid).
  repeat (assumption || keeps_step).
Qed.

Lemma keeps_deriveKeyFromSignature sig : keeps (deriveKeyFromSignature env sig).
Proof. unfold deriveKeyFromSignature. repeat keeps_step. Qed.

Lemma keeps_base64ToBytes b64 : keeps (base64ToBytes env b64).
Proof. unfold base64ToBytes. repeat keeps_step. Qed.

Lemma keeps_decryptBase64Payload b64 key : keeps (decryptBase64Payload env b64 key).
Proof.
  unfold decryptBase64Payload. pose proof (keeps_base64ToBytes b64).
  repeat (assumption || keeps_step).
Qed.

Lemma keeps_handleDownload token : keeps (handleDownload env token).
Proof.
  unfold handleDownload.
  pose proof keeps_deriveKeyFromSignature. pose proof keeps_fetchCidBase64.
  pose proof keeps_decryptBase64Payload.
  repeat (solve [auto] || keeps_step).
Qed.

Lemma keeps_perform a : keeps (perform env a).
Proof.
  destruct a; simpl;
    auto using keeps_connectWalletConnect, keeps_disconnect, keeps_handleDownload
      with keeps.
Qed.

Lemma session_bounded actions s : log_bounded s -> log_bounded (session env actions s).
Proof.
  revert s. induction actions as [|a actions IH]; intros s H; simpl; [exact H|].
  apply IH, keeps_perform, H.
Qed.

End Log_facts.

(** C9.  [addLog] puts the new line first, keeps the 199 newest of the lines
    there were, in their order, and so leaves at most 200 lines, whatever the
    log was.  The bound is kept by every action of a session, and by
    [fetchCidBase64] on its own. *)
Theorem addLog_newest_first_at_most_200 :
  forall (env : App.Env) (msg : string) (s : App.State),
    App.logs (snd (App.addLog env msg s))
    = (App.toLocaleTimeString env (App.clock s) ++ " — " ++ msg)%string
        :: firstn 199 (App.logs s)
    /\ List.length (App.logs (snd (App.addLog env msg s))) <= 200
    /\ (forall (actions : list App.Action) (s0 : App.State),
          App.log_bounded s0 -> App.log_bounded (App.session env actions s0))
    /\ (forall (cid : string) (s0 : App.State),
          App.log_bounded s0 -> App.log_bounded (snd (App.fetchCidBase64 env cid s0))).
Proof.
  intros env msg s. split; [reflexivity|]. split; [apply log_update_length|].
  split.
  - intros actions s0. apply session_bounded.
  - intros cid s0. apply keeps_fetchCidBase64.
Qed.

Lemma addLog_newest_first_at_most_200_witness :
  App.log_bounded App.initial
  /\ App.log_bounded
       (App.session (Sample.browser Sample.owner_signer)
          [App.Connect; App.TypeGateway "https://gw.example/cid/";
           App.Download Sample.token2; App.Disconnect]
          App.initial)
  /\ App.log_bounded
       (snd (App.fetchCidBase64 (Sample.browser Sample.owner_signer) "0xda25" App.initial)).
Proof.
  assert (B : App.log_bounded App.initial) by (unfold App.log_bounded; simpl; lia).
  destruct (addLog_newest_first_at_most_200
              (Sample.browser Sample.owner_signer) "" App.initial) as (_ & _ & Hs & Hf).
  split; [exact B|]. split; [apply Hs, B | apply Hf, B].
Defined.

(** ** The proxy *)

(** C7.  When the upstream fetch fails, be it the request or the reading of
    the body, the proxy replies with status 500 and the text "Proxy error",
    whatever the failure was. *)
Theorem ipfs_route_proxy_error :
  forall (fetch : string -> Js.Result Proxy.Upstream) (gateway cid : string)
         (e : Js.Thrown),
    (fetch (gateway ++ cid)%string = Js.Throw e
     \/ exists r, fetch (gateway ++ cid)%string = Js.Ok r
                  /\ Proxy.up_buffer r = Js.Throw e) ->
    Proxy.ipfs_route fetch gateway cid Proxy.fresh
    = (Js.Ok tt, Proxy.mkReply 500 [] (Some (Proxy.Text "Proxy error"))).
Proof.
  intros fetch gateway cid e [H | (r & H & Hb)];
    unfold Proxy.ipfs_route, Js.try_catch, Js.bind, Js.await; rewrite H.
  - reflexivity.
  - rewrite Hb. reflexivity.
Qed.

Lemma ipfs_route_proxy_error_witness :
  Proxy.ipfs_route (fun _ => Js.Throw Sample.unreachable) "https://ipfs.io/ipfs/" "QmX"
                   Proxy.fresh
  = (Js.Ok tt, Proxy.mkReply 500 [] (Some (Proxy.Text "Proxy error")))
  /\ Proxy.ipfs_route (fun _ => Js.Ok Sample.up_broken_body) "https://ipfs.io/ipfs/" "QmX"
                      Proxy.fresh
     = (Js.Ok tt, Proxy.mkReply 500 [] (Some (Proxy.Text "Proxy error"))).
Proof.
  split.
  - apply (ipfs_route_proxy_error _ _ _ Sample.unreachable). left. reflexivity.
  - apply (ipfs_route_proxy_error _ _ _ (Js.JsError "FetchError" "Premature close")).
    right. exists Sample.up_broken_body. split; reflexivity.
Defined.

(** An upstream reply with an error status is no failure of the fetch: its
    body is relayed, with the status 200 of a fresh reply. *)
Lemma ipfs_route_relays_any_status (fetch : string -> Js.Result Proxy.Upstream)
      (gateway cid : string) (r : Proxy.Upstream) (body : list byte) :
  fetch (gateway ++ cid)%string = Js.Ok r ->
  Proxy.up_buffer r = Js.Ok body ->
  Proxy.statusCode (Proxy.respond fetch gateway cid) = 200%N
  /\ Proxy.sent (Proxy.respond fetch gateway cid) = Some (Proxy.Buffer body).
Proof.
  intros H Hb. unfold Proxy.respond, Proxy.ipfs_route, Js.try_catch, Js.bind, Js.await.
  rewrite H, Hb. split; reflexivity.
Qed.

(** C8, as the claim has it, fails: an upstream content-type that is there
    but empty is not echoed. *)
Lemma ipfs_route_empty_content_type_not_echoed :
  Proxy.up_content_type Sample.up_empty_type = Some ""
  /\ Proxy.get_header "content-type"
       (Proxy.headers (Proxy.respond (fun _ => Js.Ok Sample.up_empty_type)
                                     "https://ipfs.io/ipfs/" "QmX"))
     = Some "application/octet-stream"
  /\ Proxy.get_header "content-type"
       (Proxy.headers (Proxy.respond (fun _ => Js.Ok Sample.up_empty_type)
                                     "https://ipfs.io/ipfs/" "QmX"))
     <> Proxy.up_content_type Sample.up_empty_type.
Proof. repeat split. discriminate. Qed.

(** What the handler passes to [res.set] for an upstream reply whose body
    could be read: the upstream content-type when there is one and it is
    not the empty string, and application/octet-stream when there is none or
    it is empty. *)
Lemma ipfs_route_passes_content_type (fetch : string -> Js.Result Proxy.Upstream)
      (gateway cid : string) (r : Proxy.Upstream) (body : list byte) :
  fetch (gateway ++ cid)%string = Js.Ok r ->
  Proxy.up_buffer r = Js.Ok body ->
  exists v : string,
    ((exists ct, Proxy.up_content_type r = Some ct /\ ct <> "" /\ v = ct)
     \/ ((Proxy.up_content_type r = None \/ Proxy.up_content_type r = Some "")
         /\ v = "application/octet-stream"))
    /\ v <> ""
    /\ Proxy.respond fetch gateway cid
       = Proxy.mkReply 200 [("content-type", v)] (Some (Proxy.Buffer body)).
Proof.
  intros H Hb.
  unfold Proxy.respond, Proxy.ipfs_route, Js.try_catch, Js.bind, Js.await.
  rewrite H, Hb. cbn.
  destruct (Proxy.up_content_type r) as [[| a ct] |].
  - exists "application/octet-stream". split; [right; split; [right |]; reflexivity |].
    split; [discriminate | reflexivity].
  - exists (String a ct). split; [left; exists (String a ct) |].
    + split; [reflexivity |]. split; [discriminate | reflexivity].
    + split; [discriminate | reflexivity].
  - exists "application/octet-stream". split; [right; split; [left |]; reflexivity |].
    split; [discriminate | reflexivity].
Qed.

Lemma finish_200 (req : Express.Request) (type : string) (body : list byte) :
  Express.finish req 200 type (Proxy.Buffer body)
  = if Express.validators_match req body
    then Express.mkWire 304 None None
    else Express.mkWire 200 (Some type)
                        (if Express.is_HEAD req then None else Some (Proxy.Buffer body)).
Proof.
  unfold Express.finish. cbn [Express.body_bytes Express.may_be_fresh].
  change ((200 <=? 200)%N && (200 <? 300)%N || (200 =? 304)%N) with true.
  cbn [andb]. destruct (Express.validators_match req body); reflexivity.
Qed.

(** C8, amended.  For an upstream reply whose body could be read, the
    handler passes to [res.set], as the content-type, the upstream
    content-type when there is one and it is not the empty string, and
    application/octet-stream when there is none or it is empty.  What goes
    out is what Express makes of that: to a request that is fresh, a 304
    without content-type; to any other, status 200 with the content-type as
    [res.set] keeps it, which may have a charset added, and the body, which
    a HEAD request does not get. *)
Theorem ipfs_route_content_type :
  forall (kept : string -> string) (req : Express.Request)
         (fetch : string -> Js.Result Proxy.Upstream) (gateway cid : string)
         (r : Proxy.Upstream) (body : list byte),
    fetch (gateway ++ cid)%string = Js.Ok r ->
    Proxy.up_buffer r = Js.Ok body ->
    exists v : string,
      ((exists ct, Proxy.up_content_type r = Some ct /\ ct <> "" /\ v = ct)
       \/ ((Proxy.up_content_type r = None \/ Proxy.up_content_type r = Some "")
           /\ v = "application/octet-stream"))
      /\ Proxy.headers (Proxy.respond fetch gateway cid) = [("content-type", v)]
      /\ Express.sends kept req (Proxy.respond fetch gateway cid)
         = Some (if Express.validators_match req body
                 then Express.mkWire 304 None None
                 else Express.mkWire 200
                        (Some (if Js.truthy (kept v) then kept v
                               else kept "application/octet-stream"))
                        (if Express.is_HEAD req then None
                         else Some (Proxy.Buffer body))).
Proof.
  intros kept req fetch gateway cid r body H Hb.
  destruct (ipfs_route_passes_content_type fetch gateway cid r body H Hb)
    as (v & Hv & _ & E).
  exists v. split; [exact Hv |]. rewrite E. split; [reflexivity |].
  unfold Express.sends.
  cbn [Proxy.sent Proxy.headers Proxy.statusCode Express.header_named].
  change (String.eqb (Js.toLowerCase "content-type") (Js.toLowerCase "content-type"))
    with true.
  cbv iota. rewrite finish_200. reflexivity.
Qed.

Lemma ipfs_route_content_type_witness :
  exists v : string,
    ((exists ct, Proxy.up_content_type Sample.up_text = Some ct /\ ct <> "" /\ v = ct)
     \/ ((Proxy.up_content_type Sample.up_text = None
          \/ Proxy.up_content_type Sample.up_text = Some "")
         /\ v = "application/octet-stream"))
    /\ Proxy.headers (Proxy.respond (fun _ => Js.Ok Sample.up_text)
                                    "https://ipfs.io/ipfs/" "QmX")
       = [("content-type", v)]
    /\ Express.sends Express4.kept Sample.plain_get
         (Proxy.respond (fun _ => Js.Ok Sample.up_text) "https://ipfs.io/ipfs/" "QmX")
       = Some (if Express.validators_match Sample.plain_get [x68; x69]
               then Express.mkWire 304 None None
               else Express.mkWire 200
                      (Some (if Js.truthy (Express4.kept v) then Express4.kept v
                             else Express4.kept "application/octet-stream"))
                      (if Express.is_HEAD Sample.plain_get then None
                       else Some (Proxy.Buffer [x68; x69]))).
Proof.
  apply (ipfs_route_content_type Express4.kept Sample.plain_get
           (fun _ => Js.Ok Sample.up_text) "https://ipfs.io/ipfs/" "QmX" Sample.up_text
           [x68; x69]).
  - reflexivity.
  - reflexivity.
Defined.

(** ** How [fetchCidBase64] picks its strategy *)

(** C5, as the claim has it, fails.  With a global client whose download
    throws and an SDK whose download would give the payload, trying the
    strategies in order until one succeeds gives the payload, but
    [fetchCidBase64] throws what the global client threw, and its only event
    is that download: the SDK is not imported.  And with a gateway that does
    not end in a slash, the URL requested is not the gateway followed by the
    identifier: a slash is put between them. *)
Lemma fetchCidBase64_no_fallback_after_global_client :
  Strategies.fetchByIdentifier Sample.browser_client_offline
    (App.storageGateway Sample.owner_session) (App.storageCid Sample.token2)
  = Some Sample.short_b64
  /\ fst (App.fetchCidBase64 Sample.browser_client_offline
            (App.storageCid Sample.token2) Sample.owner_session)
     = Js.Throw (Js.Error "storage node offline")
  /\ App.trace (snd (App.fetchCidBase64 Sample.browser_client_offline
                       (App.storageCid Sample.token2) Sample.owner_session))
     = [App.GlobalDownload (App.storageCid Sample.token2)]
  /\ App.trace (snd (App.fetchCidBase64 (Sample.browser Sample.owner_signer)
                       "0xda25" Sample.owner_bare_gateway))
     = [App.ImportSdk; App.HttpGet "https://gw.example/cid/da25"].
Proof. repeat split. Qed.

(** C5, amended.  [fetchCidBase64] picks its strategy in this order.  When
    [window.OGStorage] has a [download] function, that download alone is
    used: its outcome, success or failure, is the outcome of the fetch.
    Otherwise the SDK is imported and, when its [download] gives a payload,
    that is the outcome.  Otherwise (the import fails, there is no [download],
    or it throws) the gateway is used: with no gateway configured the fetch
    fails; else there is a GET of the gateway, a slash unless the gateway ends
    with one, and the identifier without a leading "0x"; a failing request or
    a status outside 200..299 makes the fetch fail, and the body, trimmed, is
    the outcome otherwise. *)
Theorem fetchCidBase64_strategy_order :
  forall (env : App.Env) (cid : string) (s : App.State),
    (forall download : string -> Js.Result string,
        App.global_download env = Some download ->
        fst (App.fetchCidBase64 env cid s) = download cid
        /\ App.trace (snd (App.fetchCidBase64 env cid s))
           = App.trace s ++ [App.GlobalDownload cid])
    /\ (forall b64 : string,
           App.global_download env = None ->
           App.sdk_payload env cid = Some b64 ->
           fst (App.fetchCidBase64 env cid s) = Js.Ok b64
           /\ App.trace (snd (App.fetchCidBase64 env cid s))
              = App.trace s ++ [App.ImportSdk; App.SdkDownload cid])
    /\ (App.global_download env = None ->
        App.sdk_payload env cid = None ->
        fst (App.fetchCidBase64 env cid s)
        = if negb (Js.truthy (App.storageGateway s))
          then Js.Throw (Js.Error "No storage gateway configured and 0g SDK not available.")
          else match App.fetch env (App.gateway_url (App.storageGateway s) cid) with
               | Js.Ok res =>
                   if negb (App.ok res)
                   then Js.Throw (Js.Error ("Gateway fetch failed: "
                                            ++ Js.decimal (App.status res)))
                   else match App.text res with
                        | Js.Ok t => Js.Ok (Js.trim t)
                        | Js.Throw e => Js.Throw e
                        end
               | Js.Throw e => Js.Throw e
               end)
    /\ (forall base : string,
           App.gateway_url base cid
           = (base ++ (if Js.endsWith_char base "/" then "" else "/")
                   ++ App.normalizeCid cid)%string).
Proof.
  intros env cid s. split; [|split; [|split]].
  - intros download Hg. apply fetch_global, Hg.
  - intros b64 Hg Hp. apply fetch_sdk; assumption.
  - intros Hg Hp. apply fetch_gateway; assumption.
  - intros base. unfold App.gateway_url.
    destruct (Js.endsWith_char base "/"); reflexivity.
Qed.

Lemma fetchCidBase64_strategy_order_witness :
  (fst (App.fetchCidBase64 Sample.browser_client_offline "0xda25" Sample.owner_session)
   = Js.Throw (Js.Error "storage node offline"))
  /\ (fst (App.fetchCidBase64 Sample.browser_sdk "0xda25" Sample.owner_session)
      = Js.Ok Sample.short_b64)
  /\ (fst (App.fetchCidBase64 Sample.browser_sdk_without_download
             (App.storageCid Sample.token2) Sample.owner_session)
      = Js.Ok Sample.short_b64)
  /\ (fst (App.fetchCidBase64 (Sample.browser Sample.owner_signer) "0xffff"
             Sample.owner_session)
      = Js.Throw (Js.Error "Gateway fetch failed: 404")).
Proof.
  split; [|split; [|split]].
  - exact (proj1 (proj1 (fetchCidBase64_strategy_order
                           Sample.browser_client_offline "0xda25" Sample.owner_session)
                        _ eq_refl)).
  - exact (proj1 (proj1 (proj2 (fetchCidBase64_strategy_order
                                  Sample.browser_sdk "0xda25" Sample.owner_session))
                        Sample.short_b64 eq_refl eq_refl)).
  - exact (proj1 (proj2 (proj2 (fetchCidBase64_strategy_order
                                  Sample.browser_sdk_without_download
                                  (App.storageCid Sample.token2) Sample.owner_session)))
                 eq_refl eq_refl).
  - exact (proj1 (proj2 (proj2 (fetchCidBase64_strategy_order
                                  (Sample.browser Sample.owner_signer) "0xffff"
                                  Sample.owner_session)))
                 eq_refl eq_refl).
Defined.

(** ** Witnesses of the viewer's theorems *)

Lemma decryptBase64Payload_too_short_witness :
  Base64.atob "AAECAwQFBgcICQoL" = Some (string_of_list_byte Sample.nonce)
  /\ String.length (string_of_list_byte Sample.nonce) <= 12
  /\ App.decryptBase64Payload (Sample.browser Sample.owner_signer) "AAECAwQFBgcICQoL"
       (WebCrypto.mkKey "AES-GCM" false [WebCrypto.decrypt_usage]
                        (SHA256.digest (TextEncoder.encode Sample.signature)))
       Sample.owner_session
     = (Js.Throw (Js.Error "Payload too short"), Sample.owner_session).
Proof.
  split; [reflexivity|]. split; [simpl; lia|].
  apply (decryptBase64Payload_too_short _ _ (string_of_list_byte Sample.nonce)).
  - reflexivity.
  - simpl; lia.
Defined.

Lemma handleDownload_guards_witness :
  (exists msg : string,
      App.handleDownload (Sample.browser Sample.stranger_signer) Sample.token2
                         Sample.stranger_session
      = (Js.Ok tt, App.logged (Sample.browser Sample.stranger_signer) msg
                              Sample.stranger_session)
      /\ App.trace (App.logged (Sample.browser Sample.stranger_signer) msg
                               Sample.stranger_session)
         = App.trace Sample.stranger_session)
  /\ (App.handleDownload (Sample.browser Sample.owner_signer) Sample.token2
                         Sample.signerless_session
      = (Js.Ok tt, App.logged (Sample.browser Sample.owner_signer) "Connect wallet first"
                              Sample.signerless_session)
      /\ App.trace (App.logged (Sample.browser Sample.owner_signer) "Connect wallet first"
                               Sample.signerless_session)
         = App.trace Sample.signerless_session)
  /\ (exists msg : string,
         App.handleDownload (Sample.browser Sample.owner_signer) Sample.token1
                            Sample.owner_session
         = (Js.Ok tt, App.logged (Sample.browser Sample.owner_signer) msg
                                 Sample.owner_session)
         /\ App.trace (App.logged (Sample.browser Sample.owner_signer) msg
                                  Sample.owner_session)
            = App.trace Sample.owner_session).
Proof.
  split; [|split].
  - refine (proj1 (handleDownload_guards (Sample.browser Sample.stranger_signer)
                     Sample.token2 Sample.stranger_session)
                  "0x00000000000000000000000000000000deadbeef" eq_refl _).
    vm_compute. discriminate.
  - exact (proj1 (proj2 (handleDownload_guards (Sample.browser Sample.owner_signer)
                           Sample.token2 Sample.signerless_session))
                 eq_refl).
  - exact (proj2 (proj2 (handleDownload_guards (Sample.browser Sample.owner_signer)
                           Sample.token1 Sample.owner_session))
                 eq_refl).
Defined.

Lemma fetchCidBase64_no_gateway_witness :
  fst (App.fetchCidBase64 (Sample.browser Sample.owner_signer)
         (App.storageCid Sample.token2) Sample.owner_no_gateway)
  = Js.Throw (Js.Error "No storage gateway configured and 0g SDK not available.")
  /\ App.trace (snd (App.fetchCidBase64 (Sample.browser Sample.owner_signer)
                       (App.storageCid Sample.token2) Sample.owner_no_gateway))
     = App.trace Sample.owner_no_gateway ++ [App.ImportSdk].
Proof.
  apply fetchCidBase64_no_gateway.
  - reflexivity.
  - intros sdk H. discriminate H.
  - reflexivity.
Defined.

Lemma decryptBase64Payload_roundtrip_witness :
  List.length Sample.nonce = 12
  /\ App.decryptBase64Payload (Sample.browser Sample.owner_signer)
       (Base64.btoa
          (string_of_list_byte
             (Sample.nonce ++ GCM.encrypt (repeat x2a 32) Sample.nonce [] Sample.plaintext)))
       (WebCrypto.mkKey "AES-GCM" true [WebCrypto.encrypt_usage; WebCrypto.decrypt_usage]
                        (repeat x2a 32))
       Sample.owner_session
     = (Js.Ok Sample.plaintext,
        App.record_event
          (App.Decrypt Sample.nonce
             (WebCrypto.mkKey "AES-GCM" true
                              [WebCrypto.encrypt_usage; WebCrypto.decrypt_usage]
                              (repeat x2a 32))
             (GCM.encrypt (repeat x2a 32) Sample.nonce [] Sample.plaintext))
          Sample.owner_session)
  /\ fst (Js.bind (App.deriveKeyFromSignature (Sample.browser Sample.owner_signer)
                                              Sample.signature)
                  (fun key =>
                     App.decryptBase64Payload (Sample.browser Sample.owner_signer)
                       (Base64.btoa
                          (string_of_list_byte
                             (Sample.nonce
                                ++ GCM.encrypt
                                     (SHA256.digest (TextEncoder.encode Sample.signature))
                                     Sample.nonce [] Sample.plaintext)))
                       key)
                  Sample.owner_session)
     = Js.Ok Sample.plaintext.
Proof.
  split; [reflexivity|].
  split.
  - exact (proj1 (decryptBase64Payload_roundtrip (Sample.browser Sample.owner_signer)
                    Sample.nonce Sample.plaintext eq_refl)
                 (WebCrypto.mkKey "AES-GCM" true
                                  [WebCrypto.encrypt_usage; WebCrypto.decrypt_usage]
                                  (repeat x2a 32))
                 Sample.owner_session eq_refl eq_refl).
  - exact (proj2 (decryptBase64Payload_roundtrip (Sample.browser Sample.owner_signer)
                    Sample.nonce Sample.plaintext eq_refl)
                 Sample.signature Sample.owner_session).
Defined.

(* ================================================================= *)
(** * More of the viewer *)

(** ** Running the component step by step *)

Section Steps.
Import Js App Run.
Variable env : Env.

Lemma bind_run {A B} (m : M State A) (k : A -> M State B) (s : State) :
  bind m k s = match m s with
               | (Ok a, s') => k a s'
               | (Throw e, s') => (Throw e, s')
               end.
Proof. reflexivity. Qed.

Lemma bind_addLog {B} (msg : string) (k : unit -> M State B) (s : State) :
  bind (addLog env msg) k s = k tt (logged env msg s).
Proof. reflexivity. Qed.

Lemma bind_tick {B} (k : nat -> M State B) (s : State) :
  bind tick k s = k (clock s) (clock_read s).
Proof. reflexivity. Qed.

Lemma bind_emit {B} (ev : Event) (k : unit -> M State B) (s : State) :
  bind (emit ev) k s = k tt (record_event ev s).
Proof. reflexivity. Qed.

Lemma bind_gets {A B} (f : State -> A) (k : A -> M State B) (s : State) :
  bind (gets f) k s = k (f s) s.
Proof. reflexivity. Qed.

Lemma bind_call {A B} (ev : Event) (r : Result A) (k : A -> M State B) (s : State) :
  bind (call ev r) k s = match r with
                         | Ok a => k a (record_event ev s)
                         | Throw e => (Throw e, record_event ev s)
                         end.
Proof. unfold call, bind, emit, modify, await. destruct r; reflexivity. Qed.

(** [decryptBase64Payload], case by case. *)
Lemma decryptBase64Payload_run (base64 : string) (key : WebCrypto.CryptoKey) (s : State) :
  decryptBase64Payload env base64 key s
  = match Base64.atob base64 with
    | None =>
        (Throw (JsError "InvalidCharacterError"
                        (dom_message env WebCrypto.InvalidCharacterError)), s)
    | Some binaryString =>
        let bytes := list_byte_of_string binaryString in
        if Nat.leb (List.length bytes) 12
        then (Throw (Error "Payload too short"), s)
        else
          match WebCrypto.decrypt_AES_GCM (firstn 12 bytes) key (skipn 12 bytes) with
          | inr plain =>
              (Ok plain, record_event (Decrypt (firstn 12 bytes) key (skipn 12 bytes)) s)
          | inl e =>
              (Throw (JsError (WebCrypto.error_name e) (dom_message env e)),
               record_event (Decrypt (firstn 12 bytes) key (skipn 12 bytes)) s)
          end
    end.
Proof.
  unfold decryptBase64Payload, base64ToBytes. rewrite bind_run.
  cbn [String.eqb typeof_window Ascii.eqb Bool.eqb].
  destruct (Base64.atob base64) as [bin|]; [|reflexivity].
  cbn [ret]. cbv zeta.
  destruct (Nat.leb (List.length (list_byte_of_string bin)) 12); [reflexivity|].
  destruct (WebCrypto.decrypt_AES_GCM _ key _); reflexivity.
Qed.

(** [handleDownload] past its guards, step by step. *)
Lemma handleDownload_steps (token : Token) (s : State) (sg : Signer) (address : string) :
  signer s = Some sg ->
  connectedAddress s = Some address ->
  toLowerCase address = OWNER_ADDRESS ->
  truthy (storageCid token) = true ->
  handleDownload env token s
  = let challenge := challenge_at env token s in
    let s3 := record_event (SignMessage challenge)
                (logged env "Signing challenge..." (clock_read s)) in
    match signMessage sg challenge with
    | Throw e => download_failed env e s3
    | Ok signature =>
        let sigBytes := TextEncoder.encode signature in
        let hash := SHA256.digest sigBytes in
        let key := WebCrypto.mkKey "AES-GCM" false [WebCrypto.decrypt_usage] hash in
        let s6 := logged env "Fetching encrypted payload (base64)..."
                    (record_event (ImportKey hash)
                       (record_event (Digest sigBytes)
                          (logged env "Signature obtained. Deriving key..." s3))) in
        match fetchCidBase64 env (storageCid token) s6 with
        | (Throw e, s7) => download_failed env e s7
        | (Ok b64, s7) =>
            match decryptBase64Payload env b64 key (logged env "Decrypting..." s7) with
            | (Throw e, s9) => download_failed env e s9
            | (Ok plainBytes, s9) =>
                (Ok tt,
                 logged env ("Download complete: " ++ fileName token)
                   (record_event
                      (SaveFile (or_else (fileName token) "download.bin") plainBytes) s9))
            end
        end
    end.
Proof.
  intros Hs Ha Ho Hc.
  assert (Ht : truthy address = true).
  { destruct address; [|reflexivity]. discriminate Ho. }
  unfold handleDownload. rewrite !bind_gets, Hs, Ha, Ht, Ho, Hc.
  rewrite String.eqb_refl. cbn [negb].
  unfold try_catch. rewrite bind_tick. cbv beta zeta.
  fold (challenge_at env token s).
  rewrite bind_addLog, bind_call.
  destruct (signMessage sg (challenge_at env token s)) as [signature|e].
  2:{ unfold download_failed. rewrite bind_emit. reflexivity. }
  rewrite bind_addLog, bind_run, deriveKeyFromSignature_run.
  rewrite bind_addLog, bind_run.
  destruct (fetchCidBase64 env (storageCid token) _) as [[b64|e] s7].
  2:{ unfold download_failed. rewrite bind_emit. reflexivity. }
  rewrite bind_addLog, bind_run.
  destruct (decryptBase64Payload env b64 _ _) as [[plain|e] s9].
  2:{ unfold download_failed. rewrite bind_emit. reflexivity. }
  rewrite bind_emit. reflexivity.
Qed.

End Steps.

(** ** What a run can change, and what it depends on *)

Section Frames.
Import Js App Run.
Variable env : Env.

Lemma grows_refl P s : grows P s s.
Proof.
  repeat split. exists []. split; [symmetry; apply app_nil_r | reflexivity].
Qed.

Lemma grows_trans P s1 s2 s3 : grows P s1 s2 -> grows P s2 s3 -> grows P s1 s3.
Proof.
  intros (A1 & B1 & C1 & D1 & e1 & T1 & F1) (A2 & B2 & C2 & D2 & e2 & T2 & F2).
  repeat split; try congruence.
  exists (e1 ++ e2). split.
  - rewrite T2, T1. symmetry. apply app_assoc.
  - rewrite forallb_app, F1, F2. reflexivity.
Qed.

Lemma grows_logged P msg s : grows P s (logged env msg s).
Proof.
  repeat split. exists []. split; [symmetry; apply app_nil_r | reflexivity].
Qed.

Lemma grows_event (P : Event -> bool) ev s : P ev = true -> grows P s (record_event ev s).
Proof.
  intros H. repeat split. exists [ev]. split; [reflexivity|]. simpl. rewrite H. reflexivity.
Qed.

Lemma only_ret {A} P (a : A) : only P (ret a).
Proof. intros s. apply grows_refl. Qed.

Lemma only_throw {A} P e : only P (@throw State A e).
Proof. intros s. apply grows_refl. Qed.

Lemma only_await {A} P (r : Result A) : only P (await r).
Proof. intros s. apply grows_refl. Qed.

Lemma only_gets {A} P (f : State -> A) : only P (gets f).
Proof. intros s. apply grows_refl. Qed.

Lemma only_addLog P msg : only P (addLog env msg).
Proof. intros s. apply grows_logged. Qed.

Lemma only_tick P : only P tick.
Proof.
  intros s. repeat split. exists []. split; [symmetry; apply app_nil_r | reflexivity].
Qed.

Lemma only_emit (P : Event -> bool) ev : P ev = true -> only P (emit ev).
Proof. intros H s. apply grows_event, H. Qed.

Lemma only_bind {A B} P (m : M State A) (k : A -> M State B) :
  only P m -> (forall a, only P (k a)) -> only P (bind m k).
Proof.
  intros Hm Hk s. unfold bind. specialize (Hm s).
  destruct (m s) as [[a|e] s']; simpl in *; [|exact Hm].
  eapply grows_trans; [exact Hm | apply Hk].
Qed.

Lemma only_try_catch {A} P (m : M State A) (h : Thrown -> M State A) :
  only P m -> (forall e, only P (h e)) -> only P (try_catch m h).
Proof.
  intros Hm Hh s. unfold try_catch. specialize (Hm s).
  destruct (m s) as [[a|e] s']; simpl in *; [exact Hm|].
  eapply grows_trans; [exact Hm | apply Hh].
Qed.

Lemma only_call {A} (P : Event -> bool) ev (r : Result A) :
  P ev = true -> only P (call ev r).
Proof.
  intros H. apply only_bind; [apply only_emit, H | intros; apply only_await].
Qed.

Lemma only_subtle {A} (P : Event -> bool) ev (r : WebCrypto.DomError + A) :
  P ev = true -> only P (subtle env ev r).
Proof.
  intros H. apply only_bind; [apply only_emit, H|]. intros _.
  destruct r; [apply only_throw | apply only_ret].
Qed.

(** One step through a computation that only logs and adds events. *)
Ltac only_step :=
  match goal with
  | |- only _ (bind _ _) => apply only_bind; [|intro]
  | |- only _ (try_catch _ _) => apply only_try_catch; [|intro]
  | |- only _ (ret _) => apply only_ret
  | |- only _ (throw _) => apply only_throw
  | |- only _ (DOMException _ _) => apply only_throw
  | |- only _ (await _) => apply only_await
  | |- only _ (gets _) => apply only_gets
  | |- only _ (addLog _ _) => apply only_addLog
  | |- only _ tick => apply only_tick
  | |- only _ (emit _) => apply only_emit; reflexivity
  | |- only _ (call _ _) => apply only_call; reflexivity
  | |- only _ (subtle _ _ _) => apply only_subtle; reflexivity
  | |- only _ (match ?x with _ => _ end) => destruct x
  end.

Lemma only_fetchCidBase64 cid : only fetch_event (fetchCidBase64 env cid).
Proof. unfold fetchCidBase64, try_sdk. repeat only_step. Qed.

Lemma only_decryptBase64Payload b64 key :
  only decrypt_event (decryptBase64Payload env b64 key).
Proof. unfold decryptBase64Payload, base64ToBytes. repeat only_step. Qed.

Lemma only_handleDownload token : only (fun _ => true) (handleDownload env token).
Proof.
  unfold handleDownload, deriveKeyFromSignature, fetchCidBase64, try_sdk,
    decryptBase64Payload, base64ToBytes.
  repeat only_step.
Qed.

(** Two runs from states with the same gateway. *)
Lemma uniform_ret {A} (a : A) : uniform (ret a).
Proof.
  intros s1 s2 H. exists []. rewrite !app_nil_r. repeat split. exact H.
Qed.

Lemma uniform_throw {A} e : uniform (@throw State A e).
Proof.
  intros s1 s2 H. exists []. rewrite !app_nil_r. repeat split. exact H.
Qed.

Lemma uniform_await {A} (r : Result A) : uniform (await r).
Proof.
  intros s1 s2 H. exists []. rewrite !app_nil_r. repeat split. exact H.
Qed.

Lemma uniform_gateway : uniform (gets storageGateway).
Proof.
  intros s1 s2 H. exists []. rewrite !app_nil_r. repeat split; simpl; congruence.
Qed.

Lemma uniform_addLog msg : uniform (addLog env msg).
Proof.
  intros s1 s2 H. exists []. rewrite !app_nil_r. repeat split. exact H.
Qed.

Lemma uniform_emit ev : uniform (emit ev).
Proof. intros s1 s2 H. exists [ev]. repeat split. exact H. Qed.

Lemma uniform_bind {A B} (m : M State A) (k : A -> M State B) :
  uniform m -> (forall a, uniform (k a)) -> uniform (bind m k).
Proof.
  intros Hm Hk s1 s2 H. unfold bind.
  destruct (Hm s1 s2 H) as (e1 & F & T1 & T2 & G).
  destruct (m s1) as [r1 s1'], (m s2) as [r2 s2']. simpl in *. subst r2.
  destruct r1 as [a|e].
  - destruct (Hk a s1' s2' G) as (e2 & F' & T1' & T2' & G').
    exists (e1 ++ e2). rewrite T1', T2', T1, T2, !app_assoc. repeat split; assumption.
  - exists e1. repeat split; assumption.
Qed.

Lemma uniform_try_catch {A} (m : M State A) (h : Thrown -> M State A) :
  uniform m -> (forall e, uniform (h e)) -> uniform (try_catch m h).
Proof.
  intros Hm Hh s1 s2 H. unfold try_catch.
  destruct (Hm s1 s2 H) as (e1 & F & T1 & T2 & G).
  destruct (m s1) as [r1 s1'], (m s2) as [r2 s2']. simpl in *. subst r2.
  destruct r1 as [a|e].
  - exists e1. repeat split; assumption.
  - destruct (Hh e s1' s2' G) as (e2 & F' & T1' & T2' & G').
    exists (e1 ++ e2). rewrite T1', T2', T1, T2, !app_assoc. repeat split; assumption.
Qed.

Lemma uniform_call {A} ev (r : Result A) : uniform (call ev r).
Proof. apply uniform_bind; [apply uniform_emit | intros; apply uniform_await]. Qed.

Ltac uniform_step :=
  match goal with
  | |- uniform (bind _ _) => apply uniform_bind; [|intro]
  | |- uniform (try_catch _ _) => apply uniform_try_catch; [|intro]
  | |- uniform (ret _) => apply uniform_ret
  | |- uniform (throw _) => apply uniform_throw
  | |- uniform (await _) => apply uniform_await
  | |- uniform (gets storageGateway) => apply uniform_gateway
  | |- uniform (addLog _ _) => apply uniform_addLog
  | |- uniform (emit _) => apply uniform_emit
  | |- uniform (call _ _) => apply uniform_call
  | |- uniform (match ?x with _ => _ end) => destruct x
  end.

Lemma uniform_fetchCidBase64 cid : uniform (fetchCidBase64 env cid).
Proof. unfold fetchCidBase64, try_sdk. repeat uniform_step. Qed.

(** The run of [fetchCidBase64] from any state, by its run from a blank one. *)
Lemma fetch_from_blank cid s :
  fst (fetchCidBase64 env cid s) = fetch_outcome env (storageGateway s) cid
  /\ trace (snd (fetchCidBase64 env cid s))
     = trace s ++ fetch_events env (storageGateway s) cid.
Proof.
  destruct (uniform_fetchCidBase64 cid s (blank (storageGateway s)) eq_refl)
    as (evs & F & T1 & T2 & _).
  unfold fetch_outcome, fetch_events. rewrite T2. split; assumption.
Qed.

End Frames.

(** ** The handlers catch what is thrown *)

Section Total.
Import Js App Run.
Variable env : Env.

Lemma total_ret {A} (a : A) : total (@ret State A a).
Proof. intros s. exists a. reflexivity. Qed.

Lemma total_gets {A} (f : State -> A) : total (gets f).
Proof. intros s. exists (f s). reflexivity. Qed.

Lemma total_modify (f : State -> State) : total (modify f).
Proof. intros s. exists tt. reflexivity. Qed.

Lemma total_addLog msg : total (addLog env msg).
Proof. intros s. exists tt. reflexivity. Qed.

Lemma total_bind {A B} (m : M State A) (k : A -> M State B) :
  total m -> (forall a, total (k a)) -> total (bind m k).
Proof.
  intros Hm Hk s. unfold bind. destruct (Hm s) as (a & E).
  destruct (m s) as [r s']. simpl in E. subst r. apply Hk.
Qed.

Lemma total_try_catch {A} (m : M State A) (h : Thrown -> M State A) :
  (forall e, total (h e)) -> total (try_catch m h).
Proof.
  intros Hh s. unfold try_catch. destruct (m s) as [[a|e] s'].
  - exists a. reflexivity.
  - apply Hh.
Qed.

Ltac total_step :=
  match goal with
  | |- total (bind _ _) => apply total_bind; [|intro]
  | |- total (try_catch _ _) => apply total_try_catch; intro
  | |- total (ret _) => apply total_ret
  | |- total (gets _) => apply total_gets
  | |- total (addLog _ _) => apply total_addLog
  | |- total (emit _) => apply total_modify
  | |- total (setProvider _) => apply total_modify
  | |- total (setSigner _) => apply total_modify
  | |- total (setConnectedAddress _) => apply total_modify
  | |- total (setStorageGateway _) => apply total_modify
  | |- total (match ?x with _ => _ end) => destruct x
  end.

Lemma total_perform a : total (perform env a).
Proof.
  destruct a; cbn [perform].
  - unfold connectWalletConnect. repeat total_step.
  - unfold disconnect. repeat total_step.
  - apply total_modify.
  - unfold handleDownload. repeat total_step.
Qed.

End Total.

(** X1.  No action of the page lets an exception out: connecting,
    disconnecting, typing the gateway and downloading all return, whatever
    the wallet, the storage and the network throw.  So does a whole session. *)
Theorem actions_never_throw :
  forall (env : App.Env) (a : App.Action) (s : App.State),
    fst (App.perform env a s) = Js.Ok tt.
Proof.
  intros env a s. destruct (total_perform env a s) as ([] & E). exact E.
Qed.

(** ** What [decryptBase64Payload] accepts *)

Section Decrypt_facts.
Import Js App.

Lemma bytes_eqb_eq u v : GCM.bytes_eqb u v = true -> u = v.
Proof.
  unfold GCM.bytes_eqb. destruct (list_eq_dec Byte.byte_eq_dec u v); [auto|discriminate].
Qed.

Lemma bytes_eqb_neq u v : u <> v -> GCM.bytes_eqb u v = false.
Proof.
  unfold GCM.bytes_eqb. destruct (list_eq_dec Byte.byte_eq_dec u v); [contradiction|auto].
Qed.

(** What decrypts was as long as the data without its tag. *)
Lemma GCM_decrypt_length key iv aad data plain :
  GCM.decrypt key iv aad data = Some plain ->
  List.length plain = List.length data - 16.
Proof.
  unfold GCM.decrypt. cbv zeta.
  destruct (GCM.bytes_eqb _ _); [|discriminate].
  intros E. injection E as <-. rewrite GCTR_length, length_firstn. lia.
Qed.

(** The ciphertext and the tag in what encryption gives. *)
Lemma GCM_encrypt_parts key iv aad p :
  let E := AES.encrypt_block key in
  let j0 := GCM.J0 (E 0%N) iv in
  let c := GCM.GCTR E (GCM.inc32 j0) p in
  firstn (List.length p) (GCM.encrypt key iv aad p) = c
  /\ skipn (List.length p) (GCM.encrypt key iv aad p) = GCM.tag E (E 0%N) j0 aad c.
Proof.
  cbv zeta. unfold GCM.encrypt. cbv zeta.
  set (E := AES.encrypt_block key). set (j0 := GCM.J0 (E 0%N) iv).
  pose proof (GCTR_length E (GCM.inc32 j0) p) as L.
  set (c := GCM.GCTR E (GCM.inc32 j0) p) in *.
  split; [apply firstn_prefix | apply skipn_prefix]; exact L.
Qed.

Lemma GCM_decrypt_forged key iv aad p forged :
  List.length forged = 16 ->
  forged <> skipn (List.length p) (GCM.encrypt key iv aad p) ->
  GCM.decrypt key iv aad (firstn (List.length p) (GCM.encrypt key iv aad p) ++ forged) = None.
Proof.
  intros Hl Hne.
  destruct (GCM_encrypt_parts key iv aad p) as (Ec & Et). cbv zeta in Ec, Et.
  rewrite Ec in *. rewrite Et in Hne.
  unfold GCM.decrypt. cbv zeta.
  set (E := AES.encrypt_block key) in *. set (j0 := GCM.J0 (E 0%N) iv) in *.
  pose proof (GCTR_length E (GCM.inc32 j0) p) as L.
  set (c := GCM.GCTR E (GCM.inc32 j0) p) in *.
  rewrite length_app, Hl.
  replace (List.length c + 16 - 16) with (List.length c) by lia.
  rewrite (firstn_prefix _ c forged eq_refl), (skipn_prefix _ c forged eq_refl).
  rewrite (bytes_eqb_neq _ _ Hne). reflexivity.
Qed.

End Decrypt_facts.

Lemma decryptBase64Payload_ok_inv :
  forall (env : App.Env) (base64 : string) (key : WebCrypto.CryptoKey)
         (s s' : App.State) (plain : list byte),
    App.decryptBase64Payload env base64 key s = (Js.Ok plain, s') ->
    exists binaryString : string,
      Base64.atob base64 = Some binaryString
      /\ 28 <= String.length binaryString
      /\ List.length plain = String.length binaryString - 28
      /\ WebCrypto.algorithm key = "AES-GCM"
      /\ WebCrypto.has_usage WebCrypto.decrypt_usage (WebCrypto.usages key) = true
      /\ GCM.decrypt (WebCrypto.material key)
                     (firstn 12 (list_byte_of_string binaryString)) []
                     (skipn 12 (list_byte_of_string binaryString))
         = Some plain
      /\ s' = App.record_event
                (App.Decrypt (firstn 12 (list_byte_of_string binaryString)) key
                             (skipn 12 (list_byte_of_string binaryString))) s.
Proof.
  intros env base64 key s s' plain H.
  rewrite decryptBase64Payload_run in H.
  destruct (Base64.atob base64) as [bin|]; [|discriminate].
  exists bin. cbv zeta in H.
  pose proof (list_byte_of_string_length bin) as L.
  set (bytes := list_byte_of_string bin) in *.
  destruct (Nat.leb (List.length bytes) 12) eqn:E12; [discriminate|].
  apply Nat.leb_gt in E12.
  unfold WebCrypto.decrypt_AES_GCM in H.
  destruct (String.eqb (WebCrypto.algorithm key) "AES-GCM") eqn:Ea; [|discriminate].
  destruct (WebCrypto.has_usage WebCrypto.decrypt_usage (WebCrypto.usages key)) eqn:Eu;
    [|discriminate].
  cbn [negb] in H.
  destruct (Nat.ltb (List.length (skipn 12 bytes)) 16) eqn:E16; [discriminate|].
  apply Nat.ltb_ge in E16. rewrite length_skipn in E16.
  destruct (GCM.decrypt (WebCrypto.material key) (firstn 12 bytes) [] (skipn 12 bytes))
    as [p|] eqn:Ed; [|discriminate].
  injection H as -> <-.
  pose proof (GCM_decrypt_length _ _ _ _ _ Ed) as Lp. rewrite length_skipn in Lp.
  apply String.eqb_eq in Ea.
  repeat split; try reflexivity; try assumption; lia.
Qed.

(** X2.  What [decryptBase64Payload] returns is authenticated: it returns
    bytes only when the payload is base64 of at least 28 bytes, the key is an
    AES-GCM key that may decrypt, and AES-GCM decryption under that key, with
    the first 12 bytes as nonce, accepts the rest and gives those bytes,
    which are 28 fewer than the payload's.  [crypto.subtle.decrypt] was then
    called once, and nothing else was done. *)
Theorem decryptBase64Payload_sound :
  forall (env : App.Env) (base64 : string) (key : WebCrypto.CryptoKey)
         (s s' : App.State) (plain : list byte),
    App.decryptBase64Payload env base64 key s = (Js.Ok plain, s') ->
    exists binaryString : string,
      Base64.atob base64 = Some binaryString
      /\ 28 <= String.length binaryString
      /\ List.length plain = String.length binaryString - 28
      /\ WebCrypto.algorithm key = "AES-GCM"
      /\ WebCrypto.has_usage WebCrypto.decrypt_usage (WebCrypto.usages key) = true
      /\ GCM.decrypt (WebCrypto.material key)
                     (firstn 12 (list_byte_of_string binaryString)) []
                     (skipn 12 (list_byte_of_string binaryString))
         = Some plain
      /\ s' = App.record_event
                (App.Decrypt (firstn 12 (list_byte_of_string binaryString)) key
                             (skipn 12 (list_byte_of_string binaryString))) s.
Proof. exact decryptBase64Payload_ok_inv. Qed.

Lemma decryptBase64Payload_sound_witness :
  exists binaryString : string,
    Base64.atob Sample.sealed2 = Some binaryString
    /\ 28 <= String.length binaryString
    /\ List.length Sample.plaintext = String.length binaryString - 28
    /\ WebCrypto.algorithm
         (WebCrypto.mkKey "AES-GCM" false [WebCrypto.decrypt_usage]
                          (SHA256.digest (TextEncoder.encode Sample.signature2)))
       = "AES-GCM"
    /\ WebCrypto.has_usage WebCrypto.decrypt_usage
         (WebCrypto.usages
            (WebCrypto.mkKey "AES-GCM" false [WebCrypto.decrypt_usage]
                             (SHA256.digest (TextEncoder.encode Sample.signature2))))
       = true
    /\ GCM.decrypt
         (WebCrypto.material
            (WebCrypto.mkKey "AES-GCM" false [WebCrypto.decrypt_usage]
                             (SHA256.digest (TextEncoder.encode Sample.signature2))))
         (firstn 12 (list_byte_of_string binaryString)) []
         (skipn 12 (list_byte_of_string binaryString))
       = Some Sample.plaintext
    /\ App.record_event
         (App.Decrypt Sample.nonce
            (WebCrypto.mkKey "AES-GCM" false [WebCrypto.decrypt_usage]
                             (SHA256.digest (TextEncoder.encode Sample.signature2)))
            (GCM.encrypt (SHA256.digest (TextEncoder.encode Sample.signature2))
                         Sample.nonce [] Sample.plaintext))
         Sample.owner_session
       = App.record_event
           (App.Decrypt (firstn 12 (list_byte_of_string binaryString))
              (WebCrypto.mkKey "AES-GCM" false [WebCrypto.decrypt_usage]
                               (SHA256.digest (TextEncoder.encode Sample.signature2)))
              (skipn 12 (list_byte_of_string binaryString)))
           Sample.owner_session.
Proof.
  apply (decryptBase64Payload_sound (Sample.browser Sample.owner_signer) Sample.sealed2
           _ Sample.owner_session).
  vm_compute. reflexivity.
Defined.

(** X3.  A forged tag is refused.  Take what AES-GCM encryption gives for a
    plaintext under a key and a nonce of 12 bytes and put any other 16 bytes
    in place of the tag: [decryptBase64Payload], with a key for the same key
    bytes that may decrypt, throws the [OperationError] of
    [crypto.subtle.decrypt] and returns no bytes. *)
Theorem decryptBase64Payload_rejects_forged_tag :
  forall (env : App.Env) (key : WebCrypto.CryptoKey) (nonce plaintext forged : list byte)
         (s : App.State),
    List.length nonce = 12 ->
    WebCrypto.algorithm key = "AES-GCM" ->
    WebCrypto.has_usage WebCrypto.decrypt_usage (WebCrypto.usages key) = true ->
    List.length forged = 16 ->
    forged <> skipn (List.length plaintext)
                    (GCM.encrypt (WebCrypto.material key) nonce [] plaintext) ->
    fst (App.decryptBase64Payload env
           (Base64.btoa
              (string_of_list_byte
                 (nonce ++ firstn (List.length plaintext)
                                  (GCM.encrypt (WebCrypto.material key) nonce [] plaintext)
                        ++ forged)))
           key s)
    = Js.Throw (Js.JsError "OperationError" (App.dom_message env WebCrypto.OperationError)).
Proof.
  intros env key nonce plaintext forged s Hn Ha Hu Hf Hne.
  rewrite decryptBase64Payload_run, atob_btoa. cbv zeta.
  rewrite list_byte_of_string_of_list_byte.
  set (c := firstn (List.length plaintext)
                   (GCM.encrypt (WebCrypto.material key) nonce [] plaintext)).
  rewrite length_app, Hn.
  replace (Nat.leb (12 + List.length (c ++ forged)) 12) with false
    by (symmetry; apply Nat.leb_gt; rewrite length_app; lia).
  rewrite (firstn_prefix 12 nonce _ Hn), (skipn_prefix 12 nonce _ Hn).
  unfold WebCrypto.decrypt_AES_GCM. rewrite Ha, Hu. cbn [String.eqb negb].
  replace (Nat.ltb (List.length (c ++ forged)) 16) with false
    by (symmetry; apply Nat.ltb_ge; rewrite length_app; lia).
  unfold c. rewrite (GCM_decrypt_forged _ _ _ _ _ Hf Hne). reflexivity.
Qed.

Lemma decryptBase64Payload_rejects_forged_tag_witness :
  fst (App.decryptBase64Payload (Sample.browser Sample.owner_signer)
         (Base64.btoa
            (string_of_list_byte
               (Sample.nonce
                ++ firstn (List.length Sample.plaintext)
                     (GCM.encrypt
                        (WebCrypto.material
                           (WebCrypto.mkKey "AES-GCM" false [WebCrypto.decrypt_usage]
                              (SHA256.digest (TextEncoder.encode Sample.signature2))))
                        Sample.nonce [] Sample.plaintext)
                ++ repeat x00 16)))
         (WebCrypto.mkKey "AES-GCM" false [WebCrypto.decrypt_usage]
            (SHA256.digest (TextEncoder.encode Sample.signature2)))
         Sample.owner_session)
  = Js.Throw (Js.JsError "OperationError"
                (App.dom_message (Sample.browser Sample.owner_signer)
                                 WebCrypto.OperationError)).
Proof.
  apply (decryptBase64Payload_rejects_forged_tag (Sample.browser Sample.owner_signer)
           (WebCrypto.mkKey "AES-GCM" false [WebCrypto.decrypt_usage]
              (SHA256.digest (TextEncoder.encode Sample.signature2)))
           Sample.nonce Sample.plaintext (repeat x00 16) Sample.owner_session).
  - reflexivity.
  - reflexivity.
  - reflexivity.
  - reflexivity.
  - vm_compute. discriminate.
Defined.

(** ** The other handlers, step by step *)

Section More_steps.
Import Js App Run.
Variable env : Env.

Lemma fetchCidBase64_steps (cid : string) (s : State) :
  fetchCidBase64 env cid s
  = let s0 := logged env ("Fetching CID: " ++ cid) s in
    match global_download env with
    | Some download =>
        match download cid with
        | Ok b64 => (Ok b64, logged env "Fetched via global OGStorage"
                                    (record_event (GlobalDownload cid) s0))
        | Throw e => fetch_failed env e (record_event (GlobalDownload cid) s0)
        end
    | None =>
        let s1 := record_event ImportSdk s0 in
        match import_sdk env with
        | Ok m =>
            match sdk_download m with
            | Some download =>
                match download cid with
                | Ok b64 => (Ok b64, logged env "Fetched via @0glabs/0g-ts-sdk.download"
                                            (record_event (SdkDownload cid) s1))
                | Throw _ => via_gateway env cid (record_event (SdkDownload cid) s1)
                end
            | None =>
                via_gateway env cid
                  (if sdk_StorageClient m
                   then logged env
                          "0g SDK loaded but no known download method found. Falling back to gateway."
                          s1
                   else s1)
            end
        | Throw _ => via_gateway env cid s1
        end
    end.
Proof.
  assert (G : forall s2,
             try_catch
               (gateway <- gets storageGateway ;;
                if negb (truthy gateway)
                then throw (Error "No storage gateway configured and 0g SDK not available.")
                else
                  let url := gateway_url gateway cid in
                  res <- call (HttpGet url) (fetch env url) ;;
                  if negb (ok res)
                  then throw (Error ("Gateway fetch failed: " ++ decimal (status res)))
                  else
                    t <- await (text res) ;;
                    addLog env "Fetched via HTTP gateway" ;;
                    ret (trim t))%js
               (fun err => addLog env ("Fetch error: " ++ message_of err) ;; throw err)%js s2
             = via_gateway env cid s2).
  { intros s2. unfold try_catch, via_gateway. rewrite bind_gets.
    destruct (negb (truthy (storageGateway s2))); [reflexivity|].
    cbv zeta. rewrite bind_call.
    destruct (fetch env (gateway_url (storageGateway s2) cid)) as [res|e]; [|reflexivity].
    destruct (negb (ok res)); [reflexivity|].
    rewrite bind_run. unfold await at 1.
    destruct (text res) as [t|e]; reflexivity. }
  unfold fetchCidBase64. rewrite bind_addLog. cbv zeta.
  destruct (global_download env) as [download|].
  - unfold try_catch. rewrite bind_call.
    destruct (download cid) as [b64|e]; reflexivity.
  - unfold try_sdk.
    destruct (import_sdk env) as [m|e] eqn:Ei.
    + destruct (sdk_download m) as [download|] eqn:Ed.
      * destruct (download cid) as [b64|e] eqn:Ec.
        -- unfold try_catch at 1. rewrite bind_run. unfold try_catch at 1.
           rewrite bind_call, Ed, bind_call, Ec. reflexivity.
        -- rewrite <- G. unfold try_catch at 1 3. rewrite bind_run. unfold try_catch at 1.
           rewrite bind_call, Ed, bind_call, Ec. reflexivity.
      * rewrite <- G. unfold try_catch at 1 3. rewrite bind_run. unfold try_catch at 1.
        rewrite bind_call, Ed.
        destruct (sdk_StorageClient m); reflexivity.
    + rewrite <- G. unfold try_catch at 1 3. rewrite bind_run. unfold try_catch at 1.
      rewrite bind_call. reflexivity.
Qed.

Lemma connectWalletConnect_steps (s : State) :
  connectWalletConnect env s
  = let wc := WalletConnectProvider env in
    let s1 := record_event EnableWallet (logged env "Opening WalletConnect..." s) in
    match enable wc with
    | Throw e => connect_failed env e s1
    | Ok _ =>
        let s2 := record_event GetAddress s1 in
        match getAddress (getSigner wc) with
        | Throw e => connect_failed env e s2
        | Ok a =>
            (Ok tt, logged env ("Connected: " ++ toLowerCase a)
                           (with_wallet (toLowerCase a) wc (getSigner wc) s2))
        end
    end.
Proof.
  unfold connectWalletConnect, try_catch. rewrite bind_addLog. cbv zeta.
  rewrite bind_call.
  destruct (enable (WalletConnectProvider env)) as [[]|e].
  2:{ unfold connect_failed. rewrite bind_emit. reflexivity. }
  rewrite bind_call.
  destruct (getAddress (getSigner (WalletConnectProvider env))) as [a|e].
  2:{ unfold connect_failed. rewrite bind_emit. reflexivity. }
  reflexivity.
Qed.

Lemma disconnect_steps (s : State) :
  disconnect env s
  = (Ok tt,
     logged env "Disconnected"
       (without_wallet
          match provider s with
          | Some p =>
              match disconnect_method p with
              | Some _ => record_event DisconnectProvider s
              | None => s
              end
          | None => s
          end)).
Proof.
  unfold disconnect. rewrite bind_gets.
  destruct (provider s) as [p|]; [|reflexivity].
  destruct (disconnect_method p) as [[[]|e]|]; reflexivity.
Qed.

Lemma handleDownload_refused (token : Token) (s : State) :
  guards_pass token s = false ->
  exists msg, handleDownload env token s = (Ok tt, logged env msg s).
Proof.
  unfold guards_pass, handleDownload. rewrite !bind_gets.
  destruct (signer s); [|eexists; reflexivity].
  destruct (connectedAddress s) as [a|]; [|eexists; reflexivity].
  destruct (truthy a); [|eexists; reflexivity].
  destruct (String.eqb (toLowerCase a) OWNER_ADDRESS); [|eexists; reflexivity].
  destruct (truthy (storageCid token)); [discriminate|eexists; reflexivity].
Qed.

Lemma guards_pass_inv (token : Token) (s : State) :
  guards_pass token s = true ->
  exists sg address,
    signer s = Some sg /\ connectedAddress s = Some address
    /\ toLowerCase address = OWNER_ADDRESS /\ truthy (storageCid token) = true.
Proof.
  unfold guards_pass.
  destruct (signer s) as [sg|]; [|discriminate].
  destruct (connectedAddress s) as [a|]; [|discriminate].
  intros H. apply andb_prop in H. destruct H as (H & Hc).
  apply andb_prop in H. destruct H as (_ & He). apply String.eqb_eq in He.
  exists sg, a. repeat split; assumption.
Qed.

End More_steps.

(** ** What [fetchCidBase64] asks of the outside *)

Section Fetch_more.
Import Js App Run.
Variable env : Env.

Lemma newest_logged (msg : string) (s : State) : newest_is env msg (logged env msg s).
Proof. exists (clock s). reflexivity. Qed.

Lemma endsWith_char_slash (g : string) : endsWith_char (g ++ "/") "/" = true.
Proof.
  induction g as [|c g IH]; [reflexivity|].
  cbn [String.append endsWith_char]. rewrite IH.
  destruct (g ++ "/")%string eqn:E; [|reflexivity].
  destruct g; discriminate E.
Qed.

End Fetch_more.

(** X4.  What a run of [fetchCidBase64] asks of the outside is one of five
    things: one download from the global client; the import of the SDK alone;
    the import and one download from the SDK; the import and one GET; or the
    import, one download from the SDK and one GET.  The clients get the
    identifier as it is; the GET is of [gateway_url] of the gateway and the
    identifier.  So there is at most one HTTP request, none before the SDK was
    tried, and none when the global client has a download.  The connection
    and the gateway are left as they were. *)
Theorem fetchCidBase64_requests :
  forall (env : App.Env) (cid : string) (s : App.State),
    let s' := snd (App.fetchCidBase64 env cid s) in
    let url := App.gateway_url (App.storageGateway s) cid in
    (exists evs : list App.Event,
        App.trace s' = App.trace s ++ evs
        /\ In evs [ [App.GlobalDownload cid];
                    [App.ImportSdk];
                    [App.ImportSdk; App.SdkDownload cid];
                    [App.ImportSdk; App.HttpGet url];
                    [App.ImportSdk; App.SdkDownload cid; App.HttpGet url] ]
        /\ (App.global_download env <> None -> evs = [App.GlobalDownload cid]))
    /\ App.connectedAddress s' = App.connectedAddress s
    /\ App.signer s' = App.signer s
    /\ App.provider s' = App.provider s
    /\ App.storageGateway s' = App.storageGateway s.
Proof.
  intros env cid s. cbv zeta.
  rewrite fetchCidBase64_steps. cbv zeta.
  unfold Run.via_gateway, Run.fetch_failed.
  destruct (App.global_download env) as [download|].
  - destruct (download cid); (split; [|repeat split]);
      (eexists; split; [cbn; reflexivity | split; [cbn; tauto | reflexivity] ]).
  - assert (N : forall evs, @None (string -> Js.Result string) <> None
                            -> evs = [App.GlobalDownload cid])
      by (intros evs H; contradiction).
    destruct (App.import_sdk env) as [m|e0];
      [destruct (App.sdk_download m) as [download|];
       [destruct (download cid)|destruct (App.sdk_StorageClient m)]|];
      cbn [App.storageGateway App.record_event App.logged App.with_logs App.clock_read snd];
      try (destruct (negb (Js.truthy (App.storageGateway s)));
           [|cbv zeta;
             destruct (App.fetch env (App.gateway_url (App.storageGateway s) cid)) as [res|e1];
             [destruct (negb (App.ok res)); [|destruct (App.text res)]|] ]);
      (split; [|repeat split]);
      (eexists; split;
       [cbn; rewrite <- ?app_assoc; reflexivity | split; [cbn; tauto | apply N] ]).
Qed.

(** X5.  The newest line of the log tells how [fetchCidBase64] ended.  When
    it throws, the line is "Fetch error: " and the message of what it throws.
    When it returns a payload, the line names the strategy that gave it: the
    global client, when there is one with a download, which returned the
    payload; the SDK, when there is no such client and the imported module's
    download returned the payload; the gateway, when neither is so and the
    payload is the trimmed body of a 2xx answer to the gateway request. *)
Theorem fetchCidBase64_reports :
  forall (env : App.Env) (cid : string) (s : App.State),
    match fst (App.fetchCidBase64 env cid s) with
    | Js.Throw e =>
        Run.newest_is env ("Fetch error: " ++ Js.message_of e)
                      (snd (App.fetchCidBase64 env cid s))
    | Js.Ok b64 =>
        (exists download,
            App.global_download env = Some download
            /\ download cid = Js.Ok b64
            /\ Run.newest_is env "Fetched via global OGStorage"
                             (snd (App.fetchCidBase64 env cid s)))
        \/ (App.global_download env = None
            /\ (exists m download,
                   App.import_sdk env = Js.Ok m
                   /\ App.sdk_download m = Some download
                   /\ download cid = Js.Ok b64)
            /\ Run.newest_is env "Fetched via @0glabs/0g-ts-sdk.download"
                             (snd (App.fetchCidBase64 env cid s)))
        \/ (App.global_download env = None
            /\ App.sdk_payload env cid = None
            /\ (exists res t,
                   App.fetch env (App.gateway_url (App.storageGateway s) cid) = Js.Ok res
                   /\ App.ok res = true
                   /\ App.text res = Js.Ok t
                   /\ b64 = Js.trim t)
            /\ Run.newest_is env "Fetched via HTTP gateway"
                             (snd (App.fetchCidBase64 env cid s)))
    end.
Proof.
  intros env cid s.
  assert (G : forall s2,
             App.storageGateway s2 = App.storageGateway s ->
             match fst (Run.via_gateway env cid s2) with
             | Js.Throw e =>
                 Run.newest_is env ("Fetch error: " ++ Js.message_of e)
                               (snd (Run.via_gateway env cid s2))
             | Js.Ok b64 =>
                 (exists res t,
                     App.fetch env (App.gateway_url (App.storageGateway s) cid) = Js.Ok res
                     /\ App.ok res = true
                     /\ App.text res = Js.Ok t
                     /\ b64 = Js.trim t)
                 /\ Run.newest_is env "Fetched via HTTP gateway"
                                  (snd (Run.via_gateway env cid s2))
             end).
  { intros s2 Hg. unfold Run.via_gateway, Run.fetch_failed. rewrite Hg.
    destruct (negb (Js.truthy (App.storageGateway s)));
      [cbn [fst snd]; apply newest_logged |].
    cbv zeta.
    destruct (App.fetch env (App.gateway_url (App.storageGateway s) cid)) as [res | e1];
      [| cbn [fst snd]; apply newest_logged].
    destruct (App.ok res) eqn:Hok; cbn [negb]; [| cbn [fst snd]; apply newest_logged].
    destruct (App.text res) as [t | e2] eqn:Ht; cbn [fst snd]; [| apply newest_logged].
    split; [| apply newest_logged].
    exists res, t. split; [reflexivity |]. split; [exact Hok |].
    split; [exact Ht | reflexivity]. }
  rewrite fetchCidBase64_steps. cbv zeta.
  destruct (App.global_download env) as [download |] eqn:Hgl.
  - destruct (download cid) as [b64 | e] eqn:Hd; cbn [fst snd].
    + left. exists download. split; [reflexivity |]. split; [exact Hd |].
      apply newest_logged.
    + apply newest_logged.
  - unfold App.sdk_payload.
    destruct (App.import_sdk env) as [m | e0] eqn:Hi.
    + destruct (App.sdk_download m) as [download |] eqn:Hsd.
      * destruct (download cid) as [b64 | e] eqn:Hd.
        -- cbn [fst snd]. right. left. split; [reflexivity |].
           split; [| apply newest_logged].
           exists m, download. split; [reflexivity |]. split; assumption.
        -- match goal with
           | |- context [Run.via_gateway env cid ?s2] =>
               pose proof (G s2 eq_refl) as H;
               destruct (fst (Run.via_gateway env cid s2)) as [b64 | e1]
           end; [| exact H].
           right. right. destruct H as [H1 H2].
           split; [reflexivity |]. split; [reflexivity |]. split; assumption.
      * match goal with
        | |- context [Run.via_gateway env cid ?s2] =>
            assert (Hs2 : App.storageGateway s2 = App.storageGateway s)
              by (destruct (App.sdk_StorageClient m); reflexivity);
            pose proof (G s2 Hs2) as H;
            destruct (fst (Run.via_gateway env cid s2)) as [b64 | e1]
        end; [| exact H].
        right. right. destruct H as [H1 H2].
        split; [reflexivity |]. split; [reflexivity |]. split; assumption.
    + match goal with
      | |- context [Run.via_gateway env cid ?s2] =>
          pose proof (G s2 eq_refl) as H;
          destruct (fst (Run.via_gateway env cid s2)) as [b64 | e1]
      end; [| exact H].
      right. right. destruct H as [H1 H2].
      split; [reflexivity |]. split; [reflexivity |]. split; assumption.
Qed.

(** X6.  The URL of the gateway request does not depend on a final slash of
    the gateway nor on a leading "0x" of the identifier: for a gateway that
    does not end in a slash and an identifier that does not start with "0x",
    all four ways of writing them give the gateway, a slash and the
    identifier. *)
Theorem gateway_url_canonical :
  forall gateway cid : string,
    Js.endsWith_char gateway "/" = false ->
    Js.startsWith cid "0x" = false ->
    App.gateway_url gateway cid = (gateway ++ "/" ++ cid)%string
    /\ App.gateway_url (gateway ++ "/") cid = (gateway ++ "/" ++ cid)%string
    /\ App.gateway_url gateway ("0x" ++ cid) = (gateway ++ "/" ++ cid)%string
    /\ App.gateway_url (gateway ++ "/") ("0x" ++ cid) = (gateway ++ "/" ++ cid)%string.
Proof.
  intros gateway cid Hg Hc.
  assert (N1 : App.normalizeCid cid = cid).
  { unfold App.normalizeCid. rewrite Hc. destruct (negb (Js.truthy cid)); reflexivity. }
  assert (N2 : App.normalizeCid ("0x" ++ cid) = cid).
  { unfold App.normalizeCid. simpl. destruct cid; reflexivity. }
  assert (A : forall a b c : string, ((a ++ b) ++ c = a ++ b ++ c)%string).
  { intros a b c. induction a as [|x a IH]; simpl; [reflexivity|]. rewrite IH. reflexivity. }
  unfold App.gateway_url. cbv zeta.
  rewrite Hg, endsWith_char_slash, N1, N2, A. repeat split.
Qed.

Lemma gateway_url_canonical_witness :
  App.gateway_url "https://gw.example/cid" "da25" = "https://gw.example/cid/da25"
  /\ App.gateway_url "https://gw.example/cid/" "da25" = "https://gw.example/cid/da25"
  /\ App.gateway_url "https://gw.example/cid" "0xda25" = "https://gw.example/cid/da25"
  /\ App.gateway_url "https://gw.example/cid/" "0xda25" = "https://gw.example/cid/da25".
Proof.
  apply (gateway_url_canonical "https://gw.example/cid" "da25"); reflexivity.
Defined.

(** ** A whole download *)

Section Download_facts.
Import Js App Run.
Variable env : Env.

Lemma truthy_nonempty (x : string) : x <> "" -> truthy x = true.
Proof. destruct x; [contradiction|reflexivity]. Qed.

Lemma decrypt_outcome_any_state b64 key s1 s2 :
  fst (decryptBase64Payload env b64 key s1) = fst (decryptBase64Payload env b64 key s2).
Proof.
  rewrite !decryptBase64Payload_run.
  destruct (Base64.atob b64) as [bin|]; [|reflexivity]. cbv zeta.
  destruct (Nat.leb _ 12); [reflexivity|].
  destruct (WebCrypto.decrypt_AES_GCM _ key _); reflexivity.
Qed.

Lemma at_fetch_trace token signature s :
  trace (at_fetch env token signature s)
  = trace s ++ [SignMessage (challenge_at env token s);
                Digest (TextEncoder.encode signature);
                ImportKey (SHA256.digest (TextEncoder.encode signature))].
Proof. cbn. rewrite <- !app_assoc. reflexivity. Qed.

Lemma download_failed_trace e s :
  trace (snd (download_failed env e s)) = trace s ++ [ConsoleError e].
Proof. reflexivity. Qed.

Lemma download_failed_newest e s :
  newest_is env ("Download/decrypt failed: " ++ message_of e) (snd (download_failed env e s)).
Proof. apply newest_logged. Qed.

End Download_facts.

(** X7.  A whole download.  In a state that passes the guards, when the
    wallet signs the challenge, and the fetch gives a base64 text of a nonce
    of 12 bytes followed by what AES-GCM encryption gives for a plaintext
    under the SHA-256 of the signature text and that nonce, [handleDownload]
    does this and nothing else: it asks for the signature of the challenge,
    hashes the signature, imports the key, fetches, decrypts once, and saves
    the plaintext under the token's file name, or "download.bin" when that is
    empty; the newest log line says the download is complete. *)
Theorem handleDownload_saves_the_plaintext :
  forall (env : App.Env) (token : App.Token) (s : App.State) (sg : App.Signer)
         (address signature b64 : string) (nonce plaintext : list byte),
    App.signer s = Some sg ->
    App.connectedAddress s = Some address ->
    Js.toLowerCase address = App.OWNER_ADDRESS ->
    App.storageCid token <> "" ->
    App.signMessage sg (Run.challenge_at env token s) = Js.Ok signature ->
    List.length nonce = 12 ->
    Run.fetch_outcome env (App.storageGateway s) (App.storageCid token) = Js.Ok b64 ->
    Base64.atob b64
    = Some (string_of_list_byte
              (nonce ++ GCM.encrypt (SHA256.digest (TextEncoder.encode signature))
                                    nonce [] plaintext)) ->
    let hash := SHA256.digest (TextEncoder.encode signature) in
    let key := WebCrypto.mkKey "AES-GCM" false [WebCrypto.decrypt_usage] hash in
    App.trace (snd (App.handleDownload env token s))
    = App.trace s
      ++ [App.SignMessage (Run.challenge_at env token s);
          App.Digest (TextEncoder.encode signature);
          App.ImportKey hash]
      ++ Run.fetch_events env (App.storageGateway s) (App.storageCid token)
      ++ [App.Decrypt nonce key (GCM.encrypt hash nonce [] plaintext);
          App.SaveFile (Js.or_else (App.fileName token) "download.bin") plaintext]
    /\ Run.newest_is env ("Download complete: " ++ App.fileName token)
                     (snd (App.handleDownload env token s)).
Proof.
  intros env token s sg address signature b64 nonce plaintext
         Hs Ha Ho Hc Hsig Hn Hf Hb hash key.
  rewrite (handleDownload_steps env token s sg address Hs Ha Ho (truthy_nonempty _ Hc)).
  cbv zeta. rewrite Hsig.
  fold (Run.at_fetch env token signature s).
  destruct (fetch_from_blank env (App.storageCid token) (Run.at_fetch env token signature s))
    as (F & T).
  change (App.storageGateway (Run.at_fetch env token signature s))
    with (App.storageGateway s) in F, T.
  rewrite Hf in F. rewrite at_fetch_trace in T.
  destruct (App.fetchCidBase64 env (App.storageCid token) (Run.at_fetch env token signature s))
    as [r s7].
  cbn [fst snd] in F, T. subst r.
  rewrite decryptBase64Payload_run, Hb. cbv zeta.
  rewrite list_byte_of_string_of_list_byte.
  rewrite length_app, encrypt_length, Hn.
  replace (Nat.leb (12 + (List.length plaintext + 16)) 12) with false
    by (symmetry; apply Nat.leb_gt; lia).
  rewrite (firstn_prefix 12 nonce _ Hn), (skipn_prefix 12 nonce _ Hn).
  fold hash. fold key.
  pose proof (subtle_decrypt_encrypt key nonce plaintext eq_refl eq_refl) as D.
  change (WebCrypto.material key) with hash in D. rewrite D.
  split; [|apply newest_logged].
  cbn [snd App.trace App.logged App.record_event App.with_logs App.clock_read].
  rewrite T, <- !app_assoc. reflexivity.
Qed.

Lemma handleDownload_saves_the_plaintext_witness :
  App.trace (snd (App.handleDownload Sample.browser_serving Sample.token2
                                     Sample.owner_session))
  = App.trace Sample.owner_session
    ++ [App.SignMessage
          (Run.challenge_at Sample.browser_serving Sample.token2 Sample.owner_session);
        App.Digest (TextEncoder.encode Sample.signature2);
        App.ImportKey (SHA256.digest (TextEncoder.encode Sample.signature2))]
    ++ Run.fetch_events Sample.browser_serving
         (App.storageGateway Sample.owner_session) (App.storageCid Sample.token2)
    ++ [App.Decrypt Sample.nonce
          (WebCrypto.mkKey "AES-GCM" false [WebCrypto.decrypt_usage]
                           (SHA256.digest (TextEncoder.encode Sample.signature2)))
          (GCM.encrypt (SHA256.digest (TextEncoder.encode Sample.signature2))
                       Sample.nonce [] Sample.plaintext);
        App.SaveFile (Js.or_else (App.fileName Sample.token2) "download.bin")
                     Sample.plaintext]
  /\ Run.newest_is Sample.browser_serving
       ("Download complete: " ++ App.fileName Sample.token2)
       (snd (App.handleDownload Sample.browser_serving Sample.token2 Sample.owner_session)).
Proof.
  apply (handleDownload_saves_the_plaintext Sample.browser_serving Sample.token2
           Sample.owner_session Sample.owner_signer
           "0x6f4d829488686afd8d9b68ae56986c312784c0e6" Sample.signature2
           Sample.sealed2 Sample.nonce Sample.plaintext).
  - reflexivity.
  - reflexivity.
  - reflexivity.
  - discriminate.
  - reflexivity.
  - reflexivity.
  - reflexivity.
  - apply atob_btoa.
Defined.

(** X8.  [handleDownload] stops at the first failure.  Past the guards: when
    the wallet refuses to sign, nothing is hashed, fetched or decrypted; when
    the fetch fails, nothing is decrypted; when the payload does not decrypt,
    nothing is saved.  Each time the error goes to the console and the newest
    log line is "Download/decrypt failed: " with its message. *)
Theorem handleDownload_stops_at_first_failure :
  forall (env : App.Env) (token : App.Token) (s : App.State) (sg : App.Signer)
         (address : string),
    App.signer s = Some sg ->
    App.connectedAddress s = Some address ->
    Js.toLowerCase address = App.OWNER_ADDRESS ->
    App.storageCid token <> "" ->
    let challenge := Run.challenge_at env token s in
    let s' := snd (App.handleDownload env token s) in
    let gateway := App.storageGateway s in
    let cid := App.storageCid token in
    (forall e : Js.Thrown,
        App.signMessage sg challenge = Js.Throw e ->
        App.trace s' = App.trace s ++ [App.SignMessage challenge; App.ConsoleError e]
        /\ Run.newest_is env ("Download/decrypt failed: " ++ Js.message_of e) s')
    /\ (forall (signature : string) (e : Js.Thrown),
           App.signMessage sg challenge = Js.Ok signature ->
           Run.fetch_outcome env gateway cid = Js.Throw e ->
           App.trace s'
           = App.trace s
             ++ [App.SignMessage challenge;
                 App.Digest (TextEncoder.encode signature);
                 App.ImportKey (SHA256.digest (TextEncoder.encode signature))]
             ++ Run.fetch_events env gateway cid
             ++ [App.ConsoleError e]
           /\ Run.newest_is env ("Download/decrypt failed: " ++ Js.message_of e) s')
    /\ (forall (signature b64 : string) (e : Js.Thrown),
           App.signMessage sg challenge = Js.Ok signature ->
           Run.fetch_outcome env gateway cid = Js.Ok b64 ->
           fst (App.decryptBase64Payload env b64
                  (WebCrypto.mkKey "AES-GCM" false [WebCrypto.decrypt_usage]
                                   (SHA256.digest (TextEncoder.encode signature)))
                  (Run.blank gateway))
           = Js.Throw e ->
           exists evs : list App.Event,
             App.trace s'
             = App.trace s
               ++ [App.SignMessage challenge;
                   App.Digest (TextEncoder.encode signature);
                   App.ImportKey (SHA256.digest (TextEncoder.encode signature))]
               ++ Run.fetch_events env gateway cid
               ++ evs ++ [App.ConsoleError e]
             /\ forallb Run.decrypt_event evs = true
             /\ Run.newest_is env ("Download/decrypt failed: " ++ Js.message_of e) s').
Proof.
  intros env token s sg address Hs Ha Ho Hc. cbv zeta.
  rewrite (handleDownload_steps env token s sg address Hs Ha Ho (truthy_nonempty _ Hc)).
  cbv zeta. split; [|split].
  - intros e Hsig. rewrite Hsig. split; [|apply download_failed_newest].
    rewrite download_failed_trace. cbn. rewrite <- app_assoc. reflexivity.
  - intros signature e Hsig Hf. rewrite Hsig.
    fold (Run.at_fetch env token signature s).
    destruct (fetch_from_blank env (App.storageCid token)
                (Run.at_fetch env token signature s)) as (F & T).
    change (App.storageGateway (Run.at_fetch env token signature s))
      with (App.storageGateway s) in F, T.
    rewrite Hf in F. rewrite at_fetch_trace in T.
    destruct (App.fetchCidBase64 env (App.storageCid token)
                (Run.at_fetch env token signature s)) as [r s7].
    cbn [fst snd] in F, T. subst r.
    split; [|apply download_failed_newest].
    rewrite download_failed_trace, T, <- !app_assoc. reflexivity.
  - intros signature b64 e Hsig Hf Hd. rewrite Hsig.
    fold (Run.at_fetch env token signature s).
    destruct (fetch_from_blank env (App.storageCid token)
                (Run.at_fetch env token signature s)) as (F & T).
    change (App.storageGateway (Run.at_fetch env token signature s))
      with (App.storageGateway s) in F, T.
    rewrite Hf in F. rewrite at_fetch_trace in T.
    destruct (App.fetchCidBase64 env (App.storageCid token)
                (Run.at_fetch env token signature s)) as [r s7].
    cbn [fst snd] in F, T. subst r.
    set (key := WebCrypto.mkKey "AES-GCM" false [WebCrypto.decrypt_usage]
                                (SHA256.digest (TextEncoder.encode signature))) in *.
    set (s8 := App.logged env "Decrypting..." s7).
    rewrite (decrypt_outcome_any_state env b64 key _ s8) in Hd.
    destruct (only_decryptBase64Payload env b64 key s8) as (_ & _ & _ & _ & evs & Te & Fe).
    destruct (App.decryptBase64Payload env b64 key s8) as [r s9].
    cbn [fst snd] in Hd, Te. subst r.
    exists evs. split; [|split; [exact Fe | apply download_failed_newest] ].
    rewrite download_failed_trace, Te. unfold s8.
    cbn [App.trace App.logged App.with_logs App.clock_read].
    rewrite T, <- !app_assoc. reflexivity.
Qed.

Lemma handleDownload_stops_at_first_failure_witness :
  App.trace (snd (App.handleDownload (Sample.browser Sample.owner_signer) Sample.token2
                                     Sample.owner_no_gateway))
  = App.trace Sample.owner_no_gateway
    ++ [App.SignMessage
          (Run.challenge_at (Sample.browser Sample.owner_signer) Sample.token2
                            Sample.owner_no_gateway);
        App.Digest (TextEncoder.encode Sample.signature2);
        App.ImportKey (SHA256.digest (TextEncoder.encode Sample.signature2))]
    ++ Run.fetch_events (Sample.browser Sample.owner_signer)
         (App.storageGateway Sample.owner_no_gateway) (App.storageCid Sample.token2)
    ++ [App.ConsoleError
          (Js.Error "No storage gateway configured and 0g SDK not available.")]
  /\ Run.newest_is (Sample.browser Sample.owner_signer)
       ("Download/decrypt failed: "
          ++ Js.message_of
               (Js.Error "No storage gateway configured and 0g SDK not available."))
       (snd (App.handleDownload (Sample.browser Sample.owner_signer) Sample.token2
                                Sample.owner_no_gateway)).
Proof.
  refine (proj1 (proj2 (handleDownload_stops_at_first_failure
                          (Sample.browser Sample.owner_signer) Sample.token2
                          Sample.owner_no_gateway Sample.owner_signer
                          "0x6f4d829488686afd8d9b68ae56986c312784c0e6"
                          eq_refl eq_refl eq_refl _))
                Sample.signature2 _ eq_refl eq_refl).
  discriminate.
Defined.

(** X9.  Nothing is saved that was not fetched and decrypted for the owner.
    Whenever a run of [handleDownload] saves a file, the state had a signer
    and an address that is the owner's in lower case, the token has a
    storage identifier, the signer signed the challenge, [fetchCidBase64]
    returned a payload for the token's identifier, the payload is base64,
    and the saved bytes are what AES-GCM decryption, under the SHA-256 of
    the signature text and with the first 12 bytes of the decoded payload as
    nonce, gave for the rest of it; the file name is the token's, or
    "download.bin" when that is empty. *)
Theorem handleDownload_saves_only_what_decrypts :
  forall (env : App.Env) (token : App.Token) (s : App.State)
         (evs : list App.Event) (name : string) (content : list byte),
    App.trace (snd (App.handleDownload env token s)) = App.trace s ++ evs ->
    In (App.SaveFile name content) evs ->
    exists (sg : App.Signer) (address signature b64 binaryString : string),
      App.signer s = Some sg
      /\ App.connectedAddress s = Some address
      /\ Js.toLowerCase address = App.OWNER_ADDRESS
      /\ App.storageCid token <> ""
      /\ App.signMessage sg (Run.challenge_at env token s) = Js.Ok signature
      /\ fst (App.fetchCidBase64 env (App.storageCid token)
                                 (Run.at_fetch env token signature s))
         = Js.Ok b64
      /\ Base64.atob b64 = Some binaryString
      /\ 28 <= String.length binaryString
      /\ GCM.decrypt (SHA256.digest (TextEncoder.encode signature))
                     (firstn 12 (list_byte_of_string binaryString)) []
                     (skipn 12 (list_byte_of_string binaryString))
         = Some content
      /\ name = Js.or_else (App.fileName token) "download.bin".
Proof.
  intros env token s evs name content Ht Hin.
  destruct (Run.guards_pass token s) eqn:G.
  2:{ destruct (handleDownload_refused env token s G) as (msg & E).
      rewrite E in Ht. cbn [snd] in Ht. rewrite logged_trace in Ht.
      rewrite <- (app_nil_r (App.trace s)) in Ht at 1.
      apply app_inv_head in Ht. subst evs. contradiction Hin. }
  destruct (guards_pass_inv token s G) as (sg & address & Hs & Ha & Ho & Hc).
  assert (Hc' : App.storageCid token <> "").
  { intros E. rewrite E in Hc. discriminate Hc. }
  rewrite (handleDownload_steps env token s sg address Hs Ha Ho Hc) in Ht.
  cbv zeta in Ht.
  destruct (App.signMessage sg (Run.challenge_at env token s)) as [signature|e] eqn:Hsig.
  2:{ rewrite download_failed_trace in Ht. cbn in Ht. rewrite <- app_assoc in Ht.
      apply app_inv_head in Ht. subst evs.
      cbn in Hin. destruct Hin as [H|[H|[]]]; discriminate H. }
  fold (Run.at_fetch env token signature s) in Ht.
  destruct (only_fetchCidBase64 env (App.storageCid token)
              (Run.at_fetch env token signature s)) as (_ & _ & _ & _ & fevs & Tf & Ff).
  rewrite at_fetch_trace in Tf.
  destruct (App.fetchCidBase64 env (App.storageCid token)
              (Run.at_fetch env token signature s)) as [[b64|e] s7] eqn:Hfetch;
    cbn [snd] in Tf.
  2:{ rewrite download_failed_trace, Tf, <- !app_assoc in Ht.
      apply app_inv_head in Ht. subst evs.
      rewrite forallb_forall in Ff.
      cbn in Hin. destruct Hin as [H|[H|[H|H]]]; try discriminate H.
      apply in_app_or in H. destruct H as [H|[H|[]]]; [|discriminate H].
      apply Ff in H. discriminate H. }
  set (key := WebCrypto.mkKey "AES-GCM" false [WebCrypto.decrypt_usage]
                              (SHA256.digest (TextEncoder.encode signature))) in *.
  set (s8 := App.logged env "Decrypting..." s7) in *.
  assert (T8 : App.trace s8 = App.trace s7) by reflexivity.
  destruct (only_decryptBase64Payload env b64 key s8) as (_ & _ & _ & _ & devs & Td & Fd).
  destruct (App.decryptBase64Payload env b64 key s8) as [[plain|e] s9] eqn:Hd;
    cbn [snd] in Td.
  2:{ rewrite download_failed_trace, Td, T8, Tf, <- !app_assoc in Ht.
      apply app_inv_head in Ht. subst evs.
      rewrite forallb_forall in Ff, Fd.
      cbn in Hin. destruct Hin as [H|[H|[H|H]]]; try discriminate H.
      apply in_app_or in H. destruct H as [H|H]; [apply Ff in H; discriminate H|].
      apply in_app_or in H. destruct H as [H|[H|[]]]; [|discriminate H].
      apply Fd in H. discriminate H. }
  destruct (decryptBase64Payload_ok_inv env b64 key s8 s9 plain Hd)
    as (bin & Hatob & L28 & _ & _ & _ & Dec & _).
  cbn [snd App.trace App.logged App.record_event App.with_logs App.clock_read] in Ht.
  rewrite Td, T8, Tf, <- !app_assoc in Ht.
  apply app_inv_head in Ht. subst evs.
  rewrite forallb_forall in Ff, Fd.
  cbn in Hin. destruct Hin as [H|[H|[H|H]]]; try discriminate H.
  apply in_app_or in H. destruct H as [H|H]; [apply Ff in H; discriminate H|].
  apply in_app_or in H. destruct H as [H|H]; [apply Fd in H; discriminate H|].
  destruct H as [H|[]]. injection H as <- <-.
  exists sg, address, signature, b64, bin.
  split; [exact Hs |]. split; [exact Ha |]. split; [exact Ho |]. split; [exact Hc' |].
  split; [exact Hsig |]. split; [rewrite Hfetch; reflexivity |].
  split; [exact Hatob |]. split; [exact L28 |]. split; [exact Dec | reflexivity].
Qed.

Lemma handleDownload_saves_only_what_decrypts_witness :
  exists (sg : App.Signer) (address signature b64 binaryString : string),
    App.signer Sample.owner_session = Some sg
    /\ App.connectedAddress Sample.owner_session = Some address
    /\ Js.toLowerCase address = App.OWNER_ADDRESS
    /\ App.storageCid Sample.token2 <> ""
    /\ App.signMessage sg
         (Run.challenge_at Sample.browser_serving Sample.token2 Sample.owner_session)
       = Js.Ok signature
    /\ fst (App.fetchCidBase64 Sample.browser_serving (App.storageCid Sample.token2)
              (Run.at_fetch Sample.browser_serving Sample.token2 signature
                            Sample.owner_session))
       = Js.Ok b64
    /\ Base64.atob b64 = Some binaryString
    /\ 28 <= String.length binaryString
    /\ GCM.decrypt (SHA256.digest (TextEncoder.encode signature))
                   (firstn 12 (list_byte_of_string binaryString)) []
                   (skipn 12 (list_byte_of_string binaryString))
       = Some Sample.plaintext
    /\ "restoreCode.bat" = Js.or_else (App.fileName Sample.token2) "download.bin".
Proof.
  apply (handleDownload_saves_only_what_decrypts Sample.browser_serving Sample.token2
           Sample.owner_session
           [App.SignMessage "0g-download:0x4884f459...02:1700000000000";
            App.Digest (TextEncoder.encode Sample.signature2);
            App.ImportKey (SHA256.digest (TextEncoder.encode Sample.signature2));
            App.ImportSdk;
            App.HttpGet "https://gw.example/cid/da25a5f5ea40e210db8a662801647b655dd2d1030ab89285441c74ced13e2945";
            App.Decrypt Sample.nonce
              (WebCrypto.mkKey "AES-GCM" false [WebCrypto.decrypt_usage]
                               (SHA256.digest (TextEncoder.encode Sample.signature2)))
              (GCM.encrypt (SHA256.digest (TextEncoder.encode Sample.signature2))
                           Sample.nonce [] Sample.plaintext);
            App.SaveFile "restoreCode.bat" Sample.plaintext]).
  - vm_compute. reflexivity.
  - vm_compute. tauto.
Defined.

(** ** Sessions *)

Section Session_facts.
Import Js App Run.
Variable env : Env.

Lemma lower_char_idempotent (c : ascii) : lower_char (lower_char c) = lower_char c.
Proof. destruct c as [[] [] [] [] [] [] [] []]; reflexivity. Qed.

Lemma toLowerCase_idempotent (a : string) : toLowerCase (toLowerCase a) = toLowerCase a.
Proof.
  induction a as [|c a IH]; [reflexivity|].
  cbn [toLowerCase]. rewrite lower_char_idempotent, IH. reflexivity.
Qed.

Lemma connection_ok_same (s s' : State) :
  connectedAddress s' = connectedAddress s -> signer s' = signer s ->
  provider s' = provider s ->
  connection_ok env s -> connection_ok env s'.
Proof.
  intros A B C [(H1 & H2 & H3)|(a & G & H1 & H2 & H3)].
  - left. repeat split; congruence.
  - right. exists a. repeat split; congruence.
Qed.

Lemma perform_connection_ok (a : Action) (s : State) :
  connection_ok env s -> connection_ok env (snd (perform env a s)).
Proof.
  intros H. destruct a; cbn [perform].
  - rewrite connectWalletConnect_steps. cbv zeta.
    destruct (enable (WalletConnectProvider env)) as [[]|e];
      [|apply (connection_ok_same s); [reflexivity..|exact H] ].
    destruct (getAddress (getSigner (WalletConnectProvider env))) as [x|e] eqn:G;
      [|apply (connection_ok_same s); [reflexivity..|exact H] ].
    right. exists x. repeat split. exact G.
  - rewrite disconnect_steps. left. repeat split.
  - apply (connection_ok_same s); [reflexivity..|exact H].
  - destruct (only_handleDownload env token s) as (A & B & C & _).
    apply (connection_ok_same s); assumption.
Qed.

Lemma session_connection_ok (actions : list Action) (s : State) :
  connection_ok env s -> connection_ok env (session env actions s).
Proof.
  revert s. induction actions as [|a actions IH]; intros s H; [exact H|].
  cbn [session fold_left]. apply IH, perform_connection_ok, H.
Qed.

Lemma initial_connection_ok : connection_ok env initial.
Proof. left. repeat split. Qed.

(** Past the guards the first thing asked of the outside is the signature. *)
Lemma handleDownload_signs_first (token : Token) (s : State) :
  guards_pass token s = true ->
  exists rest,
    trace (snd (handleDownload env token s))
    = trace s ++ SignMessage (challenge_at env token s) :: rest.
Proof.
  intros G.
  destruct (guards_pass_inv token s G) as (sg & address & Hs & Ha & Ho & Hc).
  rewrite (handleDownload_steps env token s sg address Hs Ha Ho Hc). cbv zeta.
  destruct (signMessage sg (challenge_at env token s)) as [signature|e].
  2:{ eexists. rewrite download_failed_trace. cbn. rewrite <- app_assoc. reflexivity. }
  fold (at_fetch env token signature s).
  destruct (only_fetchCidBase64 env (storageCid token) (at_fetch env token signature s))
    as (_ & _ & _ & _ & fevs & Tf & _).
  rewrite at_fetch_trace in Tf.
  destruct (fetchCidBase64 env (storageCid token) (at_fetch env token signature s))
    as [[b64|e] s7]; cbn [snd] in Tf.
  2:{ eexists. rewrite download_failed_trace, Tf, <- !app_assoc. reflexivity. }
  match goal with
  | |- context [decryptBase64Payload env b64 ?k ?s8] =>
      destruct (only_decryptBase64Payload env b64 k s8) as (_ & _ & _ & _ & devs & Td & _);
      destruct (decryptBase64Payload env b64 k s8) as [[plain|e] s9]; cbn [snd] in Td
  end.
  - eexists.
    cbn [snd trace logged record_event with_logs clock_read] in *.
    rewrite Td, Tf, <- !app_assoc. reflexivity.
  - eexists. rewrite download_failed_trace, Td.
    cbn [snd trace logged record_event with_logs clock_read] in *.
    rewrite Tf, <- !app_assoc. reflexivity.
Qed.

End Session_facts.

(** X10.  In every state a session reaches, the address, the signer and the
    provider are all there or all missing, and an address that is there is
    the lower-cased address of the wallet's signer: lower-casing it again, as
    [handleDownload] and the page do, changes nothing. *)
Theorem session_connection_is_consistent :
  forall (env : App.Env) (actions : list App.Action),
    let s := App.session env actions App.initial in
    Run.connection_ok env s
    /\ (forall address : string,
           App.connectedAddress s = Some address -> Js.toLowerCase address = address)
    /\ (App.connectedAddress s = None <-> App.signer s = None).
Proof.
  intros env actions s.
  pose proof (session_connection_ok env actions App.initial (initial_connection_ok env))
    as H.
  fold s in H. split; [exact H|].
  destruct H as [(H1 & H2 & H3)|(a & G & H1 & H2 & H3)]; split.
  - intros address E. congruence.
  - tauto.
  - intros address E. rewrite H1 in E. injection E as <-. apply toLowerCase_idempotent.
  - split; intros E; congruence.
Qed.

(** X11.  A wallet that is not the owner's never gets as far as signing.
    When the address of the wallet's signer, in lower case, is not the
    owner's, whatever the user does, in any order and however often, the
    trace holds only the wallet's own events and console errors: nothing is
    signed, fetched, hashed, decrypted or saved. *)
Theorem stranger_session_never_signs :
  forall (env : App.Env) (actions : list App.Action),
    (forall a : string,
        App.getAddress (App.getSigner (App.WalletConnectProvider env)) = Js.Ok a ->
        Js.toLowerCase a <> App.OWNER_ADDRESS) ->
    forallb Run.wallet_event (App.trace (App.session env actions App.initial)) = true.
Proof.
  intros env actions Hno.
  assert (Step : forall a s,
             Run.connection_ok env s ->
             forallb Run.wallet_event (App.trace s) = true ->
             forallb Run.wallet_event (App.trace (snd (App.perform env a s))) = true).
  { intros a s Hok Hw. destruct a; cbn [App.perform].
    - rewrite connectWalletConnect_steps. cbv zeta.
      destruct (App.enable (App.WalletConnectProvider env)) as [[]|e];
        [destruct (App.getAddress (App.getSigner (App.WalletConnectProvider env)))|];
        cbn; rewrite ?forallb_app, Hw; reflexivity.
    - rewrite disconnect_steps.
      destruct (App.provider s) as [p|]; [destruct (App.disconnect_method p)|];
        cbn; rewrite ?forallb_app, Hw; reflexivity.
    - exact Hw.
    - assert (G : Run.guards_pass token s = false).
      { unfold Run.guards_pass.
        destruct Hok as [(H1 & H2 & H3)|(a & G & H1 & H2 & H3)].
        - rewrite H2. reflexivity.
        - rewrite H1, H2. rewrite toLowerCase_idempotent.
          destruct (String.eqb (Js.toLowerCase a) App.OWNER_ADDRESS) eqn:E.
          + apply String.eqb_eq in E. destruct (Hno a G E).
          + rewrite andb_false_r. reflexivity. }
      destruct (handleDownload_refused env token s G) as (msg & E).
      rewrite E. exact Hw. }
  assert (All : forall s,
             Run.connection_ok env s ->
             forallb Run.wallet_event (App.trace s) = true ->
             forallb Run.wallet_event (App.trace (App.session env actions s)) = true).
  { induction actions as [|a actions IH]; intros s Hok Hw; [exact Hw|].
    cbn [App.session fold_left]. apply IH.
    - apply perform_connection_ok, Hok.
    - apply Step; assumption. }
  apply All; [apply initial_connection_ok | reflexivity].
Qed.

Lemma stranger_session_never_signs_witness :
  forallb Run.wallet_event
    (App.trace
       (App.session (Sample.browser Sample.stranger_signer)
          [App.Download Sample.token2; App.Connect;
           App.TypeGateway "https://gw.example/cid/"; App.Download Sample.token2;
           App.Disconnect; App.Download Sample.token2; App.Connect;
           App.Download Sample.token2]
          App.initial))
  = true.
Proof.
  apply stranger_session_never_signs.
  intros a H. injection H as <-. vm_compute. discriminate.
Defined.

(** X12.  The download button and the guards agree.  When the button of a
    token is disabled, [handleDownload] on that token would only write a log
    line.  In every state a session reaches, when the button is enabled,
    [handleDownload] passes its guards: the first thing it asks of the
    outside is the signature of the challenge. *)
Theorem download_button_matches_guards :
  forall (env : App.Env) (token : App.Token),
    (forall s : App.State,
        View.button_disabled s token = true ->
        exists msg : string,
          App.handleDownload env token s = (Js.Ok tt, App.logged env msg s))
    /\ (forall actions : list App.Action,
           let s := App.session env actions App.initial in
           View.button_disabled s token = false ->
           exists rest : list App.Event,
             App.trace (snd (App.handleDownload env token s))
             = App.trace s ++ App.SignMessage (Run.challenge_at env token s) :: rest).
Proof.
  intros env token. split.
  - intros s H. apply handleDownload_refused.
    unfold View.button_disabled, View.allowed in H. unfold Run.guards_pass.
    destruct (App.signer s); [|reflexivity].
    destruct (App.connectedAddress s) as [a|]; [|reflexivity].
    destruct (Js.truthy a && String.eqb (Js.toLowerCase a) App.OWNER_ADDRESS);
      [|reflexivity].
    cbn [negb orb andb] in *. destruct (Js.truthy (App.storageCid token));
      [discriminate H|reflexivity].
  - intros actions s H. apply handleDownload_signs_first.
    pose proof (session_connection_ok env actions App.initial (initial_connection_ok env))
      as Hok.
    fold s in Hok.
    unfold View.button_disabled, View.allowed in H. unfold Run.guards_pass.
    apply orb_false_elim in H. destruct H as (Hal & Hc).
    apply negb_false_iff in Hal, Hc.
    destruct Hok as [(H1 & H2 & H3)|(a & G & H1 & H2 & H3)].
    + rewrite H1 in Hal. discriminate Hal.
    + rewrite H2, H1. rewrite H1 in Hal. rewrite Hal, Hc. reflexivity.
Qed.

(** X13.  After [disconnect] nothing is connected, whatever the provider's
    own [disconnect] did, even when it threw; it was called at most once,
    and the gateway is as it was.  A download asked for then only writes
    "Connect wallet first". *)
Theorem disconnect_clears_the_connection :
  forall (env : App.Env) (s : App.State) (token : App.Token),
    let s' := snd (App.disconnect env s) in
    App.connectedAddress s' = None
    /\ App.signer s' = None
    /\ App.provider s' = None
    /\ App.storageGateway s' = App.storageGateway s
    /\ (App.trace s' = App.trace s
        \/ App.trace s' = App.trace s ++ [App.DisconnectProvider])
    /\ Run.newest_is env "Disconnected" s'
    /\ App.handleDownload env token s'
       = (Js.Ok tt, App.logged env "Connect wallet first" s').
Proof.
  intros env s token. cbv zeta. rewrite disconnect_steps. cbn [snd].
  destruct (App.provider s) as [p|]; [destruct (App.disconnect_method p)|];
    (do 4 (split; [reflexivity|]));
    (split; [cbn; auto | split; [apply newest_logged | reflexivity] ]).
Qed.

(** X14.  [connectWalletConnect] connects all or nothing.  When the wallet
    enables and gives its address, the state gets the address in lower case,
    the signer and the provider.  When enabling fails the address is not asked
    for, and when either fails the address, signer and provider of the state
    stay what they were, also when a wallet was connected before; the error
    goes to the console and the newest log line is "Connection failed: " with
    its message. *)
Theorem connectWalletConnect_all_or_nothing :
  forall (env : App.Env) (s : App.State),
    let wc := App.WalletConnectProvider env in
    let s' := snd (App.connectWalletConnect env s) in
    match App.enable wc, App.getAddress (App.getSigner wc) with
    | Js.Ok _, Js.Ok a =>
        App.connectedAddress s' = Some (Js.toLowerCase a)
        /\ App.signer s' = Some (App.getSigner wc)
        /\ App.provider s' = Some wc
        /\ App.trace s' = App.trace s ++ [App.EnableWallet; App.GetAddress]
        /\ Run.newest_is env ("Connected: " ++ Js.toLowerCase a) s'
    | Js.Ok _, Js.Throw e =>
        App.connectedAddress s' = App.connectedAddress s
        /\ App.signer s' = App.signer s
        /\ App.provider s' = App.provider s
        /\ App.trace s'
           = App.trace s ++ [App.EnableWallet; App.GetAddress; App.ConsoleError e]
        /\ Run.newest_is env ("Connection failed: " ++ Js.message_of e) s'
    | Js.Throw e, _ =>
        App.connectedAddress s' = App.connectedAddress s
        /\ App.signer s' = App.signer s
        /\ App.provider s' = App.provider s
        /\ App.trace s' = App.trace s ++ [App.EnableWallet; App.ConsoleError e]
        /\ Run.newest_is env ("Connection failed: " ++ Js.message_of e) s'
    end.
Proof.
  intros env s. cbv zeta. rewrite connectWalletConnect_steps. cbv zeta.
  destruct (App.enable (App.WalletConnectProvider env)) as [[]|e];
    [destruct (App.getAddress (App.getSigner (App.WalletConnectProvider env)))|];
    (do 3 (split; [reflexivity|]));
    (split; [cbn; rewrite <- ?app_assoc; reflexivity | apply newest_logged]).
Qed.

(** * The proxy, whatever the gateway does *)

(** X15.  Whenever the upstream fetch and the reading of its body settle,
    the handler lets no exception out and Express sends one of three
    replies.  When the body could be read: a 304 without content-type and
    body to a request that is fresh, and to any other a 200 with the
    content-type as [res.set] keeps the one passed, which is never the empty
    string, and with the upstream bytes.  When the fetch or the reading
    failed, and only then: a 500 with the content-type of HTML and the text
    "Proxy error", whatever the validators of the request.  A HEAD request
    gets the same without the body. *)
Theorem ipfs_route_always_replies :
  forall (kept : string -> string) (req : Express.Request)
         (fetch : string -> Js.Result Proxy.Upstream) (gateway cid : string),
    fst (Proxy.ipfs_route fetch gateway cid Proxy.fresh) = Js.Ok tt
    /\ ((exists (r : Proxy.Upstream) (body : list byte) (v : string),
           fetch (gateway ++ cid)%string = Js.Ok r
           /\ Proxy.up_buffer r = Js.Ok body
           /\ v <> ""%string
           /\ Proxy.headers (Proxy.respond fetch gateway cid) = [("content-type"%string, v)]
           /\ Express.sends kept req (Proxy.respond fetch gateway cid)
              = Some (if Express.validators_match req body
                      then Express.mkWire 304 None None
                      else Express.mkWire 200
                             (Some (if Js.truthy (kept v) then kept v
                                    else kept "application/octet-stream"))
                             (if Express.is_HEAD req then None
                              else Some (Proxy.Buffer body))))
        \/ (((exists err, fetch (gateway ++ cid)%string = Js.Throw err)
             \/ (exists r err, fetch (gateway ++ cid)%string = Js.Ok r
                               /\ Proxy.up_buffer r = Js.Throw err))
            /\ Express.sends kept req (Proxy.respond fetch gateway cid)
               = Some (Express.mkWire 500 (Some "text/html; charset=utf-8"%string)
                         (if Express.is_HEAD req then None
                          else Some (Proxy.Text "Proxy error"))))).
Proof.
  intros kept req fetch gateway cid.
  assert (E500 : Express.sends kept req
                   (Proxy.mkReply 500 [] (Some (Proxy.Text "Proxy error")))
                 = Some (Express.mkWire 500 (Some "text/html; charset=utf-8"%string)
                           (if Express.is_HEAD req then None
                            else Some (Proxy.Text "Proxy error")))) by reflexivity.
  destruct (fetch (gateway ++ cid)%string) as [r | err] eqn:Hf.
  - destruct (Proxy.up_buffer r) as [body | err] eqn:Hb.
    + destruct (ipfs_route_passes_content_type fetch gateway cid r body Hf Hb)
        as (v & _ & Hne & E).
      split.
      { unfold Proxy.ipfs_route, Js.try_catch, Js.bind, Js.await. rewrite Hf, Hb.
        reflexivity. }
      left. exists r, body, v.
      split; [reflexivity |]. split; [exact Hb |]. split; [exact Hne |].
      rewrite E. split; [reflexivity |].
      unfold Express.sends.
      cbn [Proxy.sent Proxy.headers Proxy.statusCode Express.header_named].
      change (String.eqb (Js.toLowerCase "content-type") (Js.toLowerCase "content-type"))
        with true.
      cbv iota. rewrite finish_200. reflexivity.
    + assert (E : Proxy.ipfs_route fetch gateway cid Proxy.fresh
                  = (Js.Ok tt, Proxy.mkReply 500 [] (Some (Proxy.Text "Proxy error")))).
      { unfold Proxy.ipfs_route, Js.try_catch, Js.bind, Js.await. rewrite Hf, Hb.
        reflexivity. }
      unfold Proxy.respond. rewrite E. split; [reflexivity |].
      right. split; [| exact E500].
      right. exists r, err. split; [reflexivity | exact Hb].
  - assert (E : Proxy.ipfs_route fetch gateway cid Proxy.fresh
                = (Js.Ok tt, Proxy.mkReply 500 [] (Some (Proxy.Text "Proxy error")))).
    { unfold Proxy.ipfs_route, Js.try_catch, Js.bind, Js.await. rewrite Hf.
      reflexivity. }
    unfold Proxy.respond. rewrite E. split; [reflexivity |].
    right. split; [| exact E500].
    left. exists err. reflexivity.
Qed.

(** * The gallery script *)

Section Gateway_facts.
Import Js Gallery.

Lemma prefix_slice (p s : string) :
  String.prefix p s = true -> s = (p ++ slice_from (String.length p) s)%string.
Proof.
  revert s. induction p as [| a p IH]; intros s H.
  - reflexivity.
  - destruct s as [| b s]; [discriminate |].
    cbn [String.prefix] in H. destruct (ascii_dec a b) as [-> | _]; [| discriminate].
    cbn [String.length slice_from String.append]. f_equal. apply IH, H.
Qed.

Lemma prefix_append (p s : string) : String.prefix p (p ++ s) = true.
Proof.
  induction p as [| a p IH]; [destruct s; reflexivity |].
  cbn [String.append String.prefix]. destruct (ascii_dec a a); [exact IH | congruence].
Qed.

Lemma slice_append (p s : string) : slice_from (String.length p) (p ++ s) = s.
Proof. induction p as [| a p IH]; [reflexivity | exact IH]. Qed.

Lemma ipfsGateway_scheme (rest : string) :
  ipfsGateway ("ipfs://" ++ rest) = ("https://ipfs.io/ipfs/" ++ rest)%string.
Proof.
  unfold ipfsGateway, startsWith.
  rewrite (prefix_append "ipfs://" rest).
  change (truthy ("ipfs://" ++ rest)) with true. cbn [negb].
  change (replace_first "ipfs://" "https://ipfs.io/ipfs/" ("ipfs://" ++ rest))
    with (if String.prefix "ipfs://" ("ipfs://" ++ rest)
          then ("https://ipfs.io/ipfs/"
                ++ slice_from (String.length "ipfs://") ("ipfs://" ++ rest))%string
          else String "i" (replace_first "ipfs://" "https://ipfs.io/ipfs/"
                             ("pfs://" ++ rest))).
  rewrite (prefix_append "ipfs://" rest), (slice_append "ipfs://" rest). reflexivity.
Qed.

Lemma ipfsGateway_other (url : string) :
  startsWith url "ipfs://" = false -> ipfsGateway url = url.
Proof. intros H. unfold ipfsGateway. rewrite H. destruct (negb (truthy url)); reflexivity. Qed.

End Gateway_facts.

(** X16.  [ipfsGateway] rewrites the scheme and nothing else.  A URL that
    starts with "ipfs://" has this start, and only it, replaced by the
    ipfs.io gateway; any other URL, also one with "ipfs://" further in, and
    the empty one, comes back as it is; and what comes back is never
    rewritten again. *)
Theorem ipfsGateway_rewrites_the_scheme :
  (forall rest : string,
      Gallery.ipfsGateway ("ipfs://" ++ rest) = ("https://ipfs.io/ipfs/" ++ rest)%string)
  /\ (forall url : string,
         Js.startsWith url "ipfs://" = false -> Gallery.ipfsGateway url = url)
  /\ (forall url : string,
         Gallery.ipfsGateway (Gallery.ipfsGateway url) = Gallery.ipfsGateway url).
Proof.
  split; [exact ipfsGateway_scheme |]. split; [exact ipfsGateway_other |].
  intros url. destruct (Js.startsWith url "ipfs://") eqn:H.
  - unfold Js.startsWith in H. rewrite (prefix_slice _ _ H).
    rewrite ipfsGateway_scheme. apply ipfsGateway_other. reflexivity.
  - rewrite (ipfsGateway_other _ H). apply ipfsGateway_other, H.
Qed.

Section Gallery_steps.
Import Js Gallery Listing.
Variables J Card : Type.
Variable env : Env J Card.

Lemma run_bind {A B : Type} (m : M (State Card) A) (k : A -> M (State Card) B)
      (s : State Card) :
  bind m k s = match m s with
               | (Ok a, s') => k a s'
               | (Throw e, s') => (Throw e, s')
               end.
Proof. reflexivity. Qed.

Lemma run_try {A : Type} (m : M (State Card) A) (h : Thrown -> M (State Card) A)
      (s : State Card) :
  try_catch m h s = match m s with
                    | (Ok a, s') => (Ok a, s')
                    | (Throw e, s') => h e s'
                    end.
Proof. reflexivity. Qed.

Lemma quiet_app (evs1 evs2 : list Event) : quiet evs1 -> quiet evs2 -> quiet (evs1 ++ evs2).
Proof. unfold quiet. intros H1 H2. rewrite forallb_app, H1, H2. reflexivity. Qed.

Lemma shows_refl (s : State Card) : shows s s [] [].
Proof. unfold shows. rewrite !app_nil_r. repeat split. Qed.

Lemma shows_trans (s s1 s2 : State Card) (c1 c2 : list Card) (e1 e2 : list Event) :
  shows s s1 c1 e1 -> shows s1 s2 c2 e2 -> shows s s2 (c1 ++ c2) (e1 ++ e2).
Proof.
  unfold shows. intros (A1 & A2 & A3 & A4 & A5 & A6 & A7) (B1 & B2 & B3 & B4 & B5 & B6 & B7).
  rewrite B1, B2, B3, B4, B5, B6, B7, A1, A2, A3, A4, A5, A6, A7, !app_assoc.
  repeat split.
Qed.

Lemma shows_event (ev : Event) (s : State Card) : shows s (record_event ev s) [] [ev].
Proof. unfold shows. cbn. rewrite app_nil_r. repeat split. Qed.

Lemma shows_event2 (ev1 ev2 : Event) (s : State Card) :
  shows s (record_event ev2 (record_event ev1 s)) [] [ev1; ev2].
Proof. unfold shows. cbn. rewrite app_nil_r, <- app_assoc. repeat split. Qed.

Lemma shows_events (s s1 s2 : State Card) (e1 e2 : list Event) :
  shows s s1 [] e1 -> shows s1 s2 [] e2 -> shows s s2 [] (e1 ++ e2).
Proof. intros H1 H2. exact (shows_trans _ _ _ _ _ _ _ H1 H2). Qed.

Lemma shows_log (msg : string) (s : State Card) : shows s (snd (log env msg s)) [] [].
Proof. unfold shows. cbn. rewrite !app_nil_r. repeat split. Qed.

Lemma shows_card (c : Card) (s : State Card) : shows s (snd (append_card c s)) [c] [].
Proof. unfold shows. cbn. rewrite app_nil_r. repeat split. Qed.

Lemma since_shows (s s' : State Card) (cards : list Card) (evs : list Event) :
  shows s s' cards evs -> since s s' = evs.
Proof.
  intros (_ & _ & _ & _ & _ & _ & H). unfold since. rewrite H.
  rewrite skipn_app, skipn_all, Nat.sub_diag. reflexivity.
Qed.

Lemma newest_line_log (msg : string) (s : State Card) :
  newest_line env (snd (log env msg s)) msg.
Proof. exists (clock s), (log_text s). split; reflexivity. Qed.

(** [fetchMetadata] returns [metadata]. *)
Lemma fetchMetadata_run (uri : string) (s : State Card) :
  fst (fetchMetadata env uri s) = Ok (metadata env uri)
  /\ exists evs, quiet evs /\ shows s (snd (fetchMetadata env uri s)) [] evs.
Proof.
  unfold fetchMetadata, metadata, try_catch, call, bind, emit, modify, await, throw, ret.
  destruct (fetch env (ipfsGateway uri)) as [r | err]; cbn [fst snd].
  - destruct (ok r); cbn [negb fst snd].
    + destruct (json r) as [m | err]; cbn [fst snd].
      * split; [reflexivity |]. exists [Fetch (ipfsGateway uri)].
        split; [reflexivity | apply shows_event].
      * split; [reflexivity |].
        exists [Fetch (ipfsGateway uri); ConsoleWarn uri err].
        split; [reflexivity | apply shows_event2].
    + split; [reflexivity |].
      exists [Fetch (ipfsGateway uri);
              ConsoleWarn uri (Error ("Status " ++ decimal (status r)))].
      split; [reflexivity | apply shows_event2].
  - split; [reflexivity |].
    exists [Fetch (ipfsGateway uri); ConsoleWarn uri err].
    split; [reflexivity | apply shows_event2].
Qed.

(** A turn of a loop, from the token identifier on: the card of the token
    is added, or making it throws. *)
Lemma show_token_cases (c : Contract) (tokenId : string)
      (h : Thrown -> M (State Card) unit) (s : State Card) :
  (forall err s0, fst (h err s0) = Ok tt
                  /\ exists evs, quiet evs /\ shows s0 (snd (h err s0)) [] evs) ->
  exists evs,
    quiet evs
    /\ match card_of env c tokenId with
       | Ok card => fst (show_token env c tokenId h s) = Ok tt
                    /\ shows s (snd (show_token env c tokenId h s)) [card] evs
       | Throw e => fst (show_token env c tokenId h s) = Throw e
                    /\ shows s (snd (show_token env c tokenId h s)) [] evs
       end.
Proof.
  intros Hh.
  assert (H1 : exists evs1 s1,
             try_catch (call (TokenURI tokenId) (tokenURI c tokenId))
                       (fun err => bind (h err) (fun _ => ret ""%string)) s
             = (Ok (uri_of c tokenId), s1)
             /\ quiet evs1 /\ shows s s1 [] evs1).
  { unfold try_catch, call, bind, emit, modify, await, ret, uri_of.
    destruct (tokenURI c tokenId) as [u | err]; cbn [fst snd].
    - exists [TokenURI tokenId], (record_event (TokenURI tokenId) s).
      split; [reflexivity |]. split; [reflexivity | apply shows_event].
    - destruct (Hh err (record_event (TokenURI tokenId) s)) as (Hf & evs & Hq & Hs).
      destruct (h err (record_event (TokenURI tokenId) s)) as [r s1].
      cbn [fst snd] in Hf, Hs. subst r.
      exists ([TokenURI tokenId] ++ evs), s1.
      split; [reflexivity |]. split; [apply quiet_app; [reflexivity | exact Hq] |].
      exact (shows_events _ _ _ _ _ (shows_event _ _) Hs). }
  destruct H1 as (evs1 & s1 & E1 & Q1 & S1).
  destruct (fetchMetadata_run (uri_of c tokenId) s1) as (F & evs2 & Q2 & S2).
  unfold show_token. rewrite run_bind, E1, run_bind.
  destruct (fetchMetadata env (uri_of c tokenId) s1) as [r2 s2].
  cbn [fst snd] in F, S2. subst r2.
  exists (evs1 ++ evs2). split; [apply quiet_app; assumption |].
  unfold card_of, bind, await.
  destruct (make_card env tokenId (metadata env (uri_of c tokenId))) as [card | e].
  - split; [reflexivity |].
    pose proof (shows_trans _ _ _ _ _ _ _ (shows_events _ _ _ _ _ S1 S2)
                            (shows_card card s2)) as H.
    cbn [List.app] in H. rewrite app_nil_r in H. exact H.
  - split; [reflexivity |]. exact (shows_events _ _ _ _ _ S1 S2).
Qed.

Lemma run_log {B : Type} (msg : string) (k : unit -> M (State Card) B) (s : State Card) :
  bind (log env msg) k s = k tt (snd (log env msg s)).
Proof. reflexivity. Qed.

Lemma nth_error_nil_inv {A : Type} (k : nat) (a : A) : nth_error [] k = Some a -> False.
Proof. destruct k; discriminate. Qed.

(** The loop of [loadOwnerNFTs]: the cards it adds are those of the owner's
    tokens from index [i] on, in order; it ends after [count] of them, or
    quietly at the first index the contract refuses, or with what making a
    card throws. *)
Lemma owner_loop_inv (c : Contract) (owner : string) :
  forall (count i : nat) (s : State Card),
  exists cards evs,
    shows s (snd (owner_loop env c owner count i s)) cards evs
    /\ quiet evs
    /\ List.length cards <= count
    /\ (forall k card,
          nth_error cards k = Some card ->
          exists tokenId, tokenOfOwnerByIndex c owner (i + k) = Ok tokenId
                          /\ card_of env c tokenId = Ok card)
    /\ match fst (owner_loop env c owner count i s) with
       | Ok _ =>
           List.length cards = count
           \/ (List.length cards < count
               /\ (exists err evs0,
                      tokenOfOwnerByIndex c owner (i + List.length cards) = Throw err
                      /\ evs = evs0 ++ [ConsoleError err])
               /\ newest_line env (snd (owner_loop env c owner count i s))
                    "tokenOfOwnerByIndex failed; collection probably not enumerable. Stop.")
       | Throw e =>
           List.length cards < count
           /\ exists tokenId,
                tokenOfOwnerByIndex c owner (i + List.length cards) = Ok tokenId
                /\ card_of env c tokenId = Throw e
       end.
Proof.
  induction count as [| count IH]; intros i s.
  - exists [], []. cbn [owner_loop ret fst snd].
    split; [apply shows_refl |]. split; [reflexivity |]. split; [apply le_n |].
    split; [intros k card H; destruct (nth_error_nil_inv _ _ H) |].
    left. reflexivity.
  - cbn [owner_loop]. rewrite run_bind.
    assert (E : try_catch
                  (bind (call (TokenOfOwnerByIndex owner i) (tokenOfOwnerByIndex c owner i))
                        (fun x => ret (Some x)))
                  (fun err =>
                     bind (emit (ConsoleError err))
                          (fun _ =>
                             bind (log env "tokenOfOwnerByIndex failed; collection probably not enumerable. Stop.")
                                  (fun _ => ret None))) s
                = match tokenOfOwnerByIndex c owner i with
                  | Ok x => (Ok (Some x), record_event (TokenOfOwnerByIndex owner i) s)
                  | Throw err =>
                      (Ok None,
                       snd (log env "tokenOfOwnerByIndex failed; collection probably not enumerable. Stop."
                              (record_event (ConsoleError err)
                                 (record_event (TokenOfOwnerByIndex owner i) s))))
                  end).
    { unfold try_catch, call, bind, emit, modify, await, ret.
      destruct (tokenOfOwnerByIndex c owner i); reflexivity. }
    rewrite E. clear E.
    destruct (tokenOfOwnerByIndex c owner i) as [tokenId | err] eqn:Ht.
    + rewrite run_log, run_bind.
      set (s1 := snd (log env ("Found token id: " ++ tokenId)
                        (record_event (TokenOfOwnerByIndex owner i) s))).
      assert (S1 : shows s s1 [] [TokenOfOwnerByIndex owner i]).
      { pose proof (shows_events _ _ _ _ _ (shows_event (TokenOfOwnerByIndex owner i) s)
                                 (shows_log ("Found token id: " ++ tokenId) _)) as H.
        exact H. }
      destruct (show_token_cases c tokenId (fun err => emit (ConsoleWarn tokenId err)) s1)
        as (evs1 & Q1 & Hc).
      { intros err s0. split; [reflexivity |].
        exists [ConsoleWarn tokenId err]. split; [reflexivity | apply shows_event]. }
      destruct (card_of env c tokenId) as [card | e] eqn:Hcard.
      * destruct Hc as [Hf Hs].
        destruct (show_token env c tokenId (fun err => emit (ConsoleWarn tokenId err)) s1)
          as [r2 s2].
        cbn [fst snd] in Hf, Hs. subst r2.
        destruct (IH (S i) s2) as (cards & evs & Hsh & Hq & Hlen & Hpos & Hend).
        exists (card :: cards), (([TokenOfOwnerByIndex owner i] ++ evs1) ++ evs).
        split.
        { pose proof (shows_trans _ _ _ _ _ _ _
                        (shows_trans _ _ _ _ _ _ _ S1 Hs) Hsh) as H.
          exact H. }
        split; [apply quiet_app; [apply quiet_app; [reflexivity | exact Q1] | exact Hq] |].
        split; [cbn [List.length]; lia |].
        split.
        { intros k card0 Hk. destruct k as [| k].
          - cbn in Hk. injection Hk as <-. exists tokenId.
            rewrite Nat.add_0_r. split; assumption.
          - cbn [nth_error] in Hk. destruct (Hpos k card0 Hk) as (t & H1 & H2).
            exists t. replace (i + S k) with (S i + k) by lia. split; assumption. }
        destruct (fst (owner_loop env c owner count (S i) s2)).
        { destruct Hend as [Hend | (Hlt & (err & evs0 & Herr & Hevs) & Hnew)].
          - left. cbn [List.length]. lia.
          - right. split; [cbn [List.length]; lia |]. split; [| exact Hnew].
            exists err, (([TokenOfOwnerByIndex owner i] ++ evs1) ++ evs0).
            split.
            + cbn [List.length]. replace (i + S (List.length cards))
                with (S i + List.length cards) by lia. exact Herr.
            + rewrite Hevs, !app_assoc. reflexivity. }
        { destruct Hend as (Hlt & t & H1 & H2).
          split; [cbn [List.length]; lia |]. exists t.
          cbn [List.length]. replace (i + S (List.length cards))
            with (S i + List.length cards) by lia. split; assumption. }
      * destruct Hc as [Hf Hs].
        destruct (show_token env c tokenId (fun err => emit (ConsoleWarn tokenId err)) s1)
          as [r2 s2].
        cbn [fst snd] in Hf, Hs. subst r2. cbn [fst snd].
        exists [], ([TokenOfOwnerByIndex owner i] ++ evs1).
        split; [exact (shows_trans _ _ _ _ _ _ _ S1 Hs) |].
        split; [apply quiet_app; [reflexivity | exact Q1] |].
        split; [cbn [List.length]; lia |].
        split; [intros k card H; destruct (nth_error_nil_inv _ _ H) |].
        split; [cbn [List.length]; lia |].
        exists tokenId. cbn [List.length]. rewrite Nat.add_0_r. split; assumption.
    + cbn [ret fst snd].
      exists [], [TokenOfOwnerByIndex owner i; ConsoleError err].
      split.
      { exact (shows_events _ _ _ _ _ (shows_event2 _ _ s) (shows_log _ _)). }
      split; [reflexivity |]. split; [cbn [List.length]; lia |].
      split; [intros k card H; destruct (nth_error_nil_inv _ _ H) |].
      right. split; [cbn [List.length]; lia |]. split; [| apply newest_line_log].
      exists err, [TokenOfOwnerByIndex owner i]. cbn [List.length].
      rewrite Nat.add_0_r. split; [exact Ht | reflexivity].
Qed.

(** The loop of [listAllTokens]: as the owner's, but a refused index is
    thrown on. *)
Lemma all_loop_inv (c : Contract) :
  forall (count i : nat) (s : State Card),
  exists cards evs,
    shows s (snd (all_loop env c count i s)) cards evs
    /\ quiet evs
    /\ List.length cards <= count
    /\ (forall k card,
          nth_error cards k = Some card ->
          exists tokenId, tokenByIndex c (i + k) = Ok tokenId
                          /\ card_of env c tokenId = Ok card)
    /\ match fst (all_loop env c count i s) with
       | Ok _ => List.length cards = count
       | Throw e =>
           List.length cards < count
           /\ (tokenByIndex c (i + List.length cards) = Throw e
               \/ exists tokenId,
                    tokenByIndex c (i + List.length cards) = Ok tokenId
                    /\ card_of env c tokenId = Throw e)
       end.
Proof.
  induction count as [| count IH]; intros i s.
  - exists [], []. cbn [all_loop ret fst snd].
    split; [apply shows_refl |]. split; [reflexivity |]. split; [apply le_n |].
    split; [intros k card H; destruct (nth_error_nil_inv _ _ H) |].
    reflexivity.
  - cbn [all_loop]. rewrite run_bind.
    assert (E : call (TokenByIndex i) (tokenByIndex c i) s
                = (tokenByIndex c i, record_event (TokenByIndex i) s)) by reflexivity.
    rewrite E. clear E.
    destruct (tokenByIndex c i) as [tokenId | err] eqn:Ht.
    + rewrite run_bind.
      set (s1 := record_event (TokenByIndex i) s).
      assert (S1 : shows s s1 [] [TokenByIndex i]) by apply shows_event.
      destruct (show_token_cases c tokenId (fun _ => ret tt) s1) as (evs1 & Q1 & Hc).
      { intros err s0. split; [reflexivity |].
        exists []. split; [reflexivity | apply shows_refl]. }
      destruct (card_of env c tokenId) as [card | e] eqn:Hcard.
      * destruct Hc as [Hf Hs].
        destruct (show_token env c tokenId (fun _ => ret tt) s1) as [r2 s2].
        cbn [fst snd] in Hf, Hs. subst r2.
        destruct (IH (S i) s2) as (cards & evs & Hsh & Hq & Hlen & Hpos & Hend).
        exists (card :: cards), (([TokenByIndex i] ++ evs1) ++ evs).
        split.
        { pose proof (shows_trans _ _ _ _ _ _ _
                        (shows_trans _ _ _ _ _ _ _ S1 Hs) Hsh) as H.
          exact H. }
        split; [apply quiet_app; [apply quiet_app; [reflexivity | exact Q1] | exact Hq] |].
        split; [cbn [List.length]; lia |].
        split.
        { intros k card0 Hk. destruct k as [| k].
          - cbn in Hk. injection Hk as <-. exists tokenId.
            rewrite Nat.add_0_r. split; assumption.
          - cbn [nth_error] in Hk. destruct (Hpos k card0 Hk) as (t & H1 & H2).
            exists t. replace (i + S k) with (S i + k) by lia. split; assumption. }
        destruct (fst (all_loop env c count (S i) s2)).
        { cbn [List.length]. lia. }
        { destruct Hend as (Hlt & Hend).
          split; [cbn [List.length]; lia |].
          cbn [List.length]. replace (i + S (List.length cards))
            with (S i + List.length cards) by lia. exact Hend. }
      * destruct Hc as [Hf Hs].
        destruct (show_token env c tokenId (fun _ => ret tt) s1) as [r2 s2].
        cbn [fst snd] in Hf, Hs. subst r2. cbn [fst snd].
        exists [], ([TokenByIndex i] ++ evs1).
        split; [exact (shows_trans _ _ _ _ _ _ _ S1 Hs) |].
        split; [apply quiet_app; [reflexivity | exact Q1] |].
        split; [cbn [List.length]; lia |].
        split; [intros k card H; destruct (nth_error_nil_inv _ _ H) |].
        split; [cbn [List.length]; lia |].
        right. exists tokenId. cbn [List.length]. rewrite Nat.add_0_r. split; assumption.
    + cbn [fst snd].
      exists [], [TokenByIndex i].
      split; [apply shows_event |].
      split; [reflexivity |]. split; [cbn [List.length]; lia |].
      split; [intros k card H; destruct (nth_error_nil_inv _ _ H) |].
      split; [cbn [List.length]; lia |].
      left. cbn [List.length]. rewrite Nat.add_0_r. exact Ht.
Qed.

(** [getProviderFromInputs] leaves the cards and the input fields alone,
    shows no alert and reaches no contract. *)
Lemma getProviderFromInputs_frame (s : State Card) :
  exists evs,
    quiet evs
    /\ forallb (fun ev => negb (is_chain ev)) evs = true
    /\ trace (snd (getProviderFromInputs env s)) = trace s ++ evs
    /\ nfts (snd (getProviderFromInputs env s)) = nfts s
    /\ rpcUrl (snd (getProviderFromInputs env s)) = rpcUrl s
    /\ contractAddress (snd (getProviderFromInputs env s)) = contractAddress s
    /\ ownerAddress (snd (getProviderFromInputs env s)) = ownerAddress s.
Proof.
  unfold getProviderFromInputs, call, bind, gets, emit, set_provider, set_signer, log,
    modify, await, throw, ret.
  destruct (ethereum env) as [eth |].
  - exists [GetSigner]. destruct (getSigner eth); cbn; repeat split.
  - exists []. destruct (truthy (trim (rpcUrl s))); cbn; rewrite app_nil_r; repeat split.
Qed.

(** Which provider it gives depends on the wallet and on the RPC field
    only. *)
Lemma getProviderFromInputs_fst (s1 s2 : State Card) :
  rpcUrl s1 = rpcUrl s2 ->
  fst (getProviderFromInputs env s1) = fst (getProviderFromInputs env s2).
Proof.
  intros H.
  unfold getProviderFromInputs, call, bind, gets, emit, set_provider, set_signer, log,
    modify, await, throw, ret.
  rewrite H.
  destruct (ethereum env) as [eth |].
  - destruct (getSigner eth); reflexivity.
  - destruct (truthy (trim (rpcUrl s2))); reflexivity.
Qed.

Lemma run_gets {A B : Type} (f : State Card -> A) (k : A -> M (State Card) B)
      (s : State Card) :
  bind (gets f) k s = k (f s) s.
Proof. reflexivity. Qed.

Lemma run_call {A B : Type} (ev : Event) (r : Result A) (k : A -> M (State Card) B)
      (s : State Card) :
  bind (call ev r) k s = match r with
                         | Ok a => k a (record_event ev s)
                         | Throw e => (Throw e, record_event ev s)
                         end.
Proof. unfold call, bind, emit, modify, await. destruct r; reflexivity. Qed.

Lemma run_clear {B : Type} (k : unit -> M (State Card) B) (s : State Card) :
  bind (@clear_cards Card) k s = k tt (snd (@clear_cards Card s)).
Proof. reflexivity. Qed.


Lemma since_app (s s' : State Card) (evs : list Event) :
  trace s' = trace s ++ evs -> since s s' = evs.
Proof.
  intros H. unfold since. rewrite H, skipn_app, skipn_all, Nat.sub_diag. reflexivity.
Qed.

(** The [catch] of a handler: it ends as [caught] says and touches
    neither the cards nor the log. *)
Lemma catch_facts (prefix : string) (e : Thrown) (s : State Card) :
  fst (bind (emit (ConsoleError e))
            (fun _ => bind (await (message_prop e))
                           (fun msg => emit (Alert (prefix ++ msg)))) s)
  = fst (caught prefix e)
  /\ shows s
        (snd (bind (emit (ConsoleError e))
                   (fun _ => bind (await (message_prop e))
                                  (fun msg => emit (Alert (prefix ++ msg)))) s))
        [] (snd (caught prefix e)).
Proof.
  unfold caught, bind, emit, modify, await.
  destruct (message_prop e) as [m | t]; cbn [fst snd].
  - split; [reflexivity | apply shows_event2].
  - split; [reflexivity | apply shows_event].
Qed.

Lemma caught_nullish (prefix : string) (e t : Thrown) :
  fst (caught prefix e) = Throw t ->
  nullish e = true /\ message_prop e = Throw t /\ snd (caught prefix e) = [ConsoleError e].
Proof.
  unfold caught. destruct e as [n m | r | |]; cbn; intros H; try discriminate H;
    injection H as <-; repeat split.
Qed.

Lemma caught_outcome (prefix : string) (e : Thrown) :
  match message_prop e with
  | Ok m => caught prefix e = (Ok tt, [ConsoleError e; Alert (prefix ++ m)])
  | Throw t => caught prefix e = (Throw t, [ConsoleError e])
  end.
Proof. unfold caught. destruct (message_prop e); reflexivity. Qed.

(** How [loadOwnerNFTs] gets to its loop, or does not. *)
Lemma loadOwnerNFTs_cases (s : State Card) :
  (exists e evs,
      (fst (getProviderFromInputs env s) = Throw e
       \/ (exists p,
              fst (getProviderFromInputs env s) = Ok p
              /\ truthy (trim (contractAddress s)) && truthy (trim (ownerAddress s)) = true
              /\ new_Contract env p (trim (contractAddress s)) = Throw e)
       \/ (exists p c,
              fst (getProviderFromInputs env s) = Ok p
              /\ truthy (trim (contractAddress s)) && truthy (trim (ownerAddress s)) = true
              /\ new_Contract env p (trim (contractAddress s)) = Ok c
              /\ balanceOf c (trim (ownerAddress s)) = Throw e))
      /\ nfts (snd (loadOwnerNFTs env s)) = []
      /\ quiet evs
      /\ (truthy (trim (contractAddress s)) && truthy (trim (ownerAddress s)) = false ->
          forallb (fun ev => negb (is_chain ev)) evs = true)
      /\ fst (loadOwnerNFTs env s) = fst (caught "Error: " e)
      /\ trace (snd (loadOwnerNFTs env s)) = trace s ++ evs ++ snd (caught "Error: " e))
  \/ (exists p evs,
         fst (getProviderFromInputs env s) = Ok p
         /\ truthy (trim (contractAddress s)) && truthy (trim (ownerAddress s)) = false
         /\ nfts (snd (loadOwnerNFTs env s)) = []
         /\ forallb (fun ev => negb (is_chain ev)) evs = true
         /\ fst (loadOwnerNFTs env s) = Ok tt
         /\ trace (snd (loadOwnerNFTs env s))
            = trace s ++ evs ++ [Alert "Provide contract and owner addresses."])
  \/ (exists p c b s0 evs0,
         fst (getProviderFromInputs env s) = Ok p
         /\ truthy (trim (contractAddress s)) && truthy (trim (ownerAddress s)) = true
         /\ new_Contract env p (trim (contractAddress s)) = Ok c
         /\ balanceOf c (trim (ownerAddress s)) = Ok b
         /\ nfts s0 = []
         /\ trace s0 = trace s ++ evs0
         /\ quiet evs0
         /\ loadOwnerNFTs env s
            = try_catch (owner_loop env c (trim (ownerAddress s)) (N.to_nat b) 0)
                        (fun err =>
                           bind (emit (ConsoleError err))
                                (fun _ => bind (await (message_prop err))
                                               (fun msg => emit (Alert ("Error: " ++ msg)))))
                        s0).
Proof.
  unfold loadOwnerNFTs. rewrite run_try, run_clear, run_bind.
  set (sc := snd (@clear_cards Card s)).
  destruct (getProviderFromInputs_frame sc) as (evs & Hq & Hn & Ht & Hc & _ & Hca & Hoa).
  pose proof (getProviderFromInputs_fst sc s eq_refl) as Hf.
  destruct (getProviderFromInputs env sc) as [r1 s1].
  cbn [fst snd] in Hf, Ht, Hc, Hca, Hoa.
  change (nfts sc) with (@nil Card) in Hc.
  change (trace sc) with (trace s) in Ht.
  change (contractAddress sc) with (contractAddress s) in Hca.
  change (ownerAddress sc) with (ownerAddress s) in Hoa.
  destruct r1 as [p | e].
  - rewrite !run_gets, Hca, Hoa.
    destruct (truthy (trim (contractAddress s))) eqn:Tc;
      [destruct (truthy (trim (ownerAddress s))) eqn:To |]; cbn [negb orb andb].
    + rewrite run_call.
      destruct (new_Contract env p (trim (contractAddress s))) as [c | e] eqn:Hnew.
      * rewrite run_call.
        destruct (balanceOf c (trim (ownerAddress s))) as [b | e] eqn:Hbal.
        { right. right.
          rewrite run_log, run_bind.
          exists p, c, b.
          destruct (has_tokenOfOwnerByIndex c).
          - eexists. exists (evs ++ [NewContract p (trim (contractAddress s));
                                     BalanceOf (trim (ownerAddress s))]).
            split; [symmetry; exact Hf |]. split; [reflexivity |].
            split; [exact Hnew |]. split; [exact Hbal |].
            split; [| split; [| split; [| reflexivity]]].
            + cbn. exact Hc.
            + cbn. rewrite Ht, <- !app_assoc. reflexivity.
            + apply quiet_app; [exact Hq | reflexivity].
          - eexists. exists (evs ++ [NewContract p (trim (contractAddress s));
                                     BalanceOf (trim (ownerAddress s))]).
            split; [symmetry; exact Hf |]. split; [reflexivity |].
            split; [exact Hnew |]. split; [exact Hbal |].
            split; [| split; [| split; [| reflexivity]]].
            + cbn. exact Hc.
            + cbn. rewrite Ht, <- !app_assoc. reflexivity.
            + apply quiet_app; [exact Hq | reflexivity]. }
        { left. cbv beta iota.
          match goal with
          | |- context [bind (emit (ConsoleError e)) ?k ?st] =>
              destruct (catch_facts "Error: " e st) as (C1 & _ & _ & _ & _ & _ & C2 & C3)
          end.
          rewrite C1, C2, C3.
          exists e, (evs ++ [NewContract p (trim (contractAddress s));
                             BalanceOf (trim (ownerAddress s))]).
          split.
          { right. right. exists p, c.
            split; [symmetry; exact Hf |]. split; [reflexivity |].
            split; [exact Hnew | exact Hbal]. }
          split; [cbn; rewrite app_nil_r; exact Hc |].
          split; [apply quiet_app; [exact Hq | reflexivity] |].
          split; [discriminate |]. split; [reflexivity |].
          cbn. rewrite Ht, <- !app_assoc. reflexivity. }
      * left. cbv beta iota.
        match goal with
        | |- context [bind (emit (ConsoleError e)) ?k ?st] =>
            destruct (catch_facts "Error: " e st) as (C1 & _ & _ & _ & _ & _ & C2 & C3)
        end.
        rewrite C1, C2, C3.
        exists e, (evs ++ [NewContract p (trim (contractAddress s))]).
        split.
        { right. left. exists p.
          split; [symmetry; exact Hf |]. split; [reflexivity | exact Hnew]. }
        split; [cbn; rewrite app_nil_r; exact Hc |].
        split; [apply quiet_app; [exact Hq | reflexivity] |].
        split; [discriminate |]. split; [reflexivity |].
        cbn. rewrite Ht, <- !app_assoc. reflexivity.
    + right. left. exists p, evs.
      split; [symmetry; exact Hf |]. split; [reflexivity |].
      split; [cbn; exact Hc |]. split; [exact Hn |]. split; [reflexivity |].
      cbn. rewrite Ht, <- app_assoc. reflexivity.
    + right. left. exists p, evs.
      split; [symmetry; exact Hf |]. split; [reflexivity |].
      split; [cbn; exact Hc |]. split; [exact Hn |]. split; [reflexivity |].
      cbn. rewrite Ht, <- app_assoc. reflexivity.
  - left. cbv beta iota.
    match goal with
    | |- context [bind (emit (ConsoleError e)) ?k ?st] =>
        destruct (catch_facts "Error: " e st) as (C1 & _ & _ & _ & _ & _ & C2 & C3)
    end.
    rewrite C1, C2, C3.
    exists e, evs.
    split; [left; symmetry; exact Hf |].
    split; [rewrite app_nil_r; exact Hc |].
    split; [exact Hq |]. split; [intros _; exact Hn |]. split; [reflexivity |].
    rewrite Ht, <- !app_assoc. reflexivity.
Qed.

(** How [listAllTokens] gets to its loop, or does not. *)
Lemma listAllTokens_cases (s : State Card) :
  (exists e evs,
      (fst (getProviderFromInputs env s) = Throw e
       \/ (exists p,
              fst (getProviderFromInputs env s) = Ok p
              /\ truthy (trim (contractAddress s)) = true
              /\ new_Contract env p (trim (contractAddress s)) = Throw e)
       \/ (exists p c,
              fst (getProviderFromInputs env s) = Ok p
              /\ truthy (trim (contractAddress s)) = true
              /\ new_Contract env p (trim (contractAddress s)) = Ok c
              /\ totalSupply c = Throw e))
      /\ nfts (snd (listAllTokens env s)) = []
      /\ quiet evs
      /\ fst (listAllTokens env s) = fst (caught "Error: " e)
      /\ trace (snd (listAllTokens env s)) = trace s ++ evs ++ snd (caught "Error: " e))
  \/ (exists p evs,
         fst (getProviderFromInputs env s) = Ok p
         /\ truthy (trim (contractAddress s)) = false
         /\ nfts (snd (listAllTokens env s)) = []
         /\ forallb (fun ev => negb (is_chain ev)) evs = true
         /\ fst (listAllTokens env s) = Ok tt
         /\ trace (snd (listAllTokens env s))
            = trace s ++ evs ++ [Alert "Provide contract address."])
  \/ (exists p c total s0 evs0,
         fst (getProviderFromInputs env s) = Ok p
         /\ truthy (trim (contractAddress s)) = true
         /\ new_Contract env p (trim (contractAddress s)) = Ok c
         /\ totalSupply c = Ok total
         /\ nfts s0 = []
         /\ trace s0 = trace s ++ evs0
         /\ quiet evs0
         /\ listAllTokens env s
            = try_catch (all_loop env c (N.to_nat total) 0)
                        (fun err =>
                           bind (emit (ConsoleError err))
                                (fun _ => bind (await (message_prop err))
                                               (fun msg => emit (Alert ("Error: " ++ msg)))))
                        s0).
Proof.
  unfold listAllTokens. rewrite run_try, run_clear, run_bind.
  set (sc := snd (@clear_cards Card s)).
  destruct (getProviderFromInputs_frame sc) as (evs & Hq & Hn & Ht & Hc & _ & Hca & _).
  pose proof (getProviderFromInputs_fst sc s eq_refl) as Hf.
  destruct (getProviderFromInputs env sc) as [r1 s1].
  cbn [fst snd] in Hf, Ht, Hc, Hca.
  change (nfts sc) with (@nil Card) in Hc.
  change (trace sc) with (trace s) in Ht.
  change (contractAddress sc) with (contractAddress s) in Hca.
  destruct r1 as [p | e].
  - rewrite !run_gets, Hca.
    destruct (truthy (trim (contractAddress s))) eqn:Tc; cbn [negb].
    + rewrite run_call.
      destruct (new_Contract env p (trim (contractAddress s))) as [c | e] eqn:Hnew.
      * rewrite run_call.
        destruct (totalSupply c) as [total | e] eqn:Htot.
        { right. right.
          rewrite run_log.
          exists p, c, total. eexists.
          exists (evs ++ [NewContract p (trim (contractAddress s)); TotalSupply]).
          split; [symmetry; exact Hf |]. split; [reflexivity |].
          split; [exact Hnew |]. split; [exact Htot |].
          split; [| split; [| split; [| reflexivity]]].
          - cbn. exact Hc.
          - cbn. rewrite Ht, <- !app_assoc. reflexivity.
          - apply quiet_app; [exact Hq | reflexivity]. }
        { left. cbv beta iota.
          match goal with
          | |- context [bind (emit (ConsoleError e)) ?k ?st] =>
              destruct (catch_facts "Error: " e st) as (C1 & _ & _ & _ & _ & _ & C2 & C3)
          end.
          rewrite C1, C2, C3.
          exists e, (evs ++ [NewContract p (trim (contractAddress s)); TotalSupply]).
          split.
          { right. right. exists p, c.
            split; [symmetry; exact Hf |]. split; [reflexivity |].
            split; [exact Hnew | exact Htot]. }
          split; [cbn; rewrite app_nil_r; exact Hc |].
          split; [apply quiet_app; [exact Hq | reflexivity] |].
          split; [reflexivity |].
          cbn. rewrite Ht, <- !app_assoc. reflexivity. }
      * left. cbv beta iota.
        match goal with
        | |- context [bind (emit (ConsoleError e)) ?k ?st] =>
            destruct (catch_facts "Error: " e st) as (C1 & _ & _ & _ & _ & _ & C2 & C3)
        end.
        rewrite C1, C2, C3.
        exists e, (evs ++ [NewContract p (trim (contractAddress s))]).
        split.
        { right. left. exists p.
          split; [symmetry; exact Hf |]. split; [reflexivity | exact Hnew]. }
        split; [cbn; rewrite app_nil_r; exact Hc |].
        split; [apply quiet_app; [exact Hq | reflexivity] |].
        split; [reflexivity |].
        cbn. rewrite Ht, <- !app_assoc. reflexivity.
    + right. left. exists p, evs.
      split; [symmetry; exact Hf |]. split; [reflexivity |].
      split; [cbn; exact Hc |]. split; [exact Hn |]. split; [reflexivity |].
      cbn. rewrite Ht, <- app_assoc. reflexivity.
  - left. cbv beta iota.
    match goal with
    | |- context [bind (emit (ConsoleError e)) ?k ?st] =>
        destruct (catch_facts "Error: " e st) as (C1 & _ & _ & _ & _ & _ & C2 & C3)
    end.
    rewrite C1, C2, C3.
    exists e, evs.
    split; [left; symmetry; exact Hf |].
    split; [rewrite app_nil_r; exact Hc |].
    split; [exact Hq |]. split; [reflexivity |].
    rewrite Ht, <- !app_assoc. reflexivity.
Qed.

(** What [loadOwnerNFTs] shows once it has the balance. *)
Lemma loadOwnerNFTs_listing (s : State Card) (p : Provider) (c : Contract) (b : N) :
  fst (getProviderFromInputs env s) = Ok p ->
  truthy (trim (contractAddress s)) && truthy (trim (ownerAddress s)) = true ->
  new_Contract env p (trim (contractAddress s)) = Ok c ->
  balanceOf c (trim (ownerAddress s)) = Ok b ->
  exists evs,
    trace (snd (loadOwnerNFTs env s)) = trace s ++ evs
    /\ List.length (nfts (snd (loadOwnerNFTs env s))) <= N.to_nat b
    /\ (forall k card,
          nth_error (nfts (snd (loadOwnerNFTs env s))) k = Some card ->
          exists tokenId, tokenOfOwnerByIndex c (trim (ownerAddress s)) k = Ok tokenId
                          /\ card_of env c tokenId = Ok card)
    /\ ((List.length (nfts (snd (loadOwnerNFTs env s))) = N.to_nat b
         /\ fst (loadOwnerNFTs env s) = Ok tt
         /\ quiet evs)
        \/ (List.length (nfts (snd (loadOwnerNFTs env s))) < N.to_nat b
            /\ fst (loadOwnerNFTs env s) = Ok tt
            /\ quiet evs
            /\ (exists err evs0,
                   tokenOfOwnerByIndex c (trim (ownerAddress s))
                     (List.length (nfts (snd (loadOwnerNFTs env s)))) = Throw err
                   /\ evs = evs0 ++ [ConsoleError err])
            /\ newest_line env (snd (loadOwnerNFTs env s))
                 "tokenOfOwnerByIndex failed; collection probably not enumerable. Stop.")
        \/ (List.length (nfts (snd (loadOwnerNFTs env s))) < N.to_nat b
            /\ exists tokenId e evs0,
                 tokenOfOwnerByIndex c (trim (ownerAddress s))
                   (List.length (nfts (snd (loadOwnerNFTs env s)))) = Ok tokenId
                 /\ card_of env c tokenId = Throw e
                 /\ quiet evs0
                 /\ fst (loadOwnerNFTs env s) = fst (caught "Error: " e)
                 /\ evs = evs0 ++ snd (caught "Error: " e))).
Proof.
  intros Hp Ht Hnew Hbal.
  destruct (loadOwnerNFTs_cases s)
    as [(e & evs & [A | [(p' & A & B & C) | (p' & c' & A & B & C & D)]] & _)
       | [(p' & evs & A & B & _)
         | (p' & c' & b' & s0 & evs0 & A & B & C & D & Hn0 & Htr & Hq0 & Heq)]].
  - congruence.
  - congruence.
  - assert (p' = p) by congruence. subst p'.
    assert (c' = c) by congruence. subst c'. congruence.
  - congruence.
  - assert (p' = p) by congruence. subst p'.
    assert (c' = c) by congruence. subst c'.
    assert (b' = b) by congruence. subst b'.
    rewrite Heq, run_try.
    destruct (owner_loop_inv c (trim (ownerAddress s)) (N.to_nat b) 0 s0)
      as (cards & evs & Hsh & Hq & Hlen & Hpos & Hend).
    destruct (owner_loop env c (trim (ownerAddress s)) (N.to_nat b) 0 s0) as [r s1].
    cbn [fst snd] in Hsh, Hend.
    destruct Hsh as (_ & _ & _ & _ & _ & Hcards & Htrace).
    rewrite Hn0 in Hcards. cbn [List.app] in Hcards.
    destruct r as [u | e].
    + cbn [fst snd]. rewrite Hcards.
      exists (evs0 ++ evs).
      split; [rewrite Htrace, Htr, app_assoc; reflexivity |].
      split; [exact Hlen |]. split; [exact Hpos |].
      destruct u.
      destruct Hend as [Hend | (Hlt & (err & evs1 & Herr & Hevs) & Hnew')].
      * left. split; [exact Hend |]. split; [reflexivity | apply quiet_app; assumption].
      * right. left. split; [exact Hlt |]. split; [reflexivity |].
        split; [apply quiet_app; assumption |].
        split; [| exact Hnew'].
        exists err, (evs0 ++ evs1). split; [exact Herr |].
        rewrite Hevs, app_assoc. reflexivity.
    + cbv beta iota.
      destruct (catch_facts "Error: " e s1) as (C1 & _ & _ & _ & _ & _ & C2 & C3).
      rewrite C1, C2, C3, app_nil_r, Hcards.
      destruct Hend as (Hlt & tokenId & H1 & H2).
      exists ((evs0 ++ evs) ++ snd (caught "Error: " e)).
      split.
      { rewrite Htrace, Htr, <- !app_assoc. reflexivity. }
      split; [exact Hlen |]. split; [exact Hpos |].
      right. right. split; [exact Hlt |].
      exists tokenId, e, (evs0 ++ evs).
      split; [exact H1 |]. split; [exact H2 |].
      split; [apply quiet_app; assumption |]. split; reflexivity.
Qed.

(** What [listAllTokens] shows once it has the total supply. *)
Lemma listAllTokens_listing (s : State Card) (p : Provider) (c : Contract) (total : N) :
  fst (getProviderFromInputs env s) = Ok p ->
  truthy (trim (contractAddress s)) = true ->
  new_Contract env p (trim (contractAddress s)) = Ok c ->
  totalSupply c = Ok total ->
  exists evs,
    trace (snd (listAllTokens env s)) = trace s ++ evs
    /\ List.length (nfts (snd (listAllTokens env s))) <= N.to_nat total
    /\ (forall k card,
          nth_error (nfts (snd (listAllTokens env s))) k = Some card ->
          exists tokenId, tokenByIndex c k = Ok tokenId
                          /\ card_of env c tokenId = Ok card)
    /\ ((List.length (nfts (snd (listAllTokens env s))) = N.to_nat total
         /\ fst (listAllTokens env s) = Ok tt
         /\ quiet evs)
        \/ (List.length (nfts (snd (listAllTokens env s))) < N.to_nat total
            /\ exists e evs0,
                 (tokenByIndex c (List.length (nfts (snd (listAllTokens env s)))) = Throw e
                  \/ exists tokenId,
                       tokenByIndex c (List.length (nfts (snd (listAllTokens env s))))
                       = Ok tokenId
                       /\ card_of env c tokenId = Throw e)
                 /\ quiet evs0
                 /\ fst (listAllTokens env s) = fst (caught "Error: " e)
                 /\ evs = evs0 ++ snd (caught "Error: " e))).
Proof.
  intros Hp Ht Hnew Htot.
  destruct (listAllTokens_cases s)
    as [(e & evs & [A | [(p' & A & B & C) | (p' & c' & A & B & C & D)]] & _)
       | [(p' & evs & A & B & _)
         | (p' & c' & b' & s0 & evs0 & A & B & C & D & Hn0 & Htr & Hq0 & Heq)]].
  - congruence.
  - congruence.
  - assert (p' = p) by congruence. subst p'.
    assert (c' = c) by congruence. subst c'. congruence.
  - congruence.
  - assert (p' = p) by congruence. subst p'.
    assert (c' = c) by congruence. subst c'.
    assert (b' = total) by congruence. subst b'.
    rewrite Heq, run_try.
    destruct (all_loop_inv c (N.to_nat total) 0 s0)
      as (cards & evs & Hsh & Hq & Hlen & Hpos & Hend).
    destruct (all_loop env c (N.to_nat total) 0 s0) as [r s1].
    cbn [fst snd] in Hsh, Hend.
    destruct Hsh as (_ & _ & _ & _ & _ & Hcards & Htrace).
    rewrite Hn0 in Hcards. cbn [List.app] in Hcards.
    destruct r as [u | e].
    + cbn [fst snd]. rewrite Hcards. destruct u.
      exists (evs0 ++ evs).
      split; [rewrite Htrace, Htr, app_assoc; reflexivity |].
      split; [exact Hlen |]. split; [exact Hpos |].
      left. split; [exact Hend |]. split; [reflexivity | apply quiet_app; assumption].
    + cbv beta iota.
      destruct (catch_facts "Error: " e s1) as (C1 & _ & _ & _ & _ & _ & C2 & C3).
      rewrite C1, C2, C3, app_nil_r, Hcards.
      destruct Hend as (Hlt & Hend).
      exists ((evs0 ++ evs) ++ snd (caught "Error: " e)).
      split.
      { rewrite Htrace, Htr, <- !app_assoc. reflexivity. }
      split; [exact Hlen |]. split; [exact Hpos |].
      right. split; [exact Hlt |].
      exists e, (evs0 ++ evs).
      split; [exact Hend |].
      split; [apply quiet_app; assumption |]. split; reflexivity.
Qed.

(** A [try] with the handlers' [catch] lets out only what [caught] does. *)
Lemma try_catch_caught (prefix : string) (m : M (State Card) unit) (s : State Card) :
  (forall e s1, m s = (Throw e, s1) ->
                exists evs, trace s1 = trace s ++ evs /\ quiet evs) ->
  throws_only_on_nullish s
    (try_catch m
       (fun err => bind (emit (ConsoleError err))
                        (fun _ => bind (await (message_prop err))
                                       (fun msg => emit (Alert (prefix ++ msg)))))
       s).
Proof.
  intros Hm. unfold throws_only_on_nullish. rewrite run_try.
  destruct (m s) as [[[] | e] s1] eqn:E.
  - left. reflexivity.
  - cbv beta iota.
    destruct (catch_facts prefix e s1) as (C1 & _ & _ & _ & _ & _ & _ & C3).
    rewrite C1, C3.
    destruct (fst (caught prefix e)) as [[] | t] eqn:F; [left; reflexivity |].
    right. destruct (caught_nullish prefix e t F) as (N1 & N2 & N3).
    destruct (Hm e s1 eq_refl) as (evs & Htr & Hq).
    exists e, t, evs. split; [exact N1 |]. split; [exact N2 |]. split; [reflexivity |].
    split; [rewrite N3, Htr, <- app_assoc; reflexivity | exact Hq].
Qed.

Lemma throws_only_from_caught (prefix : string) (e : Thrown) (evs : list Event)
      (s : State Card) (run : Result unit * State Card) :
  fst run = fst (caught prefix e) ->
  trace (snd run) = trace s ++ evs ++ snd (caught prefix e) ->
  quiet evs ->
  throws_only_on_nullish s run.
Proof.
  intros Hf Ht Hq. unfold throws_only_on_nullish.
  destruct (fst (caught prefix e)) as [[] | t] eqn:F; [left; exact Hf |].
  right. destruct (caught_nullish prefix e t F) as (N1 & N2 & N3).
  exists e, t, evs. split; [exact N1 |]. split; [exact N2 |]. split; [exact Hf |].
  split; [rewrite Ht, N3; reflexivity | exact Hq].
Qed.

(** The three ways [connectWallet] ends. *)
Lemma connectWallet_outcomes (s : State Card) :
  nfts (snd (connectWallet env s)) = nfts s
  /\ rpcUrl (snd (connectWallet env s)) = rpcUrl s
  /\ contractAddress (snd (connectWallet env s)) = contractAddress s
  /\ ((exists (eth : Ethereum) (g : Signer) (addr : string),
          ethereum env = Some eth
          /\ request_accounts eth = Ok tt
          /\ getSigner eth = Ok g
          /\ getAddress g = Ok addr
          /\ fst (connectWallet env s) = Ok tt
          /\ ownerAddress (snd (connectWallet env s)) = addr
          /\ signer (snd (connectWallet env s)) = Some g
          /\ provider (snd (connectWallet env s)) = Some BrowserProvider
          /\ trace (snd (connectWallet env s))
             = trace s ++ [RequestAccounts; GetSigner; GetAddress]
          /\ newest_line env (snd (connectWallet env s)) ("Connected wallet: " ++ addr))
      \/ (ownerAddress (snd (connectWallet env s)) = ownerAddress s
          /\ fst (connectWallet env s) = Ok tt
          /\ exists (evs : list Event) (msg : string),
               trace (snd (connectWallet env s)) = trace s ++ evs ++ [Alert msg]
               /\ quiet evs
               /\ match ethereum env with
                  | None =>
                      msg = "No injected wallet found (MetaMask). Provide an RPC URL for read-only mode or install a wallet."
                  | Some _ =>
                      exists err m,
                        message_prop err = Ok m
                        /\ msg = ("Wallet connection failed: " ++ m)%string
                  end)
      \/ (ownerAddress (snd (connectWallet env s)) = ownerAddress s
          /\ exists (err t : Thrown) (evs : list Event),
               nullish err = true
               /\ message_prop err = Throw t
               /\ fst (connectWallet env s) = Throw t
               /\ trace (snd (connectWallet env s)) = trace s ++ evs ++ [ConsoleError err]
               /\ quiet evs)).
Proof.
  assert (N : forall (e t : Thrown), message_prop e = Throw t -> nullish e = true).
  { intros e t M. destruct e; cbn in M; try discriminate M; reflexivity. }
  unfold connectWallet.
  destruct (ethereum env) as [eth |] eqn:He.
  - unfold getProviderFromInputs. rewrite He.
    unfold try_catch, call, bind, gets, emit, set_provider, set_signer, set_ownerAddress,
      log, modify, await, throw, ret.
    destruct (request_accounts eth) as [[] | e1] eqn:Hr; cbn -[message_prop].
    + destruct (getSigner eth) as [g | e2] eqn:Hg; cbn -[message_prop].
      * destruct (getAddress g) as [addr | e3] eqn:Ha; cbn -[message_prop].
        { cbn. do 3 (split; [reflexivity |]). left. exists eth, g, addr.
          split; [reflexivity |]. split; [exact Hr |]. split; [exact Hg |].
          split; [exact Ha |]. do 4 (split; [reflexivity |]).
          split; [rewrite <- !app_assoc; reflexivity |].
          eexists _, _. split; reflexivity. }
        { destruct (message_prop e3) as [m | t] eqn:M; cbn.
          - do 3 (split; [reflexivity |]). right. left.
            split; [reflexivity |]. split; [reflexivity |].
            exists [RequestAccounts; GetSigner; GetAddress; ConsoleError e3],
                   ("Wallet connection failed: " ++ m)%string.
            split; [rewrite <- !app_assoc; reflexivity |].
            split; [reflexivity |]. exists e3, m. split; [exact M | reflexivity].
          - do 3 (split; [reflexivity |]). right. right.
            split; [reflexivity |].
            exists e3, t, [RequestAccounts; GetSigner; GetAddress].
            split; [exact (N e3 t M) |]. split; [exact M |]. split; [reflexivity |].
            split; [rewrite <- !app_assoc; reflexivity | reflexivity]. }
      * destruct (message_prop e2) as [m | t] eqn:M; cbn.
        { do 3 (split; [reflexivity |]). right. left.
          split; [reflexivity |]. split; [reflexivity |].
          exists [RequestAccounts; GetSigner; ConsoleError e2],
                 ("Wallet connection failed: " ++ m)%string.
          split; [rewrite <- !app_assoc; reflexivity |].
          split; [reflexivity |]. exists e2, m. split; [exact M | reflexivity]. }
        { do 3 (split; [reflexivity |]). right. right.
          split; [reflexivity |].
          exists e2, t, [RequestAccounts; GetSigner].
          split; [exact (N e2 t M) |]. split; [exact M |]. split; [reflexivity |].
          split; [rewrite <- !app_assoc; reflexivity | reflexivity]. }
    + destruct (message_prop e1) as [m | t] eqn:M; cbn.
      * do 3 (split; [reflexivity |]). right. left.
        split; [reflexivity |]. split; [reflexivity |].
        exists [RequestAccounts; ConsoleError e1],
               ("Wallet connection failed: " ++ m)%string.
        split; [rewrite <- !app_assoc; reflexivity |].
        split; [reflexivity |]. exists e1, m. split; [exact M | reflexivity].
      * do 3 (split; [reflexivity |]). right. right.
        split; [reflexivity |].
        exists e1, t, [RequestAccounts].
        split; [exact (N e1 t M) |]. split; [exact M |]. split; [reflexivity |].
        split; [rewrite <- !app_assoc; reflexivity | reflexivity].
  - cbn. do 3 (split; [reflexivity |]). right. left.
    split; [reflexivity |]. split; [reflexivity |].
    exists [], "No injected wallet found (MetaMask). Provide an RPC URL for read-only mode or install a wallet.".
    split; [reflexivity |]. split; reflexivity.
Qed.

End Gallery_steps.

(** X17.  [fetchMetadata] never throws and asks for one thing, the gateway
    URL of the URI.  It gives the parsed body when the answer has a 2xx
    status and parses; in every other case (the request fails, the status
    is another one, the body does not parse) it gives [null] after one
    console warning that names the URI as it was given.  The cards, the
    input fields and the two globals are left as they were. *)
Theorem fetchMetadata_null_on_any_failure :
  forall (J Card : Type) (env : Gallery.Env J Card) (uri : string)
         (s : Gallery.State Card),
    (exists (resp : Gallery.Response J) (meta : option J),
        Gallery.fetch env (Gallery.ipfsGateway uri) = Js.Ok resp
        /\ Gallery.ok resp = true
        /\ Gallery.json resp = Js.Ok meta
        /\ fst (Gallery.fetchMetadata env uri s) = Js.Ok meta
        /\ Listing.shows s (snd (Gallery.fetchMetadata env uri s)) []
             [Gallery.Fetch (Gallery.ipfsGateway uri)])
    \/ (exists err : Js.Thrown,
           (Gallery.fetch env (Gallery.ipfsGateway uri) = Js.Throw err
            \/ (exists resp, Gallery.fetch env (Gallery.ipfsGateway uri) = Js.Ok resp
                             /\ Gallery.ok resp = false
                             /\ err = Js.Error ("Status " ++ Js.decimal (Gallery.status resp)))
            \/ (exists resp, Gallery.fetch env (Gallery.ipfsGateway uri) = Js.Ok resp
                             /\ Gallery.ok resp = true
                             /\ Gallery.json resp = Js.Throw err))
           /\ fst (Gallery.fetchMetadata env uri s) = Js.Ok None
           /\ Listing.shows s (snd (Gallery.fetchMetadata env uri s)) []
                [Gallery.Fetch (Gallery.ipfsGateway uri); Gallery.ConsoleWarn uri err]).
Proof.
  intros J Card env uri s.
  unfold Gallery.fetchMetadata, Js.try_catch, Gallery.call, Js.bind, Gallery.emit,
    Js.modify, Js.await, Js.throw, Js.ret.
  destruct (Gallery.fetch env (Gallery.ipfsGateway uri)) as [r | err] eqn:Hf; cbn [fst snd].
  - destruct (Gallery.ok r) eqn:Hok; cbn [negb fst snd].
    + destruct (Gallery.json r) as [m | err] eqn:Hj; cbn [fst snd].
      * left. exists r, m.
        split; [reflexivity |]. split; [exact Hok |]. split; [exact Hj |].
        split; [reflexivity | apply shows_event].
      * right. exists err. split.
        { right. right. exists r. split; [reflexivity |]. split; assumption. }
        split; [reflexivity | apply shows_event2].
    + right. exists (Js.Error ("Status " ++ Js.decimal (Gallery.status r))). split.
      { right. left. exists r. split; [reflexivity |]. split; [exact Hok | reflexivity]. }
      split; [reflexivity | apply shows_event2].
  - right. exists err. split; [left; reflexivity |].
    split; [reflexivity | apply shows_event2].
Qed.

(** X18.  [getProviderFromInputs] prefers the wallet.  With an injected
    wallet the RPC field is not used: the global [provider] becomes a
    BrowserProvider before the signer is asked for, so it stays one also when
    [getSigner] fails, and then the global [signer] is the one from before.
    Without a wallet the trimmed RPC field decides: a provider for it, with
    the signer untouched, or, when it is blank, the "No provider" error with
    the page as it was.  The cards and the input fields are never touched,
    and what is returned is what the global holds. *)
Theorem getProviderFromInputs_prefers_the_wallet :
  forall (J Card : Type) (env : Gallery.Env J Card) (s : Gallery.State Card),
    Gallery.nfts (snd (Gallery.getProviderFromInputs env s)) = Gallery.nfts s
    /\ Gallery.rpcUrl (snd (Gallery.getProviderFromInputs env s)) = Gallery.rpcUrl s
    /\ Gallery.contractAddress (snd (Gallery.getProviderFromInputs env s))
       = Gallery.contractAddress s
    /\ Gallery.ownerAddress (snd (Gallery.getProviderFromInputs env s))
       = Gallery.ownerAddress s
    /\ (forall p, fst (Gallery.getProviderFromInputs env s) = Js.Ok p ->
                  Gallery.provider (snd (Gallery.getProviderFromInputs env s)) = Some p)
    /\ match Gallery.ethereum env with
       | Some eth =>
           Gallery.provider (snd (Gallery.getProviderFromInputs env s))
           = Some Gallery.BrowserProvider
           /\ match Gallery.getSigner eth with
              | Js.Ok g =>
                  fst (Gallery.getProviderFromInputs env s) = Js.Ok Gallery.BrowserProvider
                  /\ Gallery.signer (snd (Gallery.getProviderFromInputs env s)) = Some g
              | Js.Throw e =>
                  fst (Gallery.getProviderFromInputs env s) = Js.Throw e
                  /\ Gallery.signer (snd (Gallery.getProviderFromInputs env s))
                     = Gallery.signer s
              end
       | None =>
           Gallery.signer (snd (Gallery.getProviderFromInputs env s)) = Gallery.signer s
           /\ if Js.truthy (Js.trim (Gallery.rpcUrl s))
              then fst (Gallery.getProviderFromInputs env s)
                   = Js.Ok (Gallery.JsonRpcProvider (Js.trim (Gallery.rpcUrl s)))
              else fst (Gallery.getProviderFromInputs env s)
                   = Js.Throw (Js.Error "No provider: install a wallet or set an RPC URL.")
                   /\ snd (Gallery.getProviderFromInputs env s) = s
       end.
Proof.
  intros J Card env s.
  unfold Gallery.getProviderFromInputs, Gallery.call, Js.bind, Js.gets, Gallery.emit,
    Gallery.set_provider, Gallery.set_signer, Gallery.log, Js.modify, Js.await, Js.throw,
    Js.ret.
  destruct (Gallery.ethereum env) as [eth |].
  - destruct (Gallery.getSigner eth) as [g | e]; cbn.
    + do 4 (split; [reflexivity |]). split; [intros p H; congruence |].
      split; [reflexivity |]. split; reflexivity.
    + do 4 (split; [reflexivity |]). split; [intros p H; discriminate |].
      split; [reflexivity |]. split; reflexivity.
  - destruct (Js.truthy (Js.trim (Gallery.rpcUrl s))); cbn.
    + do 4 (split; [reflexivity |]). split; [intros p H; congruence |].
      split; reflexivity.
    + do 4 (split; [reflexivity |]). split; [intros p H; discriminate |].
      split; [reflexivity |]. split; reflexivity.
Qed.

(** X19.  [connectWallet] ends in one of three ways.  When the wallet grants
    the accounts, gives a signer and the signer its address, the owner field
    holds that address, the log says so as its newest line, and the wallet
    was asked three things in this order.  Otherwise the owner field is as
    it was, and either the last thing done is an alert, about the missing
    wallet or "Wallet connection failed: " with the message of what was
    thrown, or, when what was thrown is [null] or [undefined], the [catch]
    fails to read its message after the console error: no alert is shown and
    the [TypeError] of the read gets out.  The cards and the other two fields
    are never touched. *)
Theorem connectWallet_fills_owner_or_alerts :
  forall (J Card : Type) (env : Gallery.Env J Card) (s : Gallery.State Card),
    Gallery.nfts (snd (Gallery.connectWallet env s)) = Gallery.nfts s
    /\ Gallery.rpcUrl (snd (Gallery.connectWallet env s)) = Gallery.rpcUrl s
    /\ Gallery.contractAddress (snd (Gallery.connectWallet env s))
       = Gallery.contractAddress s
    /\ ((exists (eth : Gallery.Ethereum) (g : Gallery.Signer) (addr : string),
            Gallery.ethereum env = Some eth
            /\ Gallery.request_accounts eth = Js.Ok tt
            /\ Gallery.getSigner eth = Js.Ok g
            /\ Gallery.getAddress g = Js.Ok addr
            /\ fst (Gallery.connectWallet env s) = Js.Ok tt
            /\ Gallery.ownerAddress (snd (Gallery.connectWallet env s)) = addr
            /\ Gallery.signer (snd (Gallery.connectWallet env s)) = Some g
            /\ Gallery.provider (snd (Gallery.connectWallet env s))
               = Some Gallery.BrowserProvider
            /\ Gallery.trace (snd (Gallery.connectWallet env s))
               = Gallery.trace s
                 ++ [Gallery.RequestAccounts; Gallery.GetSigner; Gallery.GetAddress]
            /\ Listing.newest_line env (snd (Gallery.connectWallet env s))
                 ("Connected wallet: " ++ addr))
        \/ (Gallery.ownerAddress (snd (Gallery.connectWallet env s))
            = Gallery.ownerAddress s
            /\ fst (Gallery.connectWallet env s) = Js.Ok tt
            /\ exists (evs : list Gallery.Event) (msg : string),
                 Gallery.trace (snd (Gallery.connectWallet env s))
                 = Gallery.trace s ++ evs ++ [Gallery.Alert msg]
                 /\ Listing.quiet evs
                 /\ match Gallery.ethereum env with
                    | None =>
                        msg = "No injected wallet found (MetaMask). Provide an RPC URL for read-only mode or install a wallet."
                    | Some _ =>
                        exists err m,
                          Gallery.message_prop err = Js.Ok m
                          /\ msg = ("Wallet connection failed: " ++ m)%string
                    end)
        \/ (Gallery.ownerAddress (snd (Gallery.connectWallet env s))
            = Gallery.ownerAddress s
            /\ exists (err t : Js.Thrown) (evs : list Gallery.Event),
                 Listing.nullish err = true
                 /\ Gallery.message_prop err = Js.Throw t
                 /\ fst (Gallery.connectWallet env s) = Js.Throw t
                 /\ Gallery.trace (snd (Gallery.connectWallet env s))
                    = Gallery.trace s ++ evs ++ [Gallery.ConsoleError err]
                 /\ Listing.quiet evs)).
Proof. exact connectWallet_outcomes. Qed.

(** X20.  A click handler of the gallery lets an exception out in one case
    only.  [connectWallet], [loadOwnerNFTs] and [listAllTokens] end normally
    whatever the wallet, the contract, the gateway and the making of a card
    throw, unless what is thrown is [null] or [undefined]: then the [catch]
    writes it to the console, fails to read its message, shows no alert, and
    the [TypeError] of that read is what the handler throws. *)
Theorem gallery_handlers_throw_only_on_nullish :
  forall (J Card : Type) (env : Gallery.Env J Card) (s : Gallery.State Card),
    Listing.throws_only_on_nullish s (Gallery.connectWallet env s)
    /\ Listing.throws_only_on_nullish s (Gallery.loadOwnerNFTs env s)
    /\ Listing.throws_only_on_nullish s (Gallery.listAllTokens env s).
Proof.
  intros J Card env s. split; [| split].
  - destruct (connectWallet_outcomes J Card env s)
      as (_ & _ & _ & [(eth & g & addr & _ & _ & _ & _ & H & _)
                      | [(_ & H & _) | (_ & H)]]).
    + left. exact H.
    + left. exact H.
    + right. exact H.
  - destruct (loadOwnerNFTs_cases J Card env s)
      as [(e & evs & _ & _ & Hq & _ & Hf & Ht)
         | [(p & evs & _ & _ & _ & _ & Hf & _)
           | (p & c & b & s0 & evs0 & A & B & C & D & _)]].
    + exact (throws_only_from_caught Card "Error: " e evs s _ Hf Ht Hq).
    + left. exact Hf.
    + destruct (loadOwnerNFTs_listing J Card env s p c b A B C D)
        as (evs & Htr & _ & _ & [(_ & Hf & _) | [(_ & Hf & _)
                                | (_ & tokenId & e & evs1 & _ & _ & Hq & Hf & Hevs)]]).
      * left. exact Hf.
      * left. exact Hf.
      * rewrite Hevs in Htr.
        exact (throws_only_from_caught Card "Error: " e evs1 s _ Hf Htr Hq).
  - destruct (listAllTokens_cases J Card env s)
      as [(e & evs & _ & _ & Hq & Hf & Ht)
         | [(p & evs & _ & _ & _ & _ & Hf & _)
           | (p & c & b & s0 & evs0 & A & B & C & D & _)]].
    + exact (throws_only_from_caught Card "Error: " e evs s _ Hf Ht Hq).
    + left. exact Hf.
    + destruct (listAllTokens_listing J Card env s p c b A B C D)
        as (evs & Htr & _ & _ & [(_ & Hf & _)
                                | (_ & e & evs1 & _ & Hq & Hf & Hevs)]).
      * left. exact Hf.
      * rewrite Hevs in Htr.
        exact (throws_only_from_caught Card "Error: " e evs1 s _ Hf Htr Hq).
Qed.

(** X21.  Every card [loadOwnerNFTs] leaves on the page is the card of one
    of the owner's tokens, at the token's place: the card at position [k] was
    made for the token the contract names at index [k] of the trimmed owner
    address, [k] is below the balance the contract reported, and the card is
    what [make_card] gave for that token and the metadata found for it.  So
    no card from before the click stays, and there are never more cards than
    the balance. *)
Theorem loadOwnerNFTs_cards_in_order :
  forall (J Card : Type) (env : Gallery.Env J Card) (s : Gallery.State Card)
         (k : nat) (card : Card),
    nth_error (Gallery.nfts (snd (Gallery.loadOwnerNFTs env s))) k = Some card ->
    exists (p : Gallery.Provider) (c : Gallery.Contract) (b : N) (tokenId : string),
      fst (Gallery.getProviderFromInputs env s) = Js.Ok p
      /\ Gallery.new_Contract env p (Js.trim (Gallery.contractAddress s)) = Js.Ok c
      /\ Gallery.balanceOf c (Js.trim (Gallery.ownerAddress s)) = Js.Ok b
      /\ k < N.to_nat b
      /\ Gallery.tokenOfOwnerByIndex c (Js.trim (Gallery.ownerAddress s)) k = Js.Ok tokenId
      /\ Listing.card_of env c tokenId = Js.Ok card.
Proof.
  intros J Card env s k card H.
  destruct (loadOwnerNFTs_cases J Card env s)
    as [(e & evs & _ & A & _) | [(p & evs & _ & _ & A & _)
       | (p & c & b & s0 & evs0 & A & B & C & D & _)]];
    try (rewrite A in H; destruct (nth_error_nil_inv _ _ H)).
  destruct (loadOwnerNFTs_listing J Card env s p c b A B C D)
    as (evs & _ & Hlen & Hpos & _).
  destruct (Hpos k card H) as (tokenId & H1 & H2).
  exists p, c, b, tokenId.
  split; [exact A |]. split; [exact C |]. split; [exact D |].
  split; [| split; assumption].
  assert (k < List.length (Gallery.nfts (snd (Gallery.loadOwnerNFTs env s))))
    by (apply nth_error_Some; congruence).
  lia.
Qed.

Lemma loadOwnerNFTs_cards_in_order_witness :
  exists (p : Gallery.Provider) (c : Gallery.Contract) (b : N) (tokenId : string),
    fst (Gallery.getProviderFromInputs (Collection.read_only Collection.enumerable)
                                       Collection.page) = Js.Ok p
    /\ Gallery.new_Contract (Collection.read_only Collection.enumerable) p
         (Js.trim (Gallery.contractAddress Collection.page)) = Js.Ok c
    /\ Gallery.balanceOf c (Js.trim (Gallery.ownerAddress Collection.page)) = Js.Ok b
    /\ 1 < N.to_nat b
    /\ Gallery.tokenOfOwnerByIndex c (Js.trim (Gallery.ownerAddress Collection.page)) 1
       = Js.Ok tokenId
    /\ Listing.card_of (Collection.read_only Collection.enumerable) c tokenId
       = Js.Ok ("2", Some "https://ipfs.io/ipfs/meta/2").
Proof.
  apply (loadOwnerNFTs_cards_in_order _ _ (Collection.read_only Collection.enumerable)
           Collection.page 1 ("2", Some "https://ipfs.io/ipfs/meta/2")).
  reflexivity.
Defined.

(** X22.  [loadOwnerNFTs] shows every token it can enumerate.  With a
    provider, both addresses filled in, a contract and a balance: when the
    contract names a token at every index below the balance and a card can be
    made for each, the page ends with as many cards as the balance says, and
    no alert was shown.  Nothing is asked of [tokenURI] or of the metadata
    request: a token whose URI or metadata cannot be had still gets its
    card. *)
Theorem loadOwnerNFTs_shows_every_token :
  forall (J Card : Type) (env : Gallery.Env J Card) (s : Gallery.State Card)
         (p : Gallery.Provider) (c : Gallery.Contract) (b : N),
    fst (Gallery.getProviderFromInputs env s) = Js.Ok p ->
    Js.truthy (Js.trim (Gallery.contractAddress s)) = true ->
    Js.truthy (Js.trim (Gallery.ownerAddress s)) = true ->
    Gallery.new_Contract env p (Js.trim (Gallery.contractAddress s)) = Js.Ok c ->
    Gallery.balanceOf c (Js.trim (Gallery.ownerAddress s)) = Js.Ok b ->
    (forall k, k < N.to_nat b ->
               exists tokenId card,
                 Gallery.tokenOfOwnerByIndex c (Js.trim (Gallery.ownerAddress s)) k
                 = Js.Ok tokenId
                 /\ Listing.card_of env c tokenId = Js.Ok card) ->
    List.length (Gallery.nfts (snd (Gallery.loadOwnerNFTs env s))) = N.to_nat b
    /\ Listing.quiet (Listing.since s (snd (Gallery.loadOwnerNFTs env s))).
Proof.
  intros J Card env s p c b Hp Hc Ho Hnew Hbal Hall.
  assert (Hco : Js.truthy (Js.trim (Gallery.contractAddress s))
                && Js.truthy (Js.trim (Gallery.ownerAddress s)) = true)
    by (rewrite Hc, Ho; reflexivity).
  destruct (loadOwnerNFTs_listing J Card env s p c b Hp Hco Hnew Hbal)
    as (evs & Htr & Hlen & Hpos & Hend).
  rewrite (since_app _ _ _ _ Htr).
  destruct Hend as [(Hl & _ & Hq) | [(Hlt & _ & _ & (err & evs0 & Herr & _) & _)
                                | (Hlt & tokenId & e & evs0 & H1 & H2 & _)]].
  - split; assumption.
  - destruct (Hall _ Hlt) as (t & cd & A & _). congruence.
  - destruct (Hall _ Hlt) as (t & cd & A & B). congruence.
Qed.

Lemma loadOwnerNFTs_shows_every_token_witness :
  List.length (Gallery.nfts (snd (Gallery.loadOwnerNFTs
                                    (Collection.read_only Collection.enumerable)
                                    Collection.page)))
  = N.to_nat 3
  /\ Listing.quiet (Listing.since Collection.page
                      (snd (Gallery.loadOwnerNFTs
                              (Collection.read_only Collection.enumerable)
                              Collection.page))).
Proof.
  apply (loadOwnerNFTs_shows_every_token _ _ (Collection.read_only Collection.enumerable)
           Collection.page (Gallery.JsonRpcProvider "https://rpc.example")
           Collection.enumerable 3%N).
  - reflexivity.
  - reflexivity.
  - reflexivity.
  - reflexivity.
  - reflexivity.
  - intros k Hk. destruct k as [| [| [| k]]].
    + eexists _, _. split; reflexivity.
    + eexists _, _. split; reflexivity.
    + eexists _, _. split; reflexivity.
    + exfalso. cbn in Hk. lia.
Defined.

(** X23.  [loadOwnerNFTs] stops quietly where the enumeration fails.  With a
    provider, both addresses, a contract and a balance: when the contract
    names the tokens below an index [k] under the balance and cards can be
    made for them, and refuses index [k], then exactly those [k] cards are on
    the page, no alert was shown, the last thing done to the outside is the
    console error with what the contract threw, and the newest line of the
    log, the one stamped with the last reading of the clock, says that the
    enumeration failed. *)
Theorem loadOwnerNFTs_stops_where_enumeration_fails :
  forall (J Card : Type) (env : Gallery.Env J Card) (s : Gallery.State Card)
         (p : Gallery.Provider) (c : Gallery.Contract) (b : N) (k : nat)
         (err : Js.Thrown),
    fst (Gallery.getProviderFromInputs env s) = Js.Ok p ->
    Js.truthy (Js.trim (Gallery.contractAddress s)) = true ->
    Js.truthy (Js.trim (Gallery.ownerAddress s)) = true ->
    Gallery.new_Contract env p (Js.trim (Gallery.contractAddress s)) = Js.Ok c ->
    Gallery.balanceOf c (Js.trim (Gallery.ownerAddress s)) = Js.Ok b ->
    k < N.to_nat b ->
    (forall j, j < k ->
               exists tokenId card,
                 Gallery.tokenOfOwnerByIndex c (Js.trim (Gallery.ownerAddress s)) j
                 = Js.Ok tokenId
                 /\ Listing.card_of env c tokenId = Js.Ok card) ->
    Gallery.tokenOfOwnerByIndex c (Js.trim (Gallery.ownerAddress s)) k = Js.Throw err ->
    List.length (Gallery.nfts (snd (Gallery.loadOwnerNFTs env s))) = k
    /\ Listing.quiet (Listing.since s (snd (Gallery.loadOwnerNFTs env s)))
    /\ (exists evs0,
           Listing.since s (snd (Gallery.loadOwnerNFTs env s))
           = evs0 ++ [Gallery.ConsoleError err])
    /\ Listing.newest_line env (snd (Gallery.loadOwnerNFTs env s))
         "tokenOfOwnerByIndex failed; collection probably not enumerable. Stop.".
Proof.
  intros J Card env s p c b k err Hp Hc Ho Hnew Hbal Hk Hbefore Hfail.
  assert (Hco : Js.truthy (Js.trim (Gallery.contractAddress s))
                && Js.truthy (Js.trim (Gallery.ownerAddress s)) = true)
    by (rewrite Hc, Ho; reflexivity).
  destruct (loadOwnerNFTs_listing J Card env s p c b Hp Hco Hnew Hbal)
    as (evs & Htr & Hlen & Hpos & Hend).
  rewrite (since_app _ _ _ _ Htr).
  assert (Hnot : ~ k < List.length (Gallery.nfts (snd (Gallery.loadOwnerNFTs env s)))).
  { intros Hlt.
    destruct (nth_error (Gallery.nfts (snd (Gallery.loadOwnerNFTs env s))) k) as [cd |] eqn:E.
    - destruct (Hpos k cd E) as (t & H1 & _). congruence.
    - apply nth_error_None in E. lia. }
  destruct Hend as [(Hl & _ & Hq) | [(Hlt & _ & Hq & (err' & evs0 & Herr & Hevs) & Hnl)
                                | (Hlt & tokenId & e & evs0 & H1 & H2 & _)]].
  - exfalso. lia.
  - assert (Hj : List.length (Gallery.nfts (snd (Gallery.loadOwnerNFTs env s))) = k).
    { destruct (lt_eq_lt_dec
                  (List.length (Gallery.nfts (snd (Gallery.loadOwnerNFTs env s)))) k)
        as [[L | E] | G].
      - destruct (Hbefore _ L) as (t & cd & A & _). congruence.
      - exact E.
      - exfalso. exact (Hnot G). }
    rewrite Hj in Herr. assert (err' = err) by congruence. subst err'.
    split; [exact Hj |]. split; [exact Hq |]. split; [| exact Hnl].
    exists evs0. exact Hevs.
  - exfalso.
    destruct (lt_eq_lt_dec
                (List.length (Gallery.nfts (snd (Gallery.loadOwnerNFTs env s)))) k)
      as [[L | E] | G].
    + destruct (Hbefore _ L) as (t & cd & A & B).
      assert (t = tokenId) by congruence. subst t. congruence.
    + rewrite E in H1. congruence.
    + exact (Hnot G).
Qed.

Lemma loadOwnerNFTs_stops_where_enumeration_fails_witness :
  List.length (Gallery.nfts (snd (Gallery.loadOwnerNFTs
                                    (Collection.read_only Collection.breaks_at_1)
                                    Collection.page)))
  = 1
  /\ Listing.quiet (Listing.since Collection.page
                      (snd (Gallery.loadOwnerNFTs
                              (Collection.read_only Collection.breaks_at_1)
                              Collection.page)))
  /\ (exists evs0,
         Listing.since Collection.page
           (snd (Gallery.loadOwnerNFTs (Collection.read_only Collection.breaks_at_1)
                                       Collection.page))
         = evs0 ++ [Gallery.ConsoleError (Js.Error "execution reverted")])
  /\ Listing.newest_line (Collection.read_only Collection.breaks_at_1)
       (snd (Gallery.loadOwnerNFTs (Collection.read_only Collection.breaks_at_1)
                                   Collection.page))
       "tokenOfOwnerByIndex failed; collection probably not enumerable. Stop.".
Proof.
  apply (loadOwnerNFTs_stops_where_enumeration_fails _ _
           (Collection.read_only Collection.breaks_at_1) Collection.page
           (Gallery.JsonRpcProvider "https://rpc.example") Collection.breaks_at_1 3%N 1
           (Js.Error "execution reverted")).
  - reflexivity.
  - reflexivity.
  - reflexivity.
  - reflexivity.
  - reflexivity.
  - cbn. lia.
  - intros j Hj. destruct j as [| j].
    + eexists _, _. split; reflexivity.
    + exfalso. lia.
  - reflexivity.
Defined.

(** X24.  Every card [listAllTokens] leaves on the page is the card of a
    token of the collection, at the token's place: the card at position [k]
    was made for the token the contract names at index [k], and [k] is below
    the total supply the contract reported.  No card from before the click
    stays. *)
Theorem listAllTokens_cards_in_order :
  forall (J Card : Type) (env : Gallery.Env J Card) (s : Gallery.State Card)
         (k : nat) (card : Card),
    nth_error (Gallery.nfts (snd (Gallery.listAllTokens env s))) k = Some card ->
    exists (p : Gallery.Provider) (c : Gallery.Contract) (total : N) (tokenId : string),
      fst (Gallery.getProviderFromInputs env s) = Js.Ok p
      /\ Gallery.new_Contract env p (Js.trim (Gallery.contractAddress s)) = Js.Ok c
      /\ Gallery.totalSupply c = Js.Ok total
      /\ k < N.to_nat total
      /\ Gallery.tokenByIndex c k = Js.Ok tokenId
      /\ Listing.card_of env c tokenId = Js.Ok card.
Proof.
  intros J Card env s k card H.
  destruct (listAllTokens_cases J Card env s)
    as [(e & evs & _ & A & _) | [(p & evs & _ & _ & A & _)
       | (p & c & b & s0 & evs0 & A & B & C & D & _)]];
    try (rewrite A in H; destruct (nth_error_nil_inv _ _ H)).
  destruct (listAllTokens_listing J Card env s p c b A B C D)
    as (evs & _ & Hlen & Hpos & _).
  destruct (Hpos k card H) as (tokenId & H1 & H2).
  exists p, c, b, tokenId.
  split; [exact A |]. split; [exact C |]. split; [exact D |].
  split; [| split; assumption].
  assert (k < List.length (Gallery.nfts (snd (Gallery.listAllTokens env s))))
    by (apply nth_error_Some; congruence).
  lia.
Qed.

Lemma listAllTokens_cards_in_order_witness :
  exists (p : Gallery.Provider) (c : Gallery.Contract) (total : N) (tokenId : string),
    fst (Gallery.getProviderFromInputs (Collection.with_wallet Collection.enumerable)
                                       Collection.page) = Js.Ok p
    /\ Gallery.new_Contract (Collection.with_wallet Collection.enumerable) p
         (Js.trim (Gallery.contractAddress Collection.page)) = Js.Ok c
    /\ Gallery.totalSupply c = Js.Ok total
    /\ 2 < N.to_nat total
    /\ Gallery.tokenByIndex c 2 = Js.Ok tokenId
    /\ Listing.card_of (Collection.with_wallet Collection.enumerable) c tokenId
       = Js.Ok ("3", Some "https://ipfs.io/ipfs/meta/3").
Proof.
  apply (listAllTokens_cards_in_order _ _ (Collection.with_wallet Collection.enumerable)
           Collection.page 2 ("3", Some "https://ipfs.io/ipfs/meta/3")).
  reflexivity.
Defined.

(** X25.  [listAllTokens] keeps what it has shown where the enumeration
    fails, and alerts.  With a provider, a contract address, a contract and
    a total supply: when the contract names the tokens below an index [k]
    under the supply and cards can be made for them, and refuses index [k],
    then exactly those [k] cards are on the page and no alert was shown
    before the [catch].  When the message of what the contract threw can be
    read, the click ends with the console error and the alert "Error: " with
    that message; when [null] or [undefined] was thrown, it ends with the
    console error alone and throws the [TypeError] of the read. *)
Theorem listAllTokens_alerts_where_enumeration_fails :
  forall (J Card : Type) (env : Gallery.Env J Card) (s : Gallery.State Card)
         (p : Gallery.Provider) (c : Gallery.Contract) (total : N) (k : nat)
         (err : Js.Thrown),
    fst (Gallery.getProviderFromInputs env s) = Js.Ok p ->
    Js.truthy (Js.trim (Gallery.contractAddress s)) = true ->
    Gallery.new_Contract env p (Js.trim (Gallery.contractAddress s)) = Js.Ok c ->
    Gallery.totalSupply c = Js.Ok total ->
    k < N.to_nat total ->
    (forall j, j < k ->
               exists tokenId card,
                 Gallery.tokenByIndex c j = Js.Ok tokenId
                 /\ Listing.card_of env c tokenId = Js.Ok card) ->
    Gallery.tokenByIndex c k = Js.Throw err ->
    List.length (Gallery.nfts (snd (Gallery.listAllTokens env s))) = k
    /\ match Gallery.message_prop err with
       | Js.Ok m =>
           fst (Gallery.listAllTokens env s) = Js.Ok tt
           /\ exists evs0,
                Listing.quiet evs0
                /\ Listing.since s (snd (Gallery.listAllTokens env s))
                   = evs0 ++ [Gallery.ConsoleError err; Gallery.Alert ("Error: " ++ m)]
       | Js.Throw t =>
           fst (Gallery.listAllTokens env s) = Js.Throw t
           /\ exists evs0,
                Listing.quiet evs0
                /\ Listing.since s (snd (Gallery.listAllTokens env s))
                   = evs0 ++ [Gallery.ConsoleError err]
       end.
Proof.
  intros J Card env s p c total k err Hp Hc Hnew Htot Hk Hbefore Hfail.
  destruct (listAllTokens_listing J Card env s p c total Hp Hc Hnew Htot)
    as (evs & Htr & Hlen & Hpos & Hend).
  rewrite (since_app _ _ _ _ Htr).
  assert (Hnot : ~ k < List.length (Gallery.nfts (snd (Gallery.listAllTokens env s)))).
  { intros Hlt.
    destruct (nth_error (Gallery.nfts (snd (Gallery.listAllTokens env s))) k) as [cd |] eqn:E.
    - destruct (Hpos k cd E) as (t & H1 & _). congruence.
    - apply nth_error_None in E. lia. }
  destruct Hend as [(Hl & _) | (Hlt & e & evs0 & Hwhy & Hq & Hf & Hevs)].
  - exfalso. lia.
  - assert (Hj : List.length (Gallery.nfts (snd (Gallery.listAllTokens env s))) = k
                 /\ e = err).
    { destruct (lt_eq_lt_dec
                  (List.length (Gallery.nfts (snd (Gallery.listAllTokens env s)))) k)
        as [[L | E] | G].
      - exfalso. destruct (Hbefore _ L) as (t & cd & A & B).
        destruct Hwhy as [W | (t' & W1 & W2)]; [congruence |].
        assert (t' = t) by congruence. subst t'. congruence.
      - split; [exact E |]. rewrite E in Hwhy.
        destruct Hwhy as [W | (t' & W1 & W2)]; congruence.
      - exfalso. exact (Hnot G). }
    destruct Hj as [Hj ->]. split; [exact Hj |].
    pose proof (caught_outcome "Error: " err) as O.
    destruct (Gallery.message_prop err) as [m | t]; rewrite O in Hf, Hevs;
      cbn [fst snd] in Hf, Hevs; (split; [exact Hf |]); exists evs0; split; assumption.
Qed.

Lemma listAllTokens_alerts_where_enumeration_fails_witness :
  List.length (Gallery.nfts (snd (Gallery.listAllTokens
                                    (Collection.read_only Collection.breaks_at_1)
                                    Collection.page)))
  = 1
  /\ fst (Gallery.listAllTokens (Collection.read_only Collection.breaks_at_1)
                                Collection.page)
     = Js.Ok tt
  /\ exists evs0,
       Listing.quiet evs0
       /\ Listing.since Collection.page
            (snd (Gallery.listAllTokens (Collection.read_only Collection.breaks_at_1)
                                        Collection.page))
          = evs0 ++ [Gallery.ConsoleError (Js.Error "execution reverted");
                     Gallery.Alert "Error: execution reverted"].
Proof.
  apply (listAllTokens_alerts_where_enumeration_fails _ _
           (Collection.read_only Collection.breaks_at_1) Collection.page
           (Gallery.JsonRpcProvider "https://rpc.example") Collection.breaks_at_1 3%N 1
           (Js.Error "execution reverted")).
  - reflexivity.
  - reflexivity.
  - reflexivity.
  - reflexivity.
  - cbn. lia.
  - intros j Hj. destruct j as [| j].
    + eexists _, _. split; reflexivity.
    + exfalso. lia.
  - reflexivity.
Defined.


